(** * AllyieModel: the response recovery pipeline of [question_generator.py]

    A shallow embedding of [QuestionGenerator]'s parsing side
    ([_extract_json], [_parse_mcq], [_parse_fillup], [_parse_coding], the
    three fallback generators, [_call_ollama] and the [generate_*] entry
    points) together with the library behaviour they rely on (Python
    strings, dictionaries, truthiness, [str.strip], the two regular
    expressions and [json.loads]).

    Conventions
    - a Python [str] is a list of Unicode code points ([str := list N]);
      ASCII literals of the source are written [py "..."];
    - a Python object is a [value]; a [dict] is an insertion-ordered
      association list with unique keys;
    - code that can raise returns [result A]; [try]/[except] is written
      with [try_except];
    - what depends on the interpreter the program runs in, and not on the
      program, is a field of [Interpreter]: the depth the decoder may
      recurse to before [RecursionError], and the lone surrogates the
      console lets through;
    - a [print] whose text holds data of the caller or of the model is
      modelled, since it raises [UnicodeEncodeError] on a text the
      console cannot encode; the other [print] calls write literals,
      numbers and ASCII messages, which a UTF-8 console always encodes,
      and are left out. *)

From Stdlib Require Import String Ascii List ZArith NArith QArith Bool Lia.
From Stdlib Require Import DecimalString DecimalZ.
Import ListNotations.

Local Open Scope Z_scope.
Local Open Scope list_scope.

(* ================================================================== *)
(** * Python strings *)
(* ================================================================== *)

Module PyStr.

Definition char := N.
Definition str := list char.

(** An ASCII character literal as a code point. *)
Definition ch (a : ascii) : char := N_of_ascii a.
Arguments ch a%_char.

(** An ASCII literal of the source as a [str]. *)
Definition py (s : string) : str :=
  List.map N_of_ascii (list_ascii_of_string s).

(** [x == y] on strings. *)
Fixpoint str_eqb (a b : str) : bool :=
  match a, b with
  | [], [] => true
  | x :: a', y :: b' => N.eqb x y && str_eqb a' b'
  | _, _ => false
  end.

(** [s.startswith(p)]. *)
Fixpoint starts_with (p s : str) : bool :=
  match p, s with
  | [], _ => true
  | x :: p', y :: s' => N.eqb x y && starts_with p' s'
  | _ :: _, [] => false
  end.

(** CPython's [Py_UNICODE_ISSPACE], used both by [str.strip] without
    argument and by the [\s] class of [re] on [str] patterns. *)
Definition isspace (c : char) : bool :=
  ((9 <=? c) && (c <=? 13) || (28 <=? c) && (c <=? 32)
   || (c =? 133) || (c =? 160) || (c =? 5760)
   || (8192 <=? c) && (c <=? 8202)
   || (c =? 8232) || (c =? 8233) || (c =? 8239) || (c =? 8287)
   || (c =? 12288))%N.

Fixpoint lstrip (s : str) : str :=
  match s with
  | c :: s' => if isspace c then lstrip s' else s
  | [] => []
  end.

Definition rstrip (s : str) : str := rev (lstrip (rev s)).

(** [s.strip()]. *)
Definition strip (s : str) : str := rstrip (lstrip s).

(** [str(n)] for an [int]. *)
Definition str_of_int (z : Z) : str :=
  py (NilZero.string_of_int (Z.to_int z)).

End PyStr.
Export PyStr.

(* ================================================================== *)
(** * Python objects, dictionaries, truthiness *)
(* ================================================================== *)

Module PyVal.

(** A [float] produced by [json.loads]: the decimal the literal denotes,
    [m * 10^e], which CPython rounds to binary64, or one of the three
    constants [NaN], [Infinity], [-Infinity]. *)
Inductive pyfloat : Type :=
| FDec (m e : Z)
| FNaN
| FInf (negative : bool).

(** The objects [json.loads] can return, which are also the objects the
    records of this program hold. *)
#[warnings="-register-all"]
Inductive value : Type :=
| VNone
| VBool (b : bool)
| VInt (z : Z)
| VFloat (f : pyfloat)
| VStr (s : str)
| VList (l : list value)
| VDict (d : list (str * value)).

Definition dict := list (str * value).

(** [d[k]] as an option. *)
Fixpoint dict_lookup (k : str) (d : dict) : option value :=
  match d with
  | [] => None
  | (k', v) :: d' => if str_eqb k k' then Some v else dict_lookup k d'
  end.

(** [d.get(k, default)]. *)
Definition dict_get (d : dict) (k : str) (default : value) : value :=
  match dict_lookup k d with
  | Some v => v
  | None => default
  end.

(** [d[k] = v]: an existing key keeps its position. *)
Fixpoint dict_set (k : str) (v : value) (d : dict) : dict :=
  match d with
  | [] => [(k, v)]
  | (k', v') :: d' =>
      if str_eqb k k' then (k', v) :: d' else (k', v') :: dict_set k v d'
  end.

(** [dict(pairs)]. *)
Definition dict_of_pairs (pairs : list (str * value)) : dict :=
  fold_left (fun d kv => dict_set (fst kv) (snd kv) d) pairs [].

Definition dict_keys (d : dict) : list str := List.map fst d.

(** A binary64 rounds to zero exactly when the decimal is at most
    [2^-1075] in magnitude (ties go to the even neighbour, zero). *)
Definition float_is_zero (f : pyfloat) : bool :=
  match f with
  | FDec m e =>
      if m =? 0 then true
      else if 0 <=? e then false
      else Z.abs m * 2 ^ 1075 <=? 10 ^ (- e)
  | FNaN => false
  | FInf _ => false
  end.

(** [bool(v)]. *)
Definition truthy (v : value) : bool :=
  match v with
  | VNone => false
  | VBool b => b
  | VInt z => negb (z =? 0)
  | VFloat f => negb (float_is_zero f)
  | VStr s => match s with [] => false | _ => true end
  | VList l => match l with [] => false | _ => true end
  | VDict d => match d with [] => false | _ => true end
  end.

End PyVal.
Export PyVal.

(* ================================================================== *)
(** * Exceptions *)
(* ================================================================== *)

Module Exn.

Inductive exn : Type :=
| JSONDecodeError
| ValueError (msg : str)
| AttributeError
| KeyError (key : str)
| TypeError
| Timeout
| ConnectionError
| Exception_ (msg : str)
| RecursionError
| UnicodeEncodeError.

Inductive result (A : Type) : Type :=
| Ok (a : A)
| Raise (e : exn).
Arguments Ok {A} a.
Arguments Raise {A} e.

Definition bind {A B} (c : result A) (k : A -> result B) : result B :=
  match c with
  | Ok a => k a
  | Raise e => Raise e
  end.

(** [try: body  except <handled>: handler]. *)
Definition try_except {A} (body : result A) (handled : exn -> bool)
    (handler : exn -> result A) : result A :=
  match body with
  | Ok a => Ok a
  | Raise e => if handled e then handler e else Raise e
  end.

End Exn.
Export Exn.

Notation "x <- c ;; k" := (bind c (fun x => k))
  (at level 61, c at next level, right associativity).

(* ================================================================== *)
(** * The two regular-expression idioms of [_extract_json] *)
(* ================================================================== *)

Module Re.

(** [re.sub(lit + r'\s*', '', s)] for a non-empty literal [lit]: every
    leftmost, non-overlapping occurrence of [lit] is removed together
    with the whitespace that follows it.  [fuel] bounds the number of
    scanning steps; [length s] is always enough ([re_sub_ws_cons_hit],
    [re_sub_ws_cons_miss]). *)
Fixpoint re_sub_ws_fuel (fuel : nat) (lit s : str) : str :=
  match fuel with
  | O => s
  | S fuel' =>
      match s with
      | [] => []
      | c :: s' =>
          if starts_with lit s
          then re_sub_ws_fuel fuel' lit (lstrip (skipn (length lit) s))
          else c :: re_sub_ws_fuel fuel' lit s'
      end
  end.

Definition re_sub_ws (lit s : str) : str :=
  re_sub_ws_fuel (length s) lit s.

(** The longest prefix of [s] that ends with [close], when [close]
    occurs in [s]: what a greedy [.*] followed by [close] matches under
    [re.DOTALL]. *)
Fixpoint upto_last (close : char) (s : str) : option str :=
  match s with
  | [] => None
  | x :: s' =>
      match upto_last close s' with
      | Some m => Some (x :: m)
      | None => if N.eqb x close then Some [x] else None
      end
  end.

(** The match of [(\[.*\]|\{.*\})] anchored at the head of [s]. *)
Definition match_bracketed_here (s : str) : option str :=
  match s with
  | [] => None
  | c :: s' =>
      if N.eqb c (ch "[") then option_map (cons c) (upto_last (ch "]") s')
      else if N.eqb c (ch "{") then option_map (cons c) (upto_last (ch "}") s')
      else None
  end.

(** [re.search(r'(\[.*\]|\{.*\})', s, re.DOTALL)], as [group(1)] of the
    leftmost match. *)
Fixpoint re_search_bracketed (s : str) : option str :=
  match s with
  | [] => None
  | _ :: s' =>
      match match_bracketed_here s with
      | Some m => Some m
      | None => re_search_bracketed s'
      end
  end.

End Re.
Export Re.

(* ================================================================== *)
(** * Stage A: [_extract_json] *)
(* ================================================================== *)

(** [QuestionGenerator._extract_json]. *)
Definition _extract_json (raw_output : str) : str :=
  let raw_output := re_sub_ws (py "```json") raw_output in
  let raw_output := re_sub_ws (py "```") raw_output in
  match re_search_bracketed raw_output with
  | Some json_match => json_match
  | None => strip raw_output
  end.

(* ================================================================== *)
(** * Stage B: [json.loads] *)
(* ================================================================== *)

(** The decoder of the standard library on a [str] argument, with its
    default options ([strict=True], no hooks): whitespace is space, tab,
    newline and carriage return; [NaN], [Infinity] and [-Infinity] are
    accepted; a repeated key keeps its first position and its last
    value.  A malformed text raises [JSONDecodeError].  Two more
    exceptions come from the interpreter: [int] refuses a literal of
    more than 4300 digits with [ValueError], and the scanner, which
    recurses once for every array or object it enters, raises
    [RecursionError] when more of them are nested than the recursion
    limit leaves room for.  That room is the argument [depth]. *)
Module Json.

Local Open Scope N_scope.

Definition quote : char := 34.
Definition backslash : char := 92.

Definition is_ws (c : char) : bool :=
  (c =? 32) || (c =? 9) || (c =? 10) || (c =? 13).

Fixpoint skip_ws (s : str) : str :=
  match s with
  | c :: s' => if is_ws c then skip_ws s' else s
  | [] => []
  end.

Definition is_digit (c : char) : bool := (48 <=? c) && (c <=? 57).

Definition digit_val (c : char) : Z := Z.of_N (c - 48).

Fixpoint span_digits (s : str) : list char * str :=
  match s with
  | c :: s' =>
      if is_digit c
      then let (ds, rest) := span_digits s' in (c :: ds, rest)
      else ([], s)
  | [] => ([], [])
  end.

Definition int_of_digits (ds : list char) : Z :=
  fold_left (fun acc c => 10 * acc + digit_val c)%Z ds 0%Z.

(** [sys.int_info.default_max_str_digits]; the program does not change
    the limit. *)
Definition max_str_digits : nat := 4300.

(** The message of the [ValueError] of [int] on a literal of [digits]
    digits. *)
Definition int_limit_message (digits : nat) : str :=
  py "Exceeds the limit (4300 digits) for integer string conversion: value has "
  ++ str_of_int (Z.of_nat digits)
  ++ py " digits; use sys.set_int_max_str_digits() to increase the limit".

(** [int(digits)] for the integer part of a number, with its sign. *)
Definition int_of_literal (sign : Z) (ds : list char) : result value :=
  if (max_str_digits <? length ds)%nat
  then Raise (ValueError (int_limit_message (length ds)))
  else Ok (VInt (sign * int_of_digits ds)).

Definition hex_val (c : char) : option N :=
  if is_digit c then Some (c - 48)
  else if (97 <=? c) && (c <=? 102) then Some (c - 87)
  else if (65 <=? c) && (c <=? 70) then Some (c - 55)
  else None.

Definition hex4 (a b c d : char) : option N :=
  match hex_val a, hex_val b, hex_val c, hex_val d with
  | Some x, Some y, Some z, Some w => Some (((x * 16 + y) * 16 + z) * 16 + w)
  | _, _, _, _ => None
  end.

Definition is_high_surrogate (u : N) : bool := (55296 <=? u) && (u <=? 56319).
Definition is_low_surrogate (u : N) : bool := (56320 <=? u) && (u <=? 57343).
Definition join_surrogates (hi lo : N) : N :=
  65536 + (((hi - 55296) * 1024) + (lo - 56320)).

(** The one-character escapes of [BACKSLASH]. *)
Definition unescape (e : char) : option char :=
  if e =? quote then Some quote
  else if e =? backslash then Some backslash
  else if e =? ch "/" then Some (ch "/")
  else if e =? ch "b" then Some 8
  else if e =? ch "f" then Some 12
  else if e =? ch "n" then Some 10
  else if e =? ch "r" then Some 13
  else if e =? ch "t" then Some 9
  else None.

Definition push (c : char) (r : result (str * str)) : result (str * str) :=
  match r with
  | Ok (t, rest) => Ok (c :: t, rest)
  | Raise e => Raise e
  end.

(** [scanstring(s, end)], [s] being the text after the opening quote:
    the decoded string and the text after the closing quote. *)
Fixpoint scanstring (s : str) : result (str * str) :=
  match s with
  | [] => Raise JSONDecodeError
  | c :: s1 =>
      if c =? quote then Ok ([], s1)
      else if c =? backslash then
        match s1 with
        | [] => Raise JSONDecodeError
        | e :: s2 =>
            if e =? ch "u" then
              match s2 with
              | h1 :: h2 :: h3 :: h4 :: s3 =>
                  match hex4 h1 h2 h3 h4 with
                  | None => Raise JSONDecodeError
                  | Some uni =>
                      match s3 with
                      | b :: u :: g1 :: g2 :: g3 :: g4 :: s4 =>
                          if is_high_surrogate uni && (b =? backslash)
                             && (u =? ch "u")
                          then
                            match hex4 g1 g2 g3 g4 with
                            | None => Raise JSONDecodeError
                            | Some uni2 =>
                                if is_low_surrogate uni2
                                then push (join_surrogates uni uni2)
                                          (scanstring s4)
                                else push uni (scanstring s3)
                            end
                          else push uni (scanstring s3)
                      | _ => push uni (scanstring s3)
                      end
                  end
              | _ => Raise JSONDecodeError
              end
            else
              match unescape e with
              | Some x => push x (scanstring s2)
              | None => Raise JSONDecodeError
              end
        end
      else if c <? 32 then Raise JSONDecodeError
      else push c (scanstring s1)
  end.

(** [NUMBER_RE.match]: an optional minus sign, then [0] or a digit
    string without leading zero; an optional fraction (a dot and at
    least one digit); an optional exponent ([e] or [E], an optional
    sign, at least one digit).  The groups are converted by [int] when
    there is neither fraction nor exponent and by [float] otherwise.
    [None] is no match; a match on which [int] raises is [Some] of the
    exception. *)
Definition match_number (s : str) : option (result (value * str)) :=
  let '(neg, s0) :=
    match s with
    | c :: s' => if c =? ch "-" then (true, s') else (false, s)
    | [] => (false, s)
    end in
  match s0 with
  | [] => None
  | d :: s1 =>
      if is_digit d then
        let '(int_ds, s2) :=
          if d =? ch "0" then ([d], s1)
          else let (ds, r) := span_digits s1 in (d :: ds, r) in
        let '(frac_ds, s3) :=
          match s2 with
          | p :: s2' =>
              if p =? ch "." then
                match span_digits s2' with
                | ([], _) => ([], s2)
                | (fd, r) => (fd, r)
                end
              else ([], s2)
          | [] => ([], s2)
          end in
        let '(exp, s4) :=
          match s3 with
          | e :: s3' =>
              if (e =? ch "e") || (e =? ch "E") then
                let '(esign, s3'') :=
                  match s3' with
                  | sg :: t =>
                      if sg =? ch "-" then ((-1)%Z, t)
                      else if sg =? ch "+" then (1%Z, t)
                      else (1%Z, s3')
                  | [] => (1%Z, s3')
                  end in
                match span_digits s3'' with
                | ([], _) => (None, s3)
                | (ed, r) => (Some (esign * int_of_digits ed)%Z, r)
                end
              else (None, s3)
          | [] => (None, s3)
          end in
        let sign := if neg then (-1)%Z else 1%Z in
        match frac_ds, exp with
        | [], None =>
            Some (n <- int_of_literal sign int_ds ;; Ok (n, s4))
        | _, _ =>
            let e10 := match exp with Some x => x | None => 0%Z end in
            Some (Ok (VFloat (FDec (sign * int_of_digits (int_ds ++ frac_ds))
                                   (e10 - Z.of_nat (length frac_ds))), s4))
        end
      else None
  end.

(** [scan_once] with the array and object loops of [JSONArray] and
    [JSONObject].  [array_loop] starts at an element, [object_loop]
    just after the opening quote of a key.  The scanner enters a
    recursive call at every opening bracket, before it looks at what
    follows: [depth] is the number of such calls the interpreter still
    allows, and the values inside the bracket are scanned with one
    less.  [None] is fuel exhaustion, which [json_loads] never meets
    ([scan_once_fuel]). *)
Fixpoint scan_once (fuel depth : nat) (s : str) {struct fuel}
  : option (result (value * str)) :=
  match fuel with
  | O => None
  | S fuel' =>
      match s with
      | [] => Some (Raise JSONDecodeError)
      | c :: s' =>
          if c =? quote then
            Some (ks <- scanstring s' ;; Ok (VStr (fst ks), snd ks))
          else if c =? ch "{" then
            match depth with
            | O => Some (Raise RecursionError)
            | S depth' =>
                match skip_ws s' with
                | c1 :: s1 =>
                    if c1 =? ch "}" then Some (Ok (VDict [], s1))
                    else if c1 =? quote then object_loop fuel' depth' s1 []
                    else Some (Raise JSONDecodeError)
                | [] => Some (Raise JSONDecodeError)
                end
            end
          else if c =? ch "[" then
            match depth with
            | O => Some (Raise RecursionError)
            | S depth' =>
                match skip_ws s' with
                | c1 :: s1 =>
                    if c1 =? ch "]" then Some (Ok (VList [], s1))
                    else array_loop fuel' depth' (c1 :: s1) []
                | [] => Some (Raise JSONDecodeError)
                end
            end
          else if starts_with (py "null") s then Some (Ok (VNone, skipn 4 s))
          else if starts_with (py "true") s
          then Some (Ok (VBool true, skipn 4 s))
          else if starts_with (py "false") s
          then Some (Ok (VBool false, skipn 5 s))
          else
            match match_number s with
            | Some r => Some r
            | None =>
                if starts_with (py "NaN") s
                then Some (Ok (VFloat FNaN, skipn 3 s))
                else if starts_with (py "Infinity") s
                then Some (Ok (VFloat (FInf false), skipn 8 s))
                else if starts_with (py "-Infinity") s
                then Some (Ok (VFloat (FInf true), skipn 9 s))
                else Some (Raise JSONDecodeError)
            end
      end
  end

with array_loop (fuel depth : nat) (s : str) (acc : list value)
    {struct fuel} : option (result (value * str)) :=
  match fuel with
  | O => None
  | S fuel' =>
      match scan_once fuel' depth s with
      | None => None
      | Some (Raise e) => Some (Raise e)
      | Some (Ok (v, rest)) =>
          match skip_ws rest with
          | c :: r =>
              if c =? ch "]" then Some (Ok (VList (rev (v :: acc)), r))
              else if c =? ch ","
              then array_loop fuel' depth (skip_ws r) (v :: acc)
              else Some (Raise JSONDecodeError)
          | [] => Some (Raise JSONDecodeError)
          end
      end
  end

with object_loop (fuel depth : nat) (s : str) (pairs : list (str * value))
    {struct fuel} : option (result (value * str)) :=
  match fuel with
  | O => None
  | S fuel' =>
      match scanstring s with
      | Raise e => Some (Raise e)
      | Ok (key, s1) =>
          match skip_ws s1 with
          | colon :: s2 =>
              if colon =? ch ":" then
                match scan_once fuel' depth (skip_ws s2) with
                | None => None
                | Some (Raise e) => Some (Raise e)
                | Some (Ok (v, rest)) =>
                    match skip_ws rest with
                    | c :: r =>
                        if c =? ch "}" then
                          Some (Ok (VDict (dict_of_pairs
                                             (rev ((key, v) :: pairs))), r))
                        else if c =? ch "," then
                          match skip_ws r with
                          | q :: r' =>
                              if q =? quote
                              then object_loop fuel' depth r'
                                     ((key, v) :: pairs)
                              else Some (Raise JSONDecodeError)
                          | [] => Some (Raise JSONDecodeError)
                          end
                        else Some (Raise JSONDecodeError)
                    | [] => Some (Raise JSONDecodeError)
                    end
                end
              else Some (Raise JSONDecodeError)
          | [] => Some (Raise JSONDecodeError)
          end
      end
  end.

(** [json.loads(s)], called where the interpreter leaves room for
    [depth] nested arrays and objects. *)
Definition json_loads (depth : nat) (s : str) : result value :=
  if starts_with [65279] s then Raise JSONDecodeError
  else
    let s0 := skip_ws s in
    match scan_once (2 * length s0 + 1) depth s0 with
    | Some (Ok (obj, rest)) =>
        match skip_ws rest with
        | [] => Ok obj
        | _ :: _ => Raise JSONDecodeError
        end
    | Some (Raise e) => Raise e
    | None => Raise JSONDecodeError
    end.

End Json.
Export Json.

(** Test inputs are written with an apostrophe where the text has a
    double quote. *)
Definition jtext (s : string) : str :=
  List.map (fun c => if N.eqb c 39 then quote else c) (py s).

(* ================================================================== *)
(** * The interpreter *)
(* ================================================================== *)

(** What the program takes from the interpreter it runs in.
    - [parser_depth]: the arrays and objects, nested in one another,
      that [json.loads] may enter when one of the three parsers calls
      it; it is the recursion limit (1000 unless changed) less the
      calls in progress.
    - [response_depth]: the same where [_call_ollama] decodes the body
      of the reply with [response.json()].
    - [stdout_passes]: the lone surrogates that the error handler of
      [sys.stdout] lets through: none under [strict], U+DC80 to U+DCFF
      under [surrogateescape].  The console is taken to be a UTF-8
      stream, which encodes every other code point. *)
Class Interpreter : Type := {
  parser_depth : nat;
  response_depth : nat;
  stdout_passes : char -> bool
}.

Definition is_surrogate (c : char) : bool :=
  ((55296 <=? c) && (c <=? 57343))%N.

(** The console can encode the code point. *)
Definition stdout_encodes `{Interpreter} (c : char) : bool :=
  negb (is_surrogate c) || stdout_passes c.

Definition printable `{Interpreter} (text : str) : bool :=
  forallb stdout_encodes text.

(** [print(text)]. *)
Definition print `{Interpreter} (text : str) : result unit :=
  if printable text then Ok tt else Raise UnicodeEncodeError.

(** CPython 3.11 as it starts in a POSIX locale ([sys.stdout] is UTF-8
    with [surrogateescape]), with a [generate_*] method called from the
    top level of a script: seven calls are in progress in the decoder of
    a parser and eight in that of the reply.  A statement that takes no
    [Interpreter] is about this one: the examples, the witnesses and the
    failing inputs are run under it.  Every other statement holds for
    all interpreters. *)
#[global] Instance cpython : Interpreter := {|
  parser_depth := 993;
  response_depth := 992;
  stdout_passes := fun c => ((56448 <=? c) && (c <=? 56575))%N
|}.

(* ================================================================== *)
(** * Small pieces of Python used by the generator *)
(* ================================================================== *)

(** [d[k]]. *)
Definition dict_item (d : dict) (k : str) : result value :=
  match dict_lookup k d with
  | Some v => Ok v
  | None => Raise (KeyError k)
  end.

(** [v.strip()]: only a [str] has the method. *)
Definition method_strip (v : value) : result value :=
  match v with
  | VStr s => Ok (VStr (strip s))
  | _ => Raise AttributeError
  end.

(** [range(n)]. *)
Definition range (n : Z) : list Z :=
  List.map Z.of_nat (seq 0 (Z.to_nat n)).

(** [l[:n]]: a negative [n] counts from the end. *)
Definition slice_to {A} (n : Z) (l : list A) : list A :=
  if 0 <=? n then firstn (Z.to_nat n) l
  else firstn (length l - Z.to_nat (- n)) l.

Definition is_JSONDecodeError (e : exn) : bool :=
  match e with JSONDecodeError => true | _ => false end.

(** [except (json.JSONDecodeError, ValueError)]; [UnicodeEncodeError]
    is a subclass of [ValueError]. *)
Definition is_JSONDecodeError_or_ValueError (e : exn) : bool :=
  match e with
  | JSONDecodeError | ValueError _ | UnicodeEncodeError => true
  | _ => false
  end.

(** The two enumerations of the module.  The generator takes the
    difficulty as a plain [str] and never converts it. *)
Inductive Difficulty : Type := EASY | MEDIUM | HARD.

Definition Difficulty_value (d : Difficulty) : str :=
  match d with
  | EASY => py "easy"
  | MEDIUM => py "medium"
  | HARD => py "hard"
  end.

Inductive QuestionType : Type := MCQ | FILLUP | CODING.

Definition QuestionType_value (k : QuestionType) : str :=
  match k with
  | MCQ => py "mcq"
  | FILLUP => py "fillup"
  | CODING => py "coding"
  end.

(* ================================================================== *)
(** * Stage D: the fallback generators *)
(* ================================================================== *)

(** [QuestionGenerator._generate_fallback_mcq]. *)
Definition _generate_fallback_mcq (topic difficulty : str) (count : Z)
  : list dict :=
  List.map (fun i =>
    [ (py "id", VInt (i + 1));
      (py "topic", VStr topic);
      (py "difficulty", VStr difficulty);
      (py "type", VStr (py "mcq"));
      (py "question",
        VStr (py "What is an important concept in " ++ topic
              ++ py "? (Question " ++ str_of_int (i + 1) ++ py ")"));
      (py "options",
        VDict [ (py "A", VStr (py "Option A"));
                (py "B", VStr (py "Option B"));
                (py "C", VStr (py "Option C"));
                (py "D", VStr (py "Option D")) ]);
      (py "correct_answer", VStr (py "A"));
      (py "explanation",
        VStr (py "This is a fallback question. Please regenerate for better quality.")) ])
    (range count).

(** [QuestionGenerator._generate_fallback_fillup]. *)
Definition _generate_fallback_fillup (topic difficulty : str) (count : Z)
  : list dict :=
  List.map (fun i =>
    [ (py "id", VInt (i + 1));
      (py "topic", VStr topic);
      (py "difficulty", VStr difficulty);
      (py "type", VStr (py "fillup"));
      (py "question",
        VStr (py "In " ++ topic ++ py ", ___ is an important concept (Question "
              ++ str_of_int (i + 1) ++ py ")"));
      (py "correct_word", VStr (py "placeholder"));
      (py "hint", VStr (py "Key concept"));
      (py "explanation",
        VStr (py "This is a fallback question. Please regenerate for better quality.")) ])
    (range count).

(** The local table [time_limits] of [_generate_fallback_coding]. *)
Definition time_limits : dict :=
  [ (py "easy", VInt 120); (py "medium", VInt 180); (py "hard", VInt 300) ].

(** [QuestionGenerator._generate_fallback_coding]. *)
Definition _generate_fallback_coding (topic difficulty : str) (count : Z)
  : list dict :=
  List.map (fun i =>
    [ (py "id", VInt (i + 1));
      (py "topic", VStr topic);
      (py "difficulty", VStr difficulty);
      (py "type", VStr (py "coding"));
      (py "question",
        VStr (py "Write a function for " ++ topic ++ py " (Question "
              ++ str_of_int (i + 1) ++ py ")"));
      (py "function_name", VStr (py "solve_" ++ str_of_int (i + 1)));
      (py "test_input", VStr (py "input"));
      (py "expected_output", VStr (py "output"));
      (py "time_limit_seconds", dict_get time_limits difficulty (VInt 120)) ])
    (range count).

(* ================================================================== *)
(** * Stage C and the three parsers *)
(* ================================================================== *)

(** The dictionary display [validated = {...}] of [_parse_mcq]; [q] is
    the parsed element and [i] the default for its [id]. *)
Definition mcq_validated (topic difficulty : str) (q : dict) (i : Z)
  : dict :=
  [ (py "id", dict_get q (py "id") (VInt i));
    (py "topic", dict_get q (py "topic") (VStr topic));
    (py "difficulty", dict_get q (py "difficulty") (VStr difficulty));
    (py "type", VStr (py "mcq"));
    (py "question", dict_get q (py "question") (VStr []));
    (py "options", dict_get q (py "options") (VDict []));
    (py "correct_answer", dict_get q (py "correct_answer") (VStr (py "A")));
    (py "explanation", dict_get q (py "explanation") (VStr [])) ].

(** [validated["question"] and validated["options"]] as a condition. *)
Definition mcq_check (validated : dict) : result bool :=
  a <- dict_item validated (py "question") ;;
  if truthy a
  then b <- dict_item validated (py "options") ;; Ok (truthy b)
  else Ok false.

(** The body of the [for i, q in enumerate(parsed, 1)] loop of
    [_parse_mcq]: [valid_questions] before and after the element. *)
Definition mcq_step (topic difficulty : str) (q : value) (i : Z)
    (valid_questions : list dict) : result (list dict) :=
  match q with
  | VDict qd =>
      let validated := mcq_validated topic difficulty qd i in
      keep <- mcq_check validated ;;
      Ok (if keep then valid_questions ++ [validated] else valid_questions)
  | _ => Ok valid_questions
  end.

(** The loop itself, from position [i] on. *)
Fixpoint mcq_loop (topic difficulty : str) (parsed : list value) (i : Z)
    (valid_questions : list dict) : result (list dict) :=
  match parsed with
  | [] => Ok valid_questions
  | q :: parsed' =>
      valid_questions' <- mcq_step topic difficulty q i valid_questions ;;
      mcq_loop topic difficulty parsed' (i + 1) valid_questions'
  end.

(** The body of the [try] statement of [_parse_mcq]: [Some l] is
    [return l], [None] is falling out of the statement. *)
Definition mcq_body `{Interpreter} (topic difficulty cleaned : str)
  : result (option (list dict)) :=
  parsed <- json_loads parser_depth cleaned ;;
  match parsed with
  | VList l =>
      valid_questions <- mcq_loop topic difficulty l 1 [] ;;
      match valid_questions with
      | [] => Ok None
      | _ :: _ => Ok (Some valid_questions)
      end
  | VDict d =>
      let validated := mcq_validated topic difficulty d 1 in
      keep <- mcq_check validated ;;
      if keep then Ok (Some [validated]) else Ok None
  | _ => Ok None
  end.

(** The second line the handler of [_parse_mcq] prints: a warning sign
    (U+26A0, U+FE0F), and the first 200 characters of the raw output. *)
Definition raw_output_line (raw_output : str) : str :=
  [9888; 65039]%N ++ py "  Raw output: " ++ slice_to 200 raw_output
  ++ py "...".

(** [QuestionGenerator._parse_mcq].  The handler prints the message of
    the exception, which is ASCII, and then [raw_output_line]. *)
Definition _parse_mcq `{Interpreter} (raw_output topic difficulty : str)
    (count : Z) : result (list dict) :=
  let cleaned := _extract_json raw_output in
  returned <- try_except (mcq_body topic difficulty cleaned)
                is_JSONDecodeError
                (fun _ => done <- print (raw_output_line raw_output) ;;
                          Ok None) ;;
  match returned with
  | Some questions => Ok questions
  | None => Ok (_generate_fallback_mcq topic difficulty count)
  end.

(** The dictionary display of [_parse_fillup]. *)
Definition fillup_validated (topic difficulty : str) (q : dict) (i : Z)
  : dict :=
  [ (py "id", dict_get q (py "id") (VInt i));
    (py "topic", dict_get q (py "topic") (VStr topic));
    (py "difficulty", dict_get q (py "difficulty") (VStr difficulty));
    (py "type", VStr (py "fillup"));
    (py "question", dict_get q (py "question") (VStr []));
    (py "correct_word", dict_get q (py "correct_word") (VStr []));
    (py "hint", dict_get q (py "hint") (VStr []));
    (py "explanation", dict_get q (py "explanation") (VStr [])) ].

(** [validated["question"] and validated["correct_word"]]. *)
Definition fillup_check (validated : dict) : result bool :=
  a <- dict_item validated (py "question") ;;
  if truthy a
  then b <- dict_item validated (py "correct_word") ;; Ok (truthy b)
  else Ok false.

(** The loop body of [_parse_fillup]. *)
Definition fillup_step (topic difficulty : str) (q : value) (i : Z)
    (valid_questions : list dict) : result (list dict) :=
  match q with
  | VDict qd =>
      let validated := fillup_validated topic difficulty qd i in
      keep <- fillup_check validated ;;
      Ok (if keep then valid_questions ++ [validated] else valid_questions)
  | _ => Ok valid_questions
  end.

Fixpoint fillup_loop (topic difficulty : str) (parsed : list value) (i : Z)
    (valid_questions : list dict) : result (list dict) :=
  match parsed with
  | [] => Ok valid_questions
  | q :: parsed' =>
      valid_questions' <- fillup_step topic difficulty q i valid_questions ;;
      fillup_loop topic difficulty parsed' (i + 1) valid_questions'
  end.

(** The body of the [try] statement of [_parse_fillup]. *)
Definition fillup_body `{Interpreter} (topic difficulty cleaned : str)
  : result (option (list dict)) :=
  parsed <- json_loads parser_depth cleaned ;;
  match parsed with
  | VList l =>
      valid_questions <- fillup_loop topic difficulty l 1 [] ;;
      match valid_questions with
      | [] => Ok None
      | _ :: _ => Ok (Some valid_questions)
      end
  | VDict d =>
      let validated := fillup_validated topic difficulty d 1 in
      keep <- fillup_check validated ;;
      if keep then Ok (Some [validated]) else Ok None
  | _ => Ok None
  end.

(** [QuestionGenerator._parse_fillup].  The handler prints the message
    of the exception only. *)
Definition _parse_fillup `{Interpreter} (raw_output topic difficulty : str)
    (count : Z) : result (list dict) :=
  let cleaned := _extract_json raw_output in
  returned <- try_except (fillup_body topic difficulty cleaned)
                is_JSONDecodeError (fun _ => Ok None) ;;
  match returned with
  | Some questions => Ok questions
  | None => Ok (_generate_fallback_fillup topic difficulty count)
  end.

(** The dictionary display of [_parse_coding]; its five text fields
    call [.strip()] on whatever the element holds. *)
Definition coding_validated (topic difficulty : str) (q : dict) (i : Z)
  : result dict :=
  question <- method_strip (dict_get q (py "question") (VStr [])) ;;
  input <- method_strip (dict_get q (py "input") (VStr [])) ;;
  output <- method_strip (dict_get q (py "output") (VStr [])) ;;
  constraints <- method_strip (dict_get q (py "constraints") (VStr [])) ;;
  example <-
    method_strip (dict_get q (py "expected_output_example") (VStr [])) ;;
  Ok [ (py "id", dict_get q (py "id") (VInt i));
       (py "topic", dict_get q (py "topic") (VStr topic));
       (py "difficulty", dict_get q (py "difficulty") (VStr difficulty));
       (py "type", VStr (py "coding"));
       (py "question", question);
       (py "input", input);
       (py "output", output);
       (py "constraints", constraints);
       (py "expected_output_example", example);
       (py "time_limit_seconds",
         dict_get q (py "time_limit_seconds") (VInt 120)) ].

(** [validated["question"] and validated["input"] and
    validated["output"]]. *)
Definition coding_check (validated : dict) : result bool :=
  a <- dict_item validated (py "question") ;;
  if truthy a then
    b <- dict_item validated (py "input") ;;
    if truthy b
    then c <- dict_item validated (py "output") ;; Ok (truthy c)
    else Ok false
  else Ok false.

(** The loop body of [_parse_coding]. *)
Definition coding_step (topic difficulty : str) (q : value) (i : Z)
    (valid_questions : list dict) : result (list dict) :=
  match q with
  | VDict qd =>
      validated <- coding_validated topic difficulty qd i ;;
      keep <- coding_check validated ;;
      Ok (if keep then valid_questions ++ [validated] else valid_questions)
  | _ => Ok valid_questions
  end.

Fixpoint coding_loop (topic difficulty : str) (parsed : list value) (i : Z)
    (valid_questions : list dict) : result (list dict) :=
  match parsed with
  | [] => Ok valid_questions
  | q :: parsed' =>
      valid_questions' <- coding_step topic difficulty q i valid_questions ;;
      coding_loop topic difficulty parsed' (i + 1) valid_questions'
  end.

(** The body of the [try] statement of [_parse_coding]. *)
Definition coding_body `{Interpreter} (topic difficulty cleaned : str)
    (count : Z) : result (option (list dict)) :=
  parsed <- json_loads parser_depth cleaned ;;
  let parsed :=
    match parsed with VDict _ => VList [parsed] | _ => parsed end in
  match parsed with
  | VList l =>
      valid_questions <- coding_loop topic difficulty l 1 [] ;;
      match valid_questions with
      | [] => Ok None
      | _ :: _ => Ok (Some (slice_to count valid_questions))
      end
  | _ => Raise (ValueError (py "Parsed JSON is not a list"))
  end.

(** [QuestionGenerator._parse_coding].  The handler prints the message
    of the exception only. *)
Definition _parse_coding `{Interpreter} (raw_output topic difficulty : str)
    (count : Z) : result (list dict) :=
  let cleaned := _extract_json raw_output in
  returned <- try_except (coding_body topic difficulty cleaned count)
                is_JSONDecodeError_or_ValueError (fun _ => Ok None) ;;
  match returned with
  | Some questions => Ok questions
  | None => Ok (_generate_fallback_coding topic difficulty count)
  end.

(* ================================================================== *)
(** * The completion service and the generation entry points *)
(* ================================================================== *)

(** What [requests.post] does on one call: it returns a response with a
    status code and a body, or raises. *)
Inductive post_outcome : Type :=
| Responded (status_code : Z) (text : str)
| TimedOut
| Unreachable.

(** [QuestionGenerator._call_ollama], as a function of what the service
    does.  [response.json()] decodes the body; [.get] exists on a
    [dict] only.  Both [except] clauses print and re-raise. *)
Definition _call_ollama `{Interpreter} (reply : post_outcome)
  : result value :=
  try_except
    (match reply with
     | Responded status_code text =>
         if negb (status_code =? 200)
         then Raise (Exception_ (py "Ollama returned " ++ str_of_int status_code))
         else
           body <- json_loads response_depth text ;;
           match body with
           | VDict d => Ok (dict_get d (py "response") (VStr []))
           | _ => Raise AttributeError
           end
     | TimedOut => Raise Timeout
     | Unreachable => Raise ConnectionError
     end)
    (fun _ => true)
    (fun e => match e with
              | Timeout => Raise e
              | _ => Raise e
              end).

(** The parsers receive whatever [_call_ollama] returned; [re.sub]
    raises [TypeError] on anything but a [str]. *)
Definition as_text (raw_output : value) : result str :=
  match raw_output with
  | VStr s => Ok s
  | _ => Raise TypeError
  end.

(** The line [generate_*] prints before the request:
    [f"   Topic: {topic}, Difficulty: {difficulty}"]. *)
Definition progress_line (topic difficulty : str) : str :=
  py "   Topic: " ++ topic ++ py ", Difficulty: " ++ difficulty.

(** [QuestionGenerator.generate_mcq]: the list of the returned pair.
    The prompt is built from the three arguments and sent; the reply is
    an argument here, and the elapsed time is left out. *)
Definition generate_mcq `{Interpreter} (reply : post_outcome)
    (topic difficulty : str) (count : Z) : result (list dict) :=
  done <- print (progress_line topic difficulty) ;;
  raw_output <- _call_ollama reply ;;
  text <- as_text raw_output ;;
  _parse_mcq text topic difficulty count.

(** [QuestionGenerator.generate_fillup]. *)
Definition generate_fillup `{Interpreter} (reply : post_outcome)
    (topic difficulty : str) (count : Z) : result (list dict) :=
  done <- print (progress_line topic difficulty) ;;
  raw_output <- _call_ollama reply ;;
  text <- as_text raw_output ;;
  _parse_fillup text topic difficulty count.

(** [QuestionGenerator.generate_coding]. *)
Definition generate_coding `{Interpreter} (reply : post_outcome)
    (topic difficulty : str) (count : Z) : result (list dict) :=
  done <- print (progress_line topic difficulty) ;;
  raw_output <- _call_ollama reply ;;
  text <- as_text raw_output ;;
  _parse_coding text topic difficulty count.

(* ================================================================== *)
(** * Vocabulary of the specification *)
(* ================================================================== *)

(** A field is present and non-empty: the key is in the record and its
    value is true in a condition. *)
Definition field_nonempty (r : dict) (k : str) : bool :=
  match dict_lookup k r with
  | Some v => truthy v
  | None => false
  end.

(** The mandatory fields of each kind (specification, section 4.2). *)
Definition mandatory_fields (k : QuestionType) : list str :=
  match k with
  | MCQ => [py "question"; py "options"]
  | FILLUP => [py "question"; py "correct_word"]
  | CODING => [py "question"; py "input"; py "output"]
  end.

Definition conforms (k : QuestionType) (r : dict) : bool :=
  forallb (field_nonempty r) (mandatory_fields k).

(** The record's [type] is the constant of the kind. *)
Definition has_type (k : QuestionType) (r : dict) : Prop :=
  dict_lookup (py "type") r = Some (VStr (QuestionType_value k)).

(** [correct_answer] is one of the keys of the record's own [options]
    mapping. *)
Definition answer_is_a_label (r : dict) : Prop :=
  exists (answer : str) (options : dict),
    dict_lookup (py "correct_answer") r = Some (VStr answer)
    /\ dict_lookup (py "options") r = Some (VDict options)
    /\ In answer (dict_keys options).

(** A string of one or more characters, all of them whitespace. *)
Definition whitespace_only (s : str) : Prop :=
  s <> [] /\ forallb isspace s = true.

(** Stage A in the words of the specification: fences removed, then the
    first [[...]] from the first opening to the last closing square
    bracket; failing that the first [{...}] likewise; failing that the
    trimmed text. *)
Fixpoint from_first (open : char) (s : str) : option str :=
  match s with
  | [] => None
  | c :: s' => if N.eqb c open then Some s else from_first open s'
  end.

Definition span_of_kind (open close : char) (s : str) : option str :=
  match from_first open s with
  | Some (c :: s') => option_map (cons c) (upto_last close s')
  | _ => None
  end.

Definition spec_extract_json (raw_output : str) : str :=
  let text := re_sub_ws (py "```") (re_sub_ws (py "```json") raw_output) in
  match span_of_kind (ch "[") (ch "]") text with
  | Some span => span
  | None =>
      match span_of_kind (ch "{") (ch "}") text with
      | Some span => span
      | None => strip text
      end
  end.

(** The difficulty default of [time_limit_seconds] in the words of the
    specification. *)
Definition spec_time_limit (difficulty : str) : option Z :=
  if str_eqb difficulty (py "easy") then Some 120
  else if str_eqb difficulty (py "medium") then Some 180
  else if str_eqb difficulty (py "hard") then Some 300
  else None.

(** Stage C in the words of the specification: the elements of the
    parsed array are taken in order with their 1-based position; an
    object is kept, as its canonical record, when the mandatory fields
    of the kind are non-empty in that record; everything else is
    dropped. *)
Fixpoint enumerate (l : list value) (start : Z) : list (Z * value) :=
  match l with
  | [] => []
  | x :: l' => (start, x) :: enumerate l' (start + 1)
  end.

(** What one element contributes. *)
Definition kept_of (k : QuestionType) (canonical : dict -> Z -> dict)
    (iq : Z * value) : list dict :=
  match snd iq with
  | VDict q =>
      let r := canonical q (fst iq) in
      if conforms k r then [r] else []
  | _ => []
  end.

Definition spec_stage_c (k : QuestionType) (canonical : dict -> Z -> dict)
    (parsed : list value) : list dict :=
  flat_map (kept_of k canonical) (enumerate parsed 1).



(** The record [r] has the [correct_answer] of its source [q], and
    ["A"] when the source has none. *)
Definition copies_answer (q r : dict) : Prop :=
  dict_lookup (py "correct_answer") r
  = Some match dict_lookup (py "correct_answer") q with
         | Some answer => answer
         | None => VStr (py "A")
         end.

(** The five fields of a coding element on which [_parse_coding] calls
    [.strip()]. *)
Definition coding_text_fields : list str :=
  [ py "question"; py "input"; py "output"; py "constraints";
    py "expected_output_example" ].

(** Each of them is a [str] when the element has it. *)
Definition text_fields_are_str (q : dict) : Prop :=
  forall k v, In k coding_text_fields -> dict_lookup k q = Some v ->
              exists s, v = VStr s.

(** The canonical coding record of an element whose text fields are
    strings: the trimmed fields, the other fields as in the source. *)
Definition stripped (v : value) : value :=
  match v with
  | VStr s => VStr (strip s)
  | _ => v
  end.

Definition coding_canonical (topic difficulty : str) (q : dict) (i : Z)
  : dict :=
  [ (py "id", dict_get q (py "id") (VInt i));
    (py "topic", dict_get q (py "topic") (VStr topic));
    (py "difficulty", dict_get q (py "difficulty") (VStr difficulty));
    (py "type", VStr (py "coding"));
    (py "question", stripped (dict_get q (py "question") (VStr [])));
    (py "input", stripped (dict_get q (py "input") (VStr [])));
    (py "output", stripped (dict_get q (py "output") (VStr [])));
    (py "constraints", stripped (dict_get q (py "constraints") (VStr [])));
    (py "expected_output_example",
      stripped (dict_get q (py "expected_output_example") (VStr [])));
    (py "time_limit_seconds",
      dict_get q (py "time_limit_seconds") (VInt 120)) ].

(** An element of the parsed array that is no object, or an object
    whose text fields are strings. *)
Definition well_typed_element (v : value) : Prop :=
  match v with
  | VDict q => text_fields_are_str q
  | _ => True
  end.

(** An opening and a closing bracket of the same kind. *)
Definition bracket_pair (o c : char) : Prop :=
  (o = ch "[" /\ c = ch "]") \/ (o = ch "{" /\ c = ch "}").

(** The text [s] begins with an opening bracket that has a closing
    bracket of its kind somewhere after it. *)
Definition closes_after (s : str) : Prop :=
  match s with
  | [] => False
  | o :: rest => exists c, bracket_pair o c /\ In c rest
  end.

(** No position inside [pre] begins such a span in [pre ++ rest]. *)
Definition no_span_starts_in (pre rest : str) : Prop :=
  forall p1 b p2, pre = p1 ++ b :: p2 -> ~ closes_after (b :: p2 ++ rest).

(** What [json.loads] can raise: its own exception on a malformed
    text, and the two of the interpreter. *)
Definition decoder_error (e : exn) : Prop :=
  e = JSONDecodeError
  \/ e = RecursionError
  \/ exists digits, (max_str_digits < digits)%nat
                    /\ e = ValueError (int_limit_message digits).

(** The per-call failures of the completion service, a status other
    than 200 and a timeout, with the exception each one surfaces as. *)
Definition per_call_failure (reply : post_outcome) : option exn :=
  match reply with
  | Responded status_code _ =>
      if status_code =? 200 then None
      else Some (Exception_ (py "Ollama returned "
                             ++ str_of_int status_code))
  | TimedOut => Some Timeout
  | Unreachable => None
  end.

(* ================================================================== *)
(** * The connection probe and the constructor *)
(* ================================================================== *)

Definition is_ConnectionError (e : exn) : bool :=
  match e with ConnectionError => true | _ => false end.

(** [QuestionGenerator.test_connection], as a function of what
    [requests.get] does.  A status other than 200 falls off the end of
    the function, which returns [None]. *)
Definition test_connection (probe : post_outcome) : result value :=
  try_except
    (match probe with
     | Responded status_code _ =>
         if status_code =? 200 then Ok (VBool true) else Ok VNone
     | TimedOut => Raise Timeout
     | Unreachable => Raise ConnectionError
     end)
    is_ConnectionError
    (fun e => Raise e).

(** The attributes of a [QuestionGenerator]. *)
Record QuestionGenerator : Type := {
  ollama_url : str;
  model : str;
  temperature : pyfloat
}.

(** [QuestionGenerator.__init__]: the result of [test_connection] is
    not looked at. *)
Definition __init__ (url : str) (probe : post_outcome)
  : result QuestionGenerator :=
  let self := {| ollama_url := url;
                 model := py "gemma3:4b";
                 temperature := FDec 3 (-1) |} in
  tested <- test_connection probe ;;
  Ok self.

(** The default of the [ollama_url] parameter. *)
Definition default_ollama_url : str := py "http://localhost:11434".

(* ================================================================== *)
(** * The benchmark: quality scores and the iteration loops *)
(* ================================================================== *)

(** [v.values()]: only a [dict] has the method. *)
Definition method_values (v : value) : result (list value) :=
  match v with
  | VDict d => Ok (List.map snd d)
  | _ => Raise AttributeError
  end.

(** [all(l)]. *)
Definition py_all (l : list value) : bool := forallb truthy l.

(** [(quality_count / len(questions)) * 100].  Python computes it in
    binary64; the model keeps the exact rational, of which the float is
    the rounding (0 and 100 are exact). *)
Definition percentage (quality_count : Z) (questions : list dict) : Q :=
  ((inject_Z quality_count / inject_Z (Z.of_nat (length questions)))
   * 100)%Q.

(** The loop body of [_score_mcq_quality]. *)
Definition mcq_quality_step (q : dict) (quality_count : Z) : result Z :=
  let has_question := truthy (dict_get q (py "question") VNone) in
  values <- method_values (dict_get q (py "options") (VDict [])) ;;
  let has_options := py_all values in
  let has_answer := truthy (dict_get q (py "correct_answer") VNone) in
  Ok (if has_question && has_options && has_answer
      then quality_count + 1 else quality_count).

Fixpoint mcq_quality_loop (questions : list dict) (quality_count : Z)
  : result Z :=
  match questions with
  | [] => Ok quality_count
  | q :: questions' =>
      quality_count' <- mcq_quality_step q quality_count ;;
      mcq_quality_loop questions' quality_count'
  end.

(** [QuestionBenchmark._score_mcq_quality]. *)
Definition _score_mcq_quality (questions : list dict) : result Q :=
  match questions with
  | [] => Ok 0%Q
  | _ :: _ =>
      quality_count <- mcq_quality_loop questions 0 ;;
      Ok (percentage quality_count questions)
  end.

(** The loop body of [_score_fillup_quality]. *)
Definition fillup_quality_step (q : dict) (quality_count : Z) : Z :=
  let has_question := truthy (dict_get q (py "question") VNone) in
  let has_answer := truthy (dict_get q (py "correct_word") VNone) in
  let has_hint := truthy (dict_get q (py "hint") VNone) in
  if has_question && has_answer && has_hint
  then quality_count + 1 else quality_count.

(** [QuestionBenchmark._score_fillup_quality]. *)
Definition _score_fillup_quality (questions : list dict) : Q :=
  match questions with
  | [] => 0%Q
  | _ :: _ =>
      let quality_count :=
        fold_left (fun n q => fillup_quality_step q n) questions 0 in
      percentage quality_count questions
  end.

(** The loop body of [_score_coding_quality]. *)
Definition coding_quality_step (q : dict) (quality_count : Z) : Z :=
  let has_question := truthy (dict_get q (py "question") VNone) in
  let has_input := truthy (dict_get q (py "input") VNone) in
  let has_output := truthy (dict_get q (py "output") VNone) in
  let has_constraints := truthy (dict_get q (py "constraints") VNone) in
  let has_example :=
    truthy (dict_get q (py "expected_output_example") VNone) in
  if has_question && has_input && has_output && has_constraints
     && has_example
  then quality_count + 1 else quality_count.

(** [QuestionBenchmark._score_coding_quality]. *)
Definition _score_coding_quality (questions : list dict) : Q :=
  match questions with
  | [] => 0%Q
  | _ :: _ =>
      let quality_count :=
        fold_left (fun n q => coding_quality_step q n) questions 0 in
      percentage quality_count questions
  end.

(** What the [for] loop of a [benchmark_*] method has built: the two
    local lists and the list of [self.results] it extends.  [T] is the
    type of the elapsed times. *)
Record loop_state (T : Type) : Type := {
  times : list T;
  quality_scores : list Q;
  collected : list dict
}.
Arguments times {T} _.
Arguments quality_scores {T} _.
Arguments collected {T} _.

(** One turn of the loop of [benchmark_mcq]: [call] is what the service
    did on this iteration's request and the time the generation took.
    [except Exception] ends the turn at the statement that raised. *)
Definition benchmark_mcq_iteration `{Interpreter} {T}
    (topic difficulty : str) (count : Z)
    (call : post_outcome * T) (st : loop_state T) : loop_state T :=
  match generate_mcq (fst call) topic difficulty count with
  | Raise _ => st
  | Ok questions =>
      let times' := times st ++ [snd call] in
      match _score_mcq_quality questions with
      | Raise _ =>
          {| times := times';
             quality_scores := quality_scores st;
             collected := collected st |}
      | Ok quality =>
          {| times := times';
             quality_scores := quality_scores st ++ [quality];
             collected := collected st ++ questions |}
      end
  end.

(** One turn of the loop of [benchmark_fillup]. *)
Definition benchmark_fillup_iteration `{Interpreter} {T}
    (topic difficulty : str) (count : Z) (call : post_outcome * T)
    (st : loop_state T) : loop_state T :=
  match generate_fillup (fst call) topic difficulty count with
  | Raise _ => st
  | Ok questions =>
      {| times := times st ++ [snd call];
         quality_scores :=
           quality_scores st ++ [_score_fillup_quality questions];
         collected := collected st ++ questions |}
  end.

(** One turn of the loop of [benchmark_coding]. *)
Definition benchmark_coding_iteration `{Interpreter} {T}
    (topic difficulty : str) (count : Z) (call : post_outcome * T)
    (st : loop_state T) : loop_state T :=
  match generate_coding (fst call) topic difficulty count with
  | Raise _ => st
  | Ok questions =>
      {| times := times st ++ [snd call];
         quality_scores :=
           quality_scores st ++ [_score_coding_quality questions];
         collected := collected st ++ questions |}
  end.

(** The loops, over the calls of the successive iterations; [results]
    is [self.results[kind]] when the method is entered. *)
Definition benchmark_loop {T}
    (iteration : post_outcome * T -> loop_state T -> loop_state T)
    (calls : list (post_outcome * T)) (results : list dict)
  : loop_state T :=
  fold_left (fun st call => iteration call st) calls
    {| times := []; quality_scores := []; collected := results |}.

Definition benchmark_mcq_loop `{Interpreter} {T}
    (topic difficulty : str) (count : Z) :=
  benchmark_loop (T := T) (benchmark_mcq_iteration topic difficulty count).

Definition benchmark_fillup_loop `{Interpreter} {T}
    (topic difficulty : str) (count : Z) :=
  benchmark_loop (T := T)
    (benchmark_fillup_iteration topic difficulty count).

Definition benchmark_coding_loop `{Interpreter} {T}
    (topic difficulty : str) (count : Z) :=
  benchmark_loop (T := T)
    (benchmark_coding_iteration topic difficulty count).

(* ================================================================== *)
(** * The test script *)
(* ================================================================== *)

(** How a test function ends: it returns, an exception of the program
    reaches it, or one of its [assert] statements fails. *)
Inductive test_outcome : Type :=
| Passed
| Errored (e : exn)
| AssertionFailed.

Definition test_bind {A} (c : result A) (k : A -> test_outcome)
  : test_outcome :=
  match c with
  | Ok a => k a
  | Raise e => Errored e
  end.

(** [v[k]] for a string [k]: a mapping looks the key up, a list wants an
    integer, nothing else can be subscripted. *)
Definition subscript_str (v : value) (k : str) : result value :=
  match v with
  | VDict d => dict_item d k
  | _ => Raise TypeError
  end.

Fixpoint for_each (body : value -> result unit) (l : list value)
  : result unit :=
  match l with
  | [] => Ok tt
  | x :: l' => done <- body x ;; for_each body l'
  end.

(** The expressions printed for each [q] in [test_mcq_generation]. *)
Definition test_mcq_body (q : value) : result unit :=
  id <- subscript_str q (py "id") ;;
  question <- subscript_str q (py "question") ;;
  options <- subscript_str q (py "options") ;;
  values <- method_values options ;;
  answer <- subscript_str q (py "correct_answer") ;;
  Ok tt.

(** Those of [test_fillup_generation]. *)
Definition test_fillup_body (q : value) : result unit :=
  id <- subscript_str q (py "id") ;;
  question <- subscript_str q (py "question") ;;
  answer <- subscript_str q (py "correct_word") ;;
  hint <- subscript_str q (py "hint") ;;
  Ok tt.

(** Those of [test_coding_generation]. *)
Definition test_coding_body (q : value) : result unit :=
  id <- subscript_str q (py "id") ;;
  question <- subscript_str q (py "question") ;;
  function_name <- subscript_str q (py "function_name") ;;
  test_input <- subscript_str q (py "test_input") ;;
  expected <- subscript_str q (py "expected_output") ;;
  Ok tt.

(** [all(q['type'] == kind for q in questions)]: the generator is
    consumed up to the first false comparison. *)
Fixpoint all_have_type (kind : str) (l : list value) : result bool :=
  match l with
  | [] => Ok true
  | q :: l' =>
      t <- subscript_str q (py "type") ;;
      match t with
      | VStr s => if str_eqb s kind then all_have_type kind l' else Ok false
      | _ => Ok false
      end
  end.

(** The common shape of the three generation tests.  [generate_*]
    returns the pair of the questions and the elapsed time, which the
    test binds to [questions] as a whole. *)
Definition generation_test
    (generate : post_outcome -> result (list dict))
    (body : value -> result unit) (kind : str)
    (probe reply : post_outcome) (elapsed : value) : test_outcome :=
  test_bind (__init__ default_ollama_url probe) (fun gen =>
  test_bind (generate reply) (fun generated =>
  let questions := [VList (List.map VDict generated); elapsed] in
  test_bind (for_each body questions) (fun done =>
  if (0 <? Z.of_nat (length questions)) then
    test_bind (all_have_type kind questions) (fun ok =>
    if ok then Passed else AssertionFailed)
  else AssertionFailed))).

(** [test_mcq_generation]. *)
Definition test_mcq_generation `{Interpreter}
  : post_outcome -> post_outcome -> value -> test_outcome :=
  generation_test
    (fun reply => generate_mcq reply (py "Python Basics") (py "easy") 3)
    test_mcq_body (py "mcq").

(** [test_fillup_generation]. *)
Definition test_fillup_generation `{Interpreter}
  : post_outcome -> post_outcome -> value -> test_outcome :=
  generation_test
    (fun reply => generate_fillup reply (py "SQL") (py "medium") 2)
    test_fillup_body (py "fillup").

(** [test_coding_generation]. *)
Definition test_coding_generation `{Interpreter}
  : post_outcome -> post_outcome -> value -> test_outcome :=
  generation_test
    (fun reply =>
       generate_coding reply (py "Python Algorithms") (py "medium") 2)
    test_coding_body (py "coding").

(* ================================================================== *)
(** * Further vocabulary *)
(* ================================================================== *)

(** [sub] occurs in [s]. *)
Definition occurs_in (sub s : str) : Prop :=
  exists p q, s = p ++ sub ++ q.

(** The [id] and the [question] of a record. *)
Definition record_id (r : dict) : option value := dict_lookup (py "id") r.

Definition record_question (r : dict) : option value :=
  dict_lookup (py "question") r.

(** Whether the generation call of a benchmark iteration returned, and
    the questions it returned. *)
Definition call_returned {T} (generate : post_outcome -> result (list dict))
    (call : post_outcome * T) : bool :=
  match generate (fst call) with
  | Ok _ => true
  | Raise _ => false
  end.

Definition call_added {T} (generate : post_outcome -> result (list dict))
    (call : post_outcome * T) : list dict :=
  match generate (fst call) with
  | Ok questions => questions
  | Raise _ => []
  end.

(** The questions, when their MCQ score can be computed. *)
Definition scored (questions : list dict) : list dict :=
  match _score_mcq_quality questions with
  | Ok _ => questions
  | Raise _ => []
  end.

(** The records of a batch are numbered 1, 2, ... in order. *)
Definition numbered_from_one (l : list dict) : Prop :=
  forall k r, nth_error l k = Some r ->
              record_id r = Some (VInt (Z.of_nat k + 1)).

(** No two records of a batch have the same question. *)
Definition distinct_questions (l : list dict) : Prop :=
  forall k1 k2 r1 r2,
    nth_error l k1 = Some r1 -> nth_error l k2 = Some r2 ->
    record_question r1 = record_question r2 -> k1 = k2.

(** A string without leading or trailing whitespace. *)
Definition trimmed (s : str) : Prop :=
  match s with
  | [] => True
  | c :: _ => isspace c = false /\ isspace (last s c) = false
  end.

(* ================================================================== *)
(** * Facts about the string and regular-expression models *)
(* ================================================================== *)

Lemma lstrip_length (s : str) : (length (lstrip s) <= length s)%nat.
Proof.
  induction s as [|c s IH]; simpl; [lia|].
  destruct (isspace c); simpl; lia.
Qed.

Lemma lstrip_skipn_length (k : nat) (c : char) (s : str) :
  (length (lstrip (skipn (S k) (c :: s))) <= length s)%nat.
Proof.
  etransitivity; [apply lstrip_length|].
  simpl. rewrite length_skipn. lia.
Qed.

(** Any fuel not below the length of the text gives the same result. *)
Lemma re_sub_ws_fuel_stable (lit : str) :
  lit <> [] ->
  forall n m s, (length s <= n)%nat -> (length s <= m)%nat ->
    re_sub_ws_fuel n lit s = re_sub_ws_fuel m lit s.
Proof.
  intros Hlit. destruct lit as [|l0 lit]; [congruence|]. clear Hlit.
  induction n as [|n IH]; intros m s Hn Hm.
  - destruct s; [|simpl in Hn; lia]. destruct m; reflexivity.
  - destruct m as [|m].
    + destruct s; [reflexivity|simpl in Hm; lia].
    + destruct s as [|c s]; [reflexivity|].
      cbn [re_sub_ws_fuel]. simpl in Hn, Hm.
      destruct (starts_with (l0 :: lit) (c :: s)).
      * apply IH.
        -- pose proof (lstrip_skipn_length (length lit) c s). simpl in *. lia.
        -- pose proof (lstrip_skipn_length (length lit) c s). simpl in *. lia.
      * f_equal. apply IH; lia.
Qed.

Lemma re_sub_ws_nil (lit : str) : re_sub_ws lit [] = [].
Proof. reflexivity. Qed.

(** At an occurrence of the literal, the literal and the whitespace
    after it are skipped. *)
Lemma re_sub_ws_cons_hit (lit : str) (c : char) (s : str) :
  lit <> [] -> starts_with lit (c :: s) = true ->
  re_sub_ws lit (c :: s)
  = re_sub_ws lit (lstrip (skipn (length lit) (c :: s))).
Proof.
  intros Hlit Hs. unfold re_sub_ws at 1. cbn [length re_sub_ws_fuel].
  rewrite Hs. unfold re_sub_ws.
  apply re_sub_ws_fuel_stable; trivial.
  destruct lit as [|l0 lit]; [congruence|].
  apply (lstrip_skipn_length (length lit) c s).
Qed.

(** Elsewhere the character is kept. *)
Lemma re_sub_ws_cons_miss (lit : str) (c : char) (s : str) :
  starts_with lit (c :: s) = false ->
  re_sub_ws lit (c :: s) = c :: re_sub_ws lit s.
Proof.
  intros Hs. unfold re_sub_ws. cbn [length re_sub_ws_fuel].
  rewrite Hs. reflexivity.
Qed.

Lemma upto_last_none (c : char) (s : str) :
  upto_last c s = None <-> ~ In c s.
Proof.
  induction s as [|x s IH]; simpl.
  - tauto.
  - destruct (upto_last c s) as [m|].
    + split; [discriminate|]. intros H. exfalso.
      assert (Hin : ~ In c s) by tauto.
      apply IH in Hin. discriminate.
    + destruct (N.eqb_spec x c) as [->|Hne].
      * split; [discriminate|]. tauto.
      * split; [|reflexivity]. intros _ [H|H]; [congruence|].
        now apply (proj1 IH).
Qed.

(** [upto_last] returns the text up to the last occurrence. *)
Lemma upto_last_some (c : char) (s m : str) :
  upto_last c s = Some m ->
  exists mid post, m = mid ++ [c] /\ s = m ++ post /\ ~ In c post.
Proof.
  revert m. induction s as [|x s IH]; simpl; intros m H; [discriminate|].
  destruct (upto_last c s) as [m'|] eqn:E.
  - injection H as <-. destruct (IH m' eq_refl) as (mid & post & -> & -> & Hp).
    exists (x :: mid), post. repeat split; trivial.
  - destruct (N.eqb_spec x c) as [->|Hne]; [|discriminate].
    injection H as <-. exists [], s. repeat split.
    now apply upto_last_none.
Qed.

Lemma match_bracketed_here_some (s m : str) :
  match_bracketed_here s = Some m ->
  exists o mid c post,
    m = o :: mid ++ [c] /\ s = m ++ post /\ bracket_pair o c
    /\ ~ In c post.
Proof.
  destruct s as [|x s]; cbn [match_bracketed_here]; [discriminate|].
  destruct (N.eqb_spec x (ch "[")) as [->|H1].
  - destruct (upto_last (ch "]") s) as [m'|] eqn:E; simpl; [|discriminate].
    intros [= <-]. destruct (upto_last_some _ _ _ E) as (mid & post & -> & -> & Hp).
    exists (ch "["), mid, (ch "]"), post. repeat split; trivial.
    left; split; reflexivity.
  - destruct (N.eqb_spec x (ch "{")) as [->|H2]; [|discriminate].
    destruct (upto_last (ch "}") s) as [m'|] eqn:E; simpl; [|discriminate].
    intros [= <-]. destruct (upto_last_some _ _ _ E) as (mid & post & -> & -> & Hp).
    exists (ch "{"), mid, (ch "}"), post. repeat split; trivial.
    right; split; reflexivity.
Qed.

Lemma match_bracketed_here_none (s : str) :
  match_bracketed_here s = None -> ~ closes_after s.
Proof.
  destruct s as [|x s]; cbn [match_bracketed_here closes_after]; [tauto|].
  intros H (c & [[-> ->]|[-> ->]] & Hin).
  - change (N.eqb (ch "[") (ch "[")) with true in H.
    destruct (upto_last (ch "]") s) eqn:E; [discriminate|].
    now apply upto_last_none in E.
  - change (N.eqb (ch "{") (ch "[")) with false in H.
    change (N.eqb (ch "{") (ch "{")) with true in H.
    destruct (upto_last (ch "}") s) eqn:E; [discriminate|].
    now apply upto_last_none in E.
Qed.

(** The search returns the span at the leftmost position where one
    starts. *)
Lemma re_search_bracketed_some (s m : str) :
  re_search_bracketed s = Some m ->
  exists pre o mid c post,
    s = pre ++ m ++ post /\ m = o :: mid ++ [c] /\ bracket_pair o c
    /\ ~ In c post /\ no_span_starts_in pre (m ++ post).
Proof.
  induction s as [|x s IH]; [discriminate|].
  cbn [re_search_bracketed].
  destruct (match_bracketed_here (x :: s)) as [m'|] eqn:E.
  - intros [= ->].
    destruct (match_bracketed_here_some _ _ E)
      as (o & mid & c & post & Hm & Hs & Hb & Hp).
    exists [], o, mid, c, post. repeat split; trivial.
    intros p1 b p2 H. destruct p1; discriminate.
  - intros H. destruct (IH H) as (pre & o & mid & c & post & Hs & Hm & Hb & Hp & Hno).
    exists (x :: pre), o, mid, c, post. repeat split; trivial.
    + simpl. now rewrite Hs.
    + intros p1 b p2 Hpre. destruct p1 as [|y p1]; simpl in Hpre.
      * injection Hpre as <- <-. rewrite <- Hs.
        now apply match_bracketed_here_none.
      * injection Hpre as _ ->. now apply (Hno p1 b p2).
Qed.

(** It fails only when no position starts a span. *)
Lemma re_search_bracketed_none (s : str) :
  re_search_bracketed s = None -> no_span_starts_in s [].
Proof.
  induction s as [|x s IH]; intros H p1 b p2 Hs.
  - destruct p1; discriminate.
  - cbn [re_search_bracketed] in H.
    destruct (match_bracketed_here (x :: s)) eqn:E; [discriminate|].
    destruct p1 as [|y p1]; simpl in Hs.
    + injection Hs as <- <-. rewrite app_nil_r.
      now apply match_bracketed_here_none.
    + injection Hs as _ ->. now apply (IH H p1 b p2).
Qed.

(* ================================================================== *)
(** * Facts about the decoder: the fuel of [json_loads] is enough *)
(* ================================================================== *)

Lemma skip_ws_length (s : str) : (length (skip_ws s) <= length s)%nat.
Proof.
  induction s as [|c s IH]; simpl; [lia|].
  destruct (is_ws c); simpl; lia.
Qed.

Lemma skip_ws_cons (s : str) (c : char) (r : str) :
  skip_ws s = c :: r -> (length r < length s)%nat.
Proof.
  intros H. pose proof (skip_ws_length s) as L. rewrite H in L.
  simpl in L. lia.
Qed.

Lemma push_ok (c : char) (r : result (str * str)) (t rest : str) :
  push c r = Ok (t, rest) -> exists t', r = Ok (t', rest).
Proof.
  destruct r as [[t' rest']|e]; simpl; [|discriminate].
  intros [= <- <-]. now exists t'.
Qed.

(** A string literal ends with its closing quote, so [scanstring]
    consumes at least one character. *)
Lemma scanstring_shorter (n : nat) :
  forall s t rest, (length s <= n)%nat ->
    scanstring s = Ok (t, rest) -> (length rest < length s)%nat.
Proof.
  induction n as [|n IH]; intros s t rest Hn H.
  - destruct s; [discriminate|simpl in Hn; lia].
  - destruct s as [|c s1]; [discriminate|].
    cbn [scanstring] in H. simpl in Hn.
    repeat match type of H with
           | context [if ?b then _ else _] => destruct b
           | context [match ?x with _ => _ end] => destruct x
           end;
      try discriminate;
      try (injection H as <- <-; simpl; lia);
      apply push_ok in H as [t' H]; apply IH in H; simpl in *; lia.
Qed.

Lemma span_digits_length (s : str) :
  (length (snd (span_digits s)) <= length s)%nat.
Proof.
  induction s as [|c s IH]; simpl; [lia|].
  destruct (is_digit c); simpl; [|lia].
  destruct (span_digits s); simpl in *; lia.
Qed.

Lemma span_digits_eq (s ds rest : str) :
  span_digits s = (ds, rest) -> (length rest <= length s)%nat.
Proof.
  intros H. pose proof (span_digits_length s) as L. now rewrite H in L.
Qed.

(** A number has at least one digit. *)
Lemma match_number_shorter (s : str) (v : value) (rest : str) :
  match_number s = Some (Ok (v, rest)) -> (length rest < length s)%nat.
Proof.
  unfold match_number, int_of_literal. intros H.
  repeat (cbv beta iota in H; cbn [bind] in H;
          match type of H with
          | context [span_digits ?x] =>
              let E := fresh "E" in
              destruct (span_digits x) eqn:E; apply span_digits_eq in E
          | context [if ?b then _ else _] => destruct b
          | context [match ?x with _ => _ end] => is_var x; destruct x
          end);
    try discriminate;
    injection H as <- <-; simpl in *; lia.
Qed.

(** Every successful scan consumes at least one character. *)
Lemma scan_once_shorter (fuel : nat) :
  (forall depth s v r, scan_once fuel depth s = Some (Ok (v, r)) ->
                       (length r < length s)%nat)
  /\ (forall depth s acc v r,
         array_loop fuel depth s acc = Some (Ok (v, r)) ->
         (length r < length s)%nat)
  /\ (forall depth s acc v r,
         object_loop fuel depth s acc = Some (Ok (v, r)) ->
         (length r < length s)%nat).
Proof.
  induction fuel as [|fuel (IHs & IHa & IHo)];
    [repeat split; intros; discriminate|].
  repeat split.
  - intros depth s v r H. cbn [scan_once] in H.
    destruct s as [|c s']; [discriminate|].
    destruct (N.eqb c quote).
    { destruct (scanstring s') as [[t rest]|e] eqn:E; [|discriminate].
      injection H as <- <-.
      apply (scanstring_shorter _ _ _ _ (le_n _)) in E. simpl. lia. }
    destruct (N.eqb c (ch "{")).
    { destruct depth as [|depth']; [discriminate|].
      destruct (skip_ws s') as [|c1 s1] eqn:E; [discriminate|].
      apply skip_ws_cons in E.
      destruct (N.eqb c1 (ch "}")); [injection H as <- <-; simpl; lia|].
      destruct (N.eqb c1 quote); [|discriminate].
      apply IHo in H. simpl. lia. }
    destruct (N.eqb c (ch "[")).
    { destruct depth as [|depth']; [discriminate|].
      destruct (skip_ws s') as [|c1 s1] eqn:E; [discriminate|].
      pose proof (skip_ws_length s') as L. rewrite E in L.
      destruct (N.eqb c1 (ch "]")); [injection H as <- <-; simpl in *; lia|].
      apply IHa in H. simpl in *. lia. }
    assert (K : forall k, (length (skipn (S k) (c :: s')) < length (c :: s'))%nat)
      by (intros k; rewrite length_skipn; simpl; lia).
    repeat match type of H with
           | context [if ?b then _ else _] => destruct b
           | context [match_number ?x] =>
               let E := fresh "E" in
               destruct (match_number x) as [[[? ?]|?]|] eqn:E;
               [apply match_number_shorter in E| |]
           end;
      try discriminate;
      injection H as <- <-; trivial;
      first [exact (K 2%nat) | exact (K 3%nat) | exact (K 4%nat)
            | exact (K 7%nat) | exact (K 8%nat)].
  - intros depth s acc v r H. cbn [array_loop] in H.
    destruct (scan_once fuel depth s) as [[[v1 rest]|e]|] eqn:E;
      try discriminate.
    apply IHs in E.
    destruct (skip_ws rest) as [|c r1] eqn:E1; [discriminate|].
    apply skip_ws_cons in E1.
    destruct (N.eqb c (ch "]")); [injection H as <- <-; lia|].
    destruct (N.eqb c (ch ",")); [|discriminate].
    apply IHa in H. pose proof (skip_ws_length r1). lia.
  - intros depth s acc v r H. cbn [object_loop] in H.
    destruct (scanstring s) as [[key s1]|e] eqn:E; [|discriminate].
    apply (scanstring_shorter _ _ _ _ (le_n _)) in E.
    destruct (skip_ws s1) as [|colon s2] eqn:E1; [discriminate|].
    apply skip_ws_cons in E1.
    destruct (N.eqb colon (ch ":")); [|discriminate].
    destruct (scan_once fuel depth (skip_ws s2)) as [[[v1 rest]|e]|] eqn:E2;
      try discriminate.
    apply IHs in E2. pose proof (skip_ws_length s2).
    destruct (skip_ws rest) as [|c r1] eqn:E3; [discriminate|].
    apply skip_ws_cons in E3.
    destruct (N.eqb c (ch "}")); [injection H as <- <-; lia|].
    destruct (N.eqb c (ch ",")); [|discriminate].
    destruct (skip_ws r1) as [|q r2] eqn:E4; [discriminate|].
    apply skip_ws_cons in E4.
    destruct (N.eqb q quote); [|discriminate].
    apply IHo in H. lia.
Qed.

(** Two units of fuel per character are enough, whatever the depth. *)
Lemma scan_once_fuel (fuel : nat) :
  (forall depth s, (2 * length s + 1 <= fuel)%nat ->
                   scan_once fuel depth s <> None)
  /\ (forall depth s acc, (2 * length s + 2 <= fuel)%nat ->
                          array_loop fuel depth s acc <> None)
  /\ (forall depth s acc, (2 * length s + 2 <= fuel)%nat ->
                          object_loop fuel depth s acc <> None).
Proof.
  induction fuel as [|fuel (IHs & IHa & IHo)];
    [repeat split; intros; lia|].
  repeat split.
  - intros depth s Hf. cbn [scan_once].
    destruct s as [|c s']; [discriminate|]. simpl in Hf.
    destruct (N.eqb c quote); [discriminate|].
    destruct (N.eqb c (ch "{")).
    { destruct depth as [|depth']; [discriminate|].
      destruct (skip_ws s') as [|c1 s1] eqn:E; [discriminate|].
      apply skip_ws_cons in E.
      destruct (N.eqb c1 (ch "}")); [discriminate|].
      destruct (N.eqb c1 quote); [|discriminate].
      apply IHo. lia. }
    destruct (N.eqb c (ch "[")).
    { destruct depth as [|depth']; [discriminate|].
      destruct (skip_ws s') as [|c1 s1] eqn:E; [discriminate|].
      pose proof (skip_ws_length s') as L. rewrite E in L.
      destruct (N.eqb c1 (ch "]")); [discriminate|].
      apply IHa. simpl in *. lia. }
    repeat match goal with
           | |- context [if ?b then _ else _] => destruct b
           | |- context [match_number ?x] => destruct (match_number x)
           end; discriminate.
  - intros depth s acc Hf. cbn [array_loop].
    destruct (scan_once fuel depth s) as [[[v1 rest]|e]|] eqn:E;
      [| discriminate | exfalso; revert E; apply IHs; lia].
    apply (proj1 (scan_once_shorter fuel)) in E.
    destruct (skip_ws rest) as [|c r1] eqn:E1; [discriminate|].
    apply skip_ws_cons in E1.
    destruct (N.eqb c (ch "]")); [discriminate|].
    destruct (N.eqb c (ch ",")); [|discriminate].
    apply IHa. pose proof (skip_ws_length r1). lia.
  - intros depth s acc Hf. cbn [object_loop].
    destruct (scanstring s) as [[key s1]|e] eqn:E; [|discriminate].
    apply (scanstring_shorter _ _ _ _ (le_n _)) in E.
    destruct (skip_ws s1) as [|colon s2] eqn:E1; [discriminate|].
    apply skip_ws_cons in E1.
    destruct (N.eqb colon (ch ":")); [|discriminate].
    pose proof (skip_ws_length s2).
    destruct (scan_once fuel depth (skip_ws s2)) as [[[v1 rest]|e]|] eqn:E2;
      [| discriminate | exfalso; revert E2; apply IHs; lia].
    apply (proj1 (scan_once_shorter fuel)) in E2.
    destruct (skip_ws rest) as [|c r1] eqn:E3; [discriminate|].
    apply skip_ws_cons in E3.
    destruct (N.eqb c (ch "}")); [discriminate|].
    destruct (N.eqb c (ch ",")); [|discriminate].
    destruct (skip_ws r1) as [|q r2] eqn:E4; [discriminate|].
    apply skip_ws_cons in E4.
    destruct (N.eqb q quote); [|discriminate].
    apply IHo. lia.
Qed.

(** [json_loads] is therefore the decoder itself: its result is that of
    a scan which did not run out of fuel. *)
Lemma json_loads_scan (depth : nat) (s : str) :
  starts_with [65279%N] s = false ->
  exists r, scan_once (2 * length (skip_ws s) + 1) depth (skip_ws s) = Some r
            /\ json_loads depth s
               = match r with
                 | Ok (obj, rest) =>
                     match skip_ws rest with
                     | [] => Ok obj
                     | _ :: _ => Raise JSONDecodeError
                     end
                 | Raise e => Raise e
                 end.
Proof.
  intros Hb. unfold json_loads. rewrite Hb.
  destruct (scan_once (2 * length (skip_ws s) + 1) depth (skip_ws s))
    as [r|] eqn:E.
  - exists r. split; reflexivity.
  - exfalso. revert E. apply (proj1 (scan_once_fuel _)). lia.
Qed.

(* ================================================================== *)
(** * Facts about Stage C *)
(* ================================================================== *)

Lemma mcq_check_validated (t d : str) (q : dict) (i : Z) :
  mcq_check (mcq_validated t d q i)
  = Ok (conforms MCQ (mcq_validated t d q i)).
Proof.
  unfold mcq_check, conforms, field_nonempty. cbn.
  repeat match goal with
         | |- context [truthy ?v] => destruct (truthy v)
         end; reflexivity.
Qed.

Lemma fillup_check_validated (t d : str) (q : dict) (i : Z) :
  fillup_check (fillup_validated t d q i)
  = Ok (conforms FILLUP (fillup_validated t d q i)).
Proof.
  unfold fillup_check, conforms, field_nonempty. cbn.
  repeat match goal with
         | |- context [truthy ?v] => destruct (truthy v)
         end; reflexivity.
Qed.

Lemma coding_check_validated (t d : str) (q : dict) (i : Z) (r : dict) :
  coding_validated t d q i = Ok r ->
  coding_check r = Ok (conforms CODING r).
Proof.
  unfold coding_validated, bind.
  repeat match goal with
         | |- context [method_strip ?v] => destruct (method_strip v)
         end; try discriminate.
  intros [= <-]. unfold coding_check, conforms, field_nonempty. cbn.
  repeat match goal with
         | |- context [truthy ?v] => destruct (truthy v)
         end; reflexivity.
Qed.

(** The only exception [coding_validated] can raise. *)
Lemma coding_validated_raises (t d : str) (q : dict) (i : Z) (e : exn) :
  coding_validated t d q i = Raise e -> e = AttributeError.
Proof.
  unfold coding_validated, bind.
  repeat match goal with
         | |- context [method_strip ?v] =>
             destruct v; cbn [method_strip]; try congruence
         end.
Qed.

Lemma mcq_step_spec (t d : str) (v : value) (i : Z) (acc : list dict) :
  mcq_step t d v i acc = Ok (acc ++ kept_of MCQ (mcq_validated t d) (i, v)).
Proof.
  unfold mcq_step, kept_of. destruct v; cbn [fst snd];
    rewrite ?app_nil_r; trivial.
  rewrite mcq_check_validated. cbn [bind].
  destruct (conforms MCQ _); now rewrite ?app_nil_r.
Qed.

Lemma fillup_step_spec (t d : str) (v : value) (i : Z) (acc : list dict) :
  fillup_step t d v i acc
  = Ok (acc ++ kept_of FILLUP (fillup_validated t d) (i, v)).
Proof.
  unfold fillup_step, kept_of. destruct v; cbn [fst snd];
    rewrite ?app_nil_r; trivial.
  rewrite fillup_check_validated. cbn [bind].
  destruct (conforms FILLUP _); now rewrite ?app_nil_r.
Qed.

(** The MCQ loop computes the specification's Stage C and never
    raises. *)
Lemma mcq_loop_spec (t d : str) (parsed : list value) :
  forall i acc,
    mcq_loop t d parsed i acc
    = Ok (acc ++ flat_map (kept_of MCQ (mcq_validated t d))
                          (enumerate parsed i)).
Proof.
  induction parsed as [|v parsed IH]; intros i acc; simpl.
  - now rewrite app_nil_r.
  - rewrite mcq_step_spec. cbn [bind]. rewrite IH. now rewrite app_assoc.
Qed.

Lemma fillup_loop_spec (t d : str) (parsed : list value) :
  forall i acc,
    fillup_loop t d parsed i acc
    = Ok (acc ++ flat_map (kept_of FILLUP (fillup_validated t d))
                          (enumerate parsed i)).
Proof.
  induction parsed as [|v parsed IH]; intros i acc; simpl.
  - now rewrite app_nil_r.
  - rewrite fillup_step_spec. cbn [bind]. rewrite IH. now rewrite app_assoc.
Qed.

(** On an object whose text fields are strings the coding display does
    not raise. *)
Lemma method_strip_stripped (q : dict) (k : str) :
  text_fields_are_str q -> In k coding_text_fields ->
  method_strip (dict_get q k (VStr [])) = Ok (stripped (dict_get q k (VStr []))).
Proof.
  intros Hq Hk. unfold dict_get.
  destruct (dict_lookup k q) as [v|] eqn:E; [|reflexivity].
  destruct (Hq k v Hk E) as [s ->]. reflexivity.
Qed.

Lemma coding_validated_canonical (t d : str) (q : dict) (i : Z) :
  text_fields_are_str q ->
  coding_validated t d q i = Ok (coding_canonical t d q i).
Proof.
  intros Hq. unfold coding_validated.
  rewrite !(method_strip_stripped q) by (trivial; cbn; tauto).
  reflexivity.
Qed.

Lemma coding_step_spec (t d : str) (v : value) (i : Z) (acc : list dict) :
  well_typed_element v ->
  coding_step t d v i acc
  = Ok (acc ++ kept_of CODING (coding_canonical t d) (i, v)).
Proof.
  unfold coding_step, kept_of. destruct v; cbn [fst snd well_typed_element];
    intros Hq; rewrite ?app_nil_r; trivial.
  rewrite coding_validated_canonical by trivial. cbn [bind].
  rewrite (coding_check_validated t d d0 i)
    by now apply coding_validated_canonical.
  cbn [bind]. destruct (conforms CODING _); now rewrite ?app_nil_r.
Qed.

Lemma coding_loop_spec (t d : str) (parsed : list value) :
  Forall well_typed_element parsed ->
  forall i acc,
    coding_loop t d parsed i acc
    = Ok (acc ++ flat_map (kept_of CODING (coding_canonical t d))
                          (enumerate parsed i)).
Proof.
  induction 1 as [|v parsed Hv _ IH]; intros i acc; simpl.
  - now rewrite app_nil_r.
  - rewrite coding_step_spec by trivial. cbn [bind]. rewrite IH.
    now rewrite app_assoc.
Qed.

(** Whatever the elements hold, the coding loop either returns records
    that were built and passed the check, or raises [AttributeError]. *)
Lemma coding_step_cases (t d : str) (v : value) (i : Z) (acc : list dict) :
  coding_step t d v i acc = Raise AttributeError
  \/ coding_step t d v i acc = Ok acc
  \/ exists q r, v = VDict q /\ coding_validated t d q i = Ok r
                 /\ conforms CODING r = true
                 /\ coding_step t d v i acc = Ok (acc ++ [r]).
Proof.
  unfold coding_step. destruct v; try (right; left; reflexivity).
  destruct (coding_validated t d d0 i) as [r|e] eqn:E.
  - cbn [bind]. rewrite (coding_check_validated _ _ _ _ _ E). cbn [bind].
    destruct (conforms CODING r) eqn:C.
    + right; right. exists d0, r. auto.
    + right; left. reflexivity.
  - left. apply coding_validated_raises in E. now subst.
Qed.

Lemma coding_loop_cases (t d : str) (P : dict -> Prop) :
  (forall q i r, coding_validated t d q i = Ok r ->
                 conforms CODING r = true -> P r) ->
  forall parsed i acc, Forall P acc ->
    coding_loop t d parsed i acc = Raise AttributeError
    \/ exists l, coding_loop t d parsed i acc = Ok l /\ Forall P l
                 /\ (length acc <= length l)%nat.
Proof.
  intros HP. induction parsed as [|v parsed IH]; intros i acc Hacc; simpl.
  - right. exists acc. auto.
  - destruct (coding_step_cases t d v i acc)
      as [-> | [-> | (q & r & _ & Hr & Hc & ->)]]; cbn [bind].
    + now left.
    + apply IH, Hacc.
    + destruct (IH (i + 1) (acc ++ [r])) as [->|(l & -> & Hl & Hlen)].
      * apply Forall_app. split; trivial. constructor; eauto.
      * now left.
      * right. exists l. repeat split; trivial.
        rewrite length_app in Hlen. simpl in Hlen. lia.
Qed.

(* ================================================================== *)
(** * The exceptions of the decoder *)
(* ================================================================== *)

Lemma push_raise (c : char) (r : result (str * str)) (e : exn) :
  push c r = Raise e -> r = Raise e.
Proof. destruct r as [[t rest]|e']; simpl; congruence. Qed.

Lemma scanstring_raises (n : nat) :
  forall s e, (length s <= n)%nat ->
    scanstring s = Raise e -> e = JSONDecodeError.
Proof.
  induction n as [|n IH]; intros s e Hn H.
  - destruct s; [simpl in H; congruence|simpl in Hn; lia].
  - destruct s as [|c s1]; [simpl in H; congruence|].
    cbn [scanstring] in H. simpl in Hn.
    repeat match type of H with
           | context [if ?b then _ else _] => destruct b
           | context [match ?x with _ => _ end] => destruct x
           end;
      try congruence;
      apply push_raise in H; apply IH in H; trivial; simpl in *; lia.
Qed.

(** A number raises only through [int], on more than 4300 digits. *)
Lemma match_number_raises (s : str) (e : exn) :
  match_number s = Some (Raise e) ->
  exists digits, (max_str_digits < digits)%nat
                 /\ e = ValueError (int_limit_message digits).
Proof.
  unfold match_number, int_of_literal. intros H.
  repeat (cbv beta iota in H; cbn [bind] in H;
          match type of H with
          | context [span_digits ?x] => destruct (span_digits x)
          | context [(?a <? ?b)%nat] =>
              destruct (Nat.ltb_spec a b)
          | context [if ?b then _ else _] => destruct b
          | context [match ?x with _ => _ end] => is_var x; destruct x
          end);
    try discriminate;
    injection H as <-; eauto.
Qed.

(** The decoder raises [JSONDecodeError], [RecursionError], or the
    [ValueError] of [int]. *)
Lemma scan_once_raises (fuel : nat) :
  (forall depth s e, scan_once fuel depth s = Some (Raise e) ->
                     decoder_error e)
  /\ (forall depth s acc e, array_loop fuel depth s acc = Some (Raise e) ->
                            decoder_error e)
  /\ (forall depth s acc e, object_loop fuel depth s acc = Some (Raise e) ->
                            decoder_error e).
Proof.
  assert (J : decoder_error JSONDecodeError) by now left.
  assert (R : decoder_error RecursionError) by (right; now left).
  induction fuel as [|fuel (IHs & IHa & IHo)];
    [repeat split; intros; discriminate|].
  repeat split.
  - intros depth s e H. cbn [scan_once] in H.
    destruct s as [|c s']; [injection H as <-; exact J|].
    destruct (N.eqb c quote).
    { destruct (scanstring s') as [[t rest]|e'] eqn:E; [discriminate|].
      injection H as <-.
      apply (scanstring_raises _ _ _ (le_n _)) in E. now subst. }
    destruct (N.eqb c (ch "{")).
    { destruct depth as [|depth']; [injection H as <-; exact R|].
      destruct (skip_ws s') as [|c1 s1]; [injection H as <-; exact J|].
      destruct (N.eqb c1 (ch "}")); [discriminate|].
      destruct (N.eqb c1 quote);
        [now apply IHo in H|injection H as <-; exact J]. }
    destruct (N.eqb c (ch "[")).
    { destruct depth as [|depth']; [injection H as <-; exact R|].
      destruct (skip_ws s') as [|c1 s1]; [injection H as <-; exact J|].
      destruct (N.eqb c1 (ch "]")); [discriminate|now apply IHa in H]. }
    repeat match type of H with
           | context [if ?b then _ else _] => destruct b
           | context [match_number ?x] =>
               let E := fresh "E" in
               destruct (match_number x) as [[[? ?]|?]|] eqn:E
           end;
      try discriminate; injection H as <-; trivial;
      right; right; eapply match_number_raises; eassumption.
  - intros depth s acc e H. cbn [array_loop] in H.
    destruct (scan_once fuel depth s) as [[[v1 rest]|e']|] eqn:E;
      [| injection H as <-; now apply IHs in E | discriminate].
    destruct (skip_ws rest) as [|c r1]; [injection H as <-; exact J|].
    destruct (N.eqb c (ch "]")); [discriminate|].
    destruct (N.eqb c (ch ","));
      [now apply IHa in H|injection H as <-; exact J].
  - intros depth s acc e H. cbn [object_loop] in H.
    destruct (scanstring s) as [[key s1]|e'] eqn:E;
      [| injection H as <-;
         apply (scanstring_raises _ _ _ (le_n _)) in E; now subst].
    destruct (skip_ws s1) as [|colon s2]; [injection H as <-; exact J|].
    destruct (N.eqb colon (ch ":")); [|injection H as <-; exact J].
    destruct (scan_once fuel depth (skip_ws s2))
      as [[[v1 rest]|e']|] eqn:E2;
      [| injection H as <-; now apply IHs in E2 | discriminate].
    destruct (skip_ws rest) as [|c r1]; [injection H as <-; exact J|].
    destruct (N.eqb c (ch "}")); [discriminate|].
    destruct (N.eqb c (ch ",")); [|injection H as <-; exact J].
    destruct (skip_ws r1) as [|q r2]; [injection H as <-; exact J|].
    destruct (N.eqb q quote); [now apply IHo in H|injection H as <-; exact J].
Qed.

Lemma json_loads_raises (depth : nat) (s : str) (e : exn) :
  json_loads depth s = Raise e -> decoder_error e.
Proof.
  unfold json_loads.
  destruct (starts_with _ s); [intros [= <-]; now left|].
  destruct (scan_once _ _ _) as [[[obj rest]|e']|] eqn:E.
  - destruct (skip_ws rest); [discriminate|intros [= <-]; now left].
  - intros [= <-]. now apply (proj1 (scan_once_raises _)) in E.
  - intros [= <-]. now left.
Qed.

(* ================================================================== *)
(** * Facts about the fallback generators *)
(* ================================================================== *)

Lemma range_length (n : Z) : length (range n) = Z.to_nat n.
Proof. unfold range. now rewrite length_map, length_seq. Qed.

Lemma fallback_mcq_length (t d : str) (count : Z) :
  length (_generate_fallback_mcq t d count) = Z.to_nat count.
Proof. unfold _generate_fallback_mcq. now rewrite length_map, range_length. Qed.

Lemma fallback_fillup_length (t d : str) (count : Z) :
  length (_generate_fallback_fillup t d count) = Z.to_nat count.
Proof.
  unfold _generate_fallback_fillup. now rewrite length_map, range_length.
Qed.

Lemma fallback_coding_length (t d : str) (count : Z) :
  length (_generate_fallback_coding t d count) = Z.to_nat count.
Proof.
  unfold _generate_fallback_coding. now rewrite length_map, range_length.
Qed.

Lemma Forall_map_intro {A B} (P : B -> Prop) (f : A -> B) (l : list A) :
  (forall a, P (f a)) -> Forall P (List.map f l).
Proof. intros H. induction l; simpl; constructor; auto. Qed.

Lemma fallback_mcq_conforms (t d : str) (count : Z) :
  Forall (fun r => conforms MCQ r = true) (_generate_fallback_mcq t d count).
Proof. apply Forall_map_intro. intros i. reflexivity. Qed.

Lemma fallback_fillup_conforms (t d : str) (count : Z) :
  Forall (fun r => conforms FILLUP r = true)
         (_generate_fallback_fillup t d count).
Proof. apply Forall_map_intro. intros i. reflexivity. Qed.

(** The coding placeholders have neither [input] nor [output]. *)
Lemma fallback_coding_fields (t d : str) (count : Z) :
  Forall (fun r => dict_lookup (py "input") r = None
                   /\ dict_lookup (py "output") r = None
                   /\ field_nonempty r (py "question") = true)
         (_generate_fallback_coding t d count).
Proof. apply Forall_map_intro. intros i. repeat split. Qed.

Lemma fallback_mcq_answer (t d : str) (count : Z) :
  Forall answer_is_a_label (_generate_fallback_mcq t d count).
Proof.
  apply Forall_map_intro. intros i.
  exists (py "A"). eexists. repeat split. cbn. tauto.
Qed.

Lemma str_eqb_eq (a b : str) : str_eqb a b = true <-> a = b.
Proof.
  revert b. induction a as [|x a IH]; destruct b as [|y b]; simpl;
    try (split; congruence).
  rewrite andb_true_iff, N.eqb_eq, IH. split.
  - intros [-> ->]. reflexivity.
  - intros [= -> ->]. auto.
Qed.

(** The placeholder's time limit is the difficulty default, and 120 for
    any other difficulty string. *)
Lemma fallback_coding_time_limit (t d : str) (count : Z) :
  Forall (fun r => dict_lookup (py "time_limit_seconds") r
                   = Some (VInt match spec_time_limit d with
                                | Some z => z
                                | None => 120
                                end))
         (_generate_fallback_coding t d count).
Proof.
  apply Forall_map_intro. intros i. cbn [dict_lookup].
  change (str_eqb (py "time_limit_seconds") (py "time_limit_seconds"))
    with true.
  repeat match goal with
         | |- context [str_eqb (py "time_limit_seconds") (py ?k)] =>
             change (str_eqb (py "time_limit_seconds") (py k)) with false
         end.
  cbv beta iota. unfold spec_time_limit, dict_get, time_limits.
  cbn [dict_lookup].
  repeat match goal with
         | |- context [str_eqb d ?k] => destruct (str_eqb d k)
         end; reflexivity.
Qed.

(* ================================================================== *)
(** * Printing *)
(* ================================================================== *)

Section Printing.

Context `{Interpreter}.

Lemma printable_app (a b : str) :
  printable (a ++ b) = printable a && printable b.
Proof. apply forallb_app. Qed.

(** A text without surrogates is printed on every console. *)
Lemma printable_without_surrogates (text : str) :
  forallb (fun c => negb (is_surrogate c)) text = true ->
  printable text = true.
Proof.
  unfold printable. rewrite !forallb_forall. intros Hs c Hc.
  unfold stdout_encodes. now rewrite (Hs c Hc).
Qed.

(** The line of the handler of [_parse_mcq] can be printed exactly when
    the first 200 characters of the raw output can. *)
Lemma printable_raw_output_line (raw : str) :
  printable (raw_output_line raw) = printable (slice_to 200 raw).
Proof.
  unfold raw_output_line. rewrite !printable_app.
  replace (printable [9888%N; 65039%N]) with true by reflexivity.
  replace (printable (py "  Raw output: ")) with true by reflexivity.
  replace (printable (py "...")) with true by reflexivity.
  now rewrite andb_true_r.
Qed.

(** The progress line can be printed exactly when the topic and the
    difficulty can. *)
Lemma printable_progress_line (topic difficulty : str) :
  printable (progress_line topic difficulty)
  = printable topic && printable difficulty.
Proof.
  unfold progress_line. rewrite !printable_app.
  replace (printable (py "   Topic: ")) with true by reflexivity.
  replace (printable (py ", Difficulty: ")) with true by reflexivity.
  reflexivity.
Qed.

Lemma print_cases (text : str) :
  (printable text = true /\ print text = Ok tt)
  \/ (printable text = false /\ print text = Raise UnicodeEncodeError).
Proof. unfold print. destruct (printable text); auto. Qed.

End Printing.

(* ================================================================== *)
(** * The ways out of each parser *)
(* ================================================================== *)

Section Parsers.

Context `{Interpreter}.

(** [_parse_mcq] as a function of what the decoder does. *)
Lemma parse_mcq_eq (raw t d : str) (count : Z) :
  _parse_mcq raw t d count
  = match json_loads parser_depth (_extract_json raw) with
    | Ok (VList parsed) =>
        Ok match spec_stage_c MCQ (mcq_validated t d) parsed with
           | [] => _generate_fallback_mcq t d count
           | kept => kept
           end
    | Ok (VDict q) =>
        Ok (if conforms MCQ (mcq_validated t d q 1)
            then [mcq_validated t d q 1]
            else _generate_fallback_mcq t d count)
    | Ok _ => Ok (_generate_fallback_mcq t d count)
    | Raise JSONDecodeError =>
        done <- print (raw_output_line raw) ;;
        Ok (_generate_fallback_mcq t d count)
    | Raise e => Raise e
    end.
Proof.
  unfold _parse_mcq, mcq_body.
  destruct (json_loads parser_depth (_extract_json raw)) as [v|e].
  - destruct v; try reflexivity.
    + cbn [bind]. rewrite mcq_loop_spec. cbn [bind app try_except].
      fold (spec_stage_c MCQ (mcq_validated t d) l).
      destruct (spec_stage_c MCQ (mcq_validated t d) l); reflexivity.
    + cbn [bind]. rewrite mcq_check_validated. cbn [bind].
      destruct (conforms MCQ _); reflexivity.
  - destruct e; try reflexivity.
    cbn [bind try_except is_JSONDecodeError].
    destruct (print (raw_output_line raw)) as [[]|e]; reflexivity.
Qed.

(** [_parse_fillup] likewise; its handler prints nothing that can
    fail. *)
Lemma parse_fillup_eq (raw t d : str) (count : Z) :
  _parse_fillup raw t d count
  = match json_loads parser_depth (_extract_json raw) with
    | Ok (VList parsed) =>
        Ok match spec_stage_c FILLUP (fillup_validated t d) parsed with
           | [] => _generate_fallback_fillup t d count
           | kept => kept
           end
    | Ok (VDict q) =>
        Ok (if conforms FILLUP (fillup_validated t d q 1)
            then [fillup_validated t d q 1]
            else _generate_fallback_fillup t d count)
    | Ok _ => Ok (_generate_fallback_fillup t d count)
    | Raise JSONDecodeError => Ok (_generate_fallback_fillup t d count)
    | Raise e => Raise e
    end.
Proof.
  unfold _parse_fillup, fillup_body.
  destruct (json_loads parser_depth (_extract_json raw)) as [v|e].
  - destruct v; try reflexivity.
    + cbn [bind]. rewrite fillup_loop_spec. cbn [bind app try_except].
      fold (spec_stage_c FILLUP (fillup_validated t d) l).
      destruct (spec_stage_c FILLUP (fillup_validated t d) l); reflexivity.
    + cbn [bind]. rewrite fillup_check_validated. cbn [bind].
      destruct (conforms FILLUP _); reflexivity.
  - destruct e; reflexivity.
Qed.

(** The lists [_parse_mcq] returns: the placeholders, or all the
    elements Stage C kept from an array, or the record of a single
    object. *)
Lemma parse_mcq_cases (raw t d : str) (count : Z) (l : list dict) :
  _parse_mcq raw t d count = Ok l ->
  l = _generate_fallback_mcq t d count
  \/ (exists parsed,
        json_loads parser_depth (_extract_json raw) = Ok (VList parsed)
        /\ l <> []
        /\ l = spec_stage_c MCQ (mcq_validated t d) parsed)
  \/ (exists q,
        json_loads parser_depth (_extract_json raw) = Ok (VDict q)
        /\ conforms MCQ (mcq_validated t d q 1) = true
        /\ l = [mcq_validated t d q 1]).
Proof.
  rewrite parse_mcq_eq.
  destruct (json_loads parser_depth (_extract_json raw)) as [v|e] eqn:E.
  - destruct v; try (intros [= <-]; now left).
    + destruct (spec_stage_c MCQ (mcq_validated t d) l0) as [|r rs] eqn:K;
        intros [= <-]; [now left|].
      right; left. exists l0. rewrite K. repeat split. discriminate.
    + destruct (conforms MCQ _) eqn:C; intros [= <-]; [|now left].
      right; right. exists d0. auto.
  - destruct e; try discriminate.
    destruct (print _); cbn [bind]; [intros [= <-]; now left|discriminate].
Qed.

Lemma parse_fillup_cases (raw t d : str) (count : Z) (l : list dict) :
  _parse_fillup raw t d count = Ok l ->
  l = _generate_fallback_fillup t d count
  \/ (exists parsed,
        json_loads parser_depth (_extract_json raw) = Ok (VList parsed)
        /\ l <> []
        /\ l = spec_stage_c FILLUP (fillup_validated t d) parsed)
  \/ (exists q,
        json_loads parser_depth (_extract_json raw) = Ok (VDict q)
        /\ conforms FILLUP (fillup_validated t d q 1) = true
        /\ l = [fillup_validated t d q 1]).
Proof.
  rewrite parse_fillup_eq.
  destruct (json_loads parser_depth (_extract_json raw)) as [v|e] eqn:E.
  - destruct v; try (intros [= <-]; now left).
    + destruct (spec_stage_c FILLUP (fillup_validated t d) l0)
        as [|r rs] eqn:K; intros [= <-]; [now left|].
      right; left. exists l0. rewrite K. repeat split. discriminate.
    + destruct (conforms FILLUP _) eqn:C; intros [= <-]; [|now left].
      right; right. exists d0. auto.
  - destruct e; try discriminate. intros [= <-]; now left.
Qed.

(** The exceptions of [_parse_mcq]: the two of the interpreter, which
    the [except] clause does not name, and that of the [print] in its
    handler. *)
Lemma parse_mcq_raises (raw t d : str) (count : Z) (e : exn) :
  _parse_mcq raw t d count = Raise e ->
  (json_loads parser_depth (_extract_json raw) = Raise e
   /\ (e = RecursionError
       \/ exists digits, (max_str_digits < digits)%nat
                         /\ e = ValueError (int_limit_message digits)))
  \/ (json_loads parser_depth (_extract_json raw) = Raise JSONDecodeError
      /\ printable (slice_to 200 raw) = false
      /\ e = UnicodeEncodeError).
Proof.
  rewrite parse_mcq_eq.
  destruct (json_loads parser_depth (_extract_json raw)) as [v|e'] eqn:E.
  - destruct v; discriminate.
  - pose proof (json_loads_raises _ _ _ E) as [->|[->|(n & Hn & ->)]].
    + destruct (print_cases (raw_output_line raw)) as [[_ ->]|[P ->]];
        cbn [bind]; [discriminate|].
      intros [= <-]. right. rewrite <- printable_raw_output_line. auto.
    + intros [= <-]. left. auto.
    + intros [= <-]. left. eauto.
Qed.

(** Those of [_parse_fillup]: the two of the interpreter. *)
Lemma parse_fillup_raises (raw t d : str) (count : Z) (e : exn) :
  _parse_fillup raw t d count = Raise e ->
  json_loads parser_depth (_extract_json raw) = Raise e
  /\ (e = RecursionError
      \/ exists digits, (max_str_digits < digits)%nat
                        /\ e = ValueError (int_limit_message digits)).
Proof.
  rewrite parse_fillup_eq.
  destruct (json_loads parser_depth (_extract_json raw)) as [v|e'] eqn:E.
  - destruct v; discriminate.
  - pose proof (json_loads_raises _ _ _ E) as [->|[->|(n & Hn & ->)]].
    + discriminate.
    + intros [= <-]. auto.
    + intros [= <-]. eauto.
Qed.

(** [_parse_coding] raises [AttributeError] or [RecursionError], or
    returns the placeholders, or the first [count] of the records its
    loop kept. *)
Lemma parse_coding_cases (raw t d : str) (count : Z) :
  _parse_coding raw t d count = Raise AttributeError
  \/ (json_loads parser_depth (_extract_json raw) = Raise RecursionError
      /\ _parse_coding raw t d count = Raise RecursionError)
  \/ _parse_coding raw t d count = Ok (_generate_fallback_coding t d count)
  \/ (exists parsed valid,
        (json_loads parser_depth (_extract_json raw) = Ok (VList parsed)
         \/ exists q, json_loads parser_depth (_extract_json raw)
                      = Ok (VDict q)
                      /\ parsed = [VDict q])
        /\ coding_loop t d parsed 1 [] = Ok valid
        /\ valid <> []
        /\ _parse_coding raw t d count = Ok (slice_to count valid)).
Proof.
  assert (L : forall parsed,
             match
               valid_questions <- coding_loop t d parsed 1 [] ;;
               match valid_questions with
               | [] => Ok None
               | _ :: _ => Ok (Some (slice_to count valid_questions))
               end
             with
             | Ok (Some l) =>
                 exists valid, coding_loop t d parsed 1 [] = Ok valid
                               /\ valid <> [] /\ l = slice_to count valid
             | Ok None => True
             | Raise e => e = AttributeError
             end).
  { intros parsed.
    destruct (coding_loop_cases t d (fun _ => True) (fun _ _ _ _ _ => I)
                parsed 1 [] (Forall_nil _)) as [->|(l & -> & _)];
      cbn [bind]; trivial.
    destruct l as [|r l]; trivial. exists (r :: l). repeat split.
    discriminate. }
  unfold _parse_coding, coding_body.
  destruct (json_loads parser_depth (_extract_json raw)) as [v|e] eqn:E.
  - cbn [bind].
    destruct v; try (right; right; left; reflexivity).
    + specialize (L l).
      destruct (bind (coding_loop t d l 1 []) _) as [[qs|]|e].
      * destruct L as (valid & Hv & Hne & ->).
        right; right; right. exists l, valid. repeat split; trivial.
        now left.
      * right; right; left; reflexivity.
      * subst e. left; reflexivity.
    + specialize (L [VDict d0]).
      destruct (bind (coding_loop t d [VDict d0] 1 []) _) as [[qs|]|e].
      * destruct L as (valid & Hv & Hne & ->).
        right; right; right. exists [VDict d0], valid.
        repeat split; trivial.
        right. exists d0. split; reflexivity.
      * right; right; left; reflexivity.
      * subst e. left; reflexivity.
  - pose proof (json_loads_raises _ _ _ E) as [->|[->|(n & Hn & ->)]].
    + right; right; left; reflexivity.
    + right; left. split; reflexivity.
    + right; right; left; reflexivity.
Qed.

End Parsers.

(* ================================================================== *)
(** * Schema conformance *)
(* ================================================================== *)

Lemma kept_of_conforms (k : QuestionType) (canonical : dict -> Z -> dict)
    (iq : Z * value) :
  Forall (fun r => conforms k r = true) (kept_of k canonical iq).
Proof.
  unfold kept_of. destruct (snd iq); try constructor.
  cbv zeta. destruct (conforms k _) eqn:C; repeat constructor. exact C.
Qed.

Lemma spec_stage_c_conforms (k : QuestionType)
    (canonical : dict -> Z -> dict) (parsed : list value) :
  Forall (fun r => conforms k r = true) (spec_stage_c k canonical parsed).
Proof.
  unfold spec_stage_c. generalize 1.
  induction parsed as [|v parsed IH]; intros i; simpl; [constructor|].
  apply Forall_app. split; [apply kept_of_conforms|apply IH].
Qed.

(** Every record [_parse_mcq] returns has a non-empty [question] and
    non-empty [options]. *)
Lemma parse_mcq_conforms `{Interpreter} (raw t d : str) (count : Z)
    (l : list dict) :
  _parse_mcq raw t d count = Ok l ->
  Forall (fun r => conforms MCQ r = true) l.
Proof.
  intros E.
  destruct (parse_mcq_cases raw t d count l E)
    as [-> | [(parsed & _ & _ & ->) | (q & _ & C & ->)]].
  - apply fallback_mcq_conforms.
  - apply spec_stage_c_conforms.
  - repeat constructor. exact C.
Qed.

(** Every record [_parse_fillup] returns has a non-empty [question] and
    a non-empty [correct_word]. *)
Lemma parse_fillup_conforms `{Interpreter} (raw t d : str) (count : Z)
    (l : list dict) :
  _parse_fillup raw t d count = Ok l ->
  Forall (fun r => conforms FILLUP r = true) l.
Proof.
  intros E.
  destruct (parse_fillup_cases raw t d count l E)
    as [-> | [(parsed & _ & _ & ->) | (q & _ & C & ->)]].
  - apply fallback_fillup_conforms.
  - apply spec_stage_c_conforms.
  - repeat constructor. exact C.
Qed.

Lemma Forall_slice_to {A} (P : A -> Prop) (n : Z) (l : list A) :
  Forall P l -> Forall P (slice_to n l).
Proof.
  intros H. unfold slice_to.
  assert (K : forall k, Forall P (firstn k l)).
  { intros k. rewrite <- (firstn_skipn k l) in H.
    now apply Forall_app in H. }
  destruct (0 <=? n); apply K.
Qed.

(** The records the coding loop keeps have non-empty [question],
    [input] and [output]. *)
Lemma coding_loop_conforms (t d : str) (parsed : list value) (i : Z)
    (valid : list dict) :
  coding_loop t d parsed i [] = Ok valid ->
  Forall (fun r => conforms CODING r = true) valid.
Proof.
  intros H.
  destruct (coding_loop_cases t d (fun r => conforms CODING r = true)
              (fun _ _ _ _ C => C) parsed i [] (Forall_nil _))
    as [E|(l & E & Hl & _)]; congruence.
Qed.

(** C1. The claim fails on the placeholders of the coding kind: when
    recovery fails, [_parse_coding] returns records that have neither an
    [input] nor an [output] key, so two of the three mandatory fields of
    the coding kind are absent. *)
Theorem fallback_coding_record_lacks_input_and_output :
  exists r,
    _parse_coding (py "not json at all") (py "Python") (py "easy") 1
    = Ok [r]
    /\ dict_lookup (py "input") r = None
    /\ dict_lookup (py "output") r = None
    /\ conforms CODING r = false.
Proof. eexists. repeat split; vm_compute; reflexivity. Qed.

(* ================================================================== *)
(** * Returning normally *)
(* ================================================================== *)

Section Returning.

Context `{Interpreter}.

(** [_parse_mcq] returns a list, unless the decoder meets one of the
    two limits of the interpreter or the handler cannot print the raw
    output. *)
Lemma parse_mcq_returns_or_raises (raw t d : str) (count : Z) :
  (exists l, _parse_mcq raw t d count = Ok l)
  \/ exists e,
       _parse_mcq raw t d count = Raise e
       /\ (e = RecursionError
           \/ e = UnicodeEncodeError
           \/ exists digits, (max_str_digits < digits)%nat
                             /\ e = ValueError (int_limit_message digits)).
Proof.
  destruct (_parse_mcq raw t d count) as [l|e] eqn:E; [eauto|].
  right. exists e. split; trivial.
  destruct (parse_mcq_raises _ _ _ _ _ E)
    as [(_ & [->|X])|(_ & _ & ->)]; auto.
Qed.

(** [_parse_fillup] returns a list, unless the decoder meets one of the
    two limits of the interpreter. *)
Lemma parse_fillup_returns_or_raises (raw t d : str) (count : Z) :
  (exists l, _parse_fillup raw t d count = Ok l)
  \/ exists e,
       _parse_fillup raw t d count = Raise e
       /\ (e = RecursionError
           \/ exists digits, (max_str_digits < digits)%nat
                             /\ e = ValueError (int_limit_message digits)).
Proof.
  destruct (_parse_fillup raw t d count) as [l|e] eqn:E; [eauto|].
  right. exists e. split; trivial.
  now destruct (parse_fillup_raises _ _ _ _ _ E).
Qed.

(** They return when the decoder fails with its own exception only and,
    for [_parse_mcq], the first 200 characters of the raw output can be
    printed. *)
Lemma parse_mcq_returns (raw t d : str) (count : Z) :
  (forall e, json_loads parser_depth (_extract_json raw) = Raise e ->
             e = JSONDecodeError) ->
  printable (slice_to 200 raw) = true ->
  exists l, _parse_mcq raw t d count = Ok l.
Proof.
  intros Hd Hp.
  destruct (_parse_mcq raw t d count) as [l|e] eqn:E; [eauto|].
  destruct (parse_mcq_raises _ _ _ _ _ E)
    as [(D & [->|(n & _ & ->)])|(_ & P & _)];
    [apply Hd in D; discriminate | apply Hd in D; discriminate
    | congruence].
Qed.

Lemma parse_fillup_returns (raw t d : str) (count : Z) :
  (forall e, json_loads parser_depth (_extract_json raw) = Raise e ->
             e = JSONDecodeError) ->
  exists l, _parse_fillup raw t d count = Ok l.
Proof.
  intros Hd.
  destruct (_parse_fillup raw t d count) as [l|e] eqn:E; [eauto|].
  destruct (parse_fillup_raises _ _ _ _ _ E)
    as (D & [->|(n & _ & ->)]); apply Hd in D; discriminate.
Qed.

(** [_parse_coding] returns a list or raises [AttributeError] or
    [RecursionError]. *)
Lemma parse_coding_returns_or_raises (raw t d : str) (count : Z) :
  (exists l, _parse_coding raw t d count = Ok l)
  \/ _parse_coding raw t d count = Raise AttributeError
  \/ _parse_coding raw t d count = Raise RecursionError.
Proof.
  destruct (parse_coding_cases raw t d count)
    as [E | [[_ E] | [E | (parsed & valid & _ & _ & _ & E)]]]; eauto.
Qed.

Lemma coding_body_well_typed (t d cleaned : str) (count : Z) :
  json_loads parser_depth cleaned <> Raise RecursionError ->
  (forall parsed, json_loads parser_depth cleaned = Ok (VList parsed) ->
                  Forall well_typed_element parsed) ->
  (forall q, json_loads parser_depth cleaned = Ok (VDict q) ->
             text_fields_are_str q) ->
  exists r, try_except (coding_body t d cleaned count)
              is_JSONDecodeError_or_ValueError (fun _ => Ok None) = Ok r.
Proof.
  intros Hr Hl Hd. unfold coding_body.
  destruct (json_loads parser_depth cleaned) as [v|e] eqn:E; cbn [bind].
  - destruct v; try (eexists; reflexivity).
    + rewrite coding_loop_spec by now apply Hl.
      cbn [bind app]. destruct (flat_map _ _); eexists; reflexivity.
    + rewrite coding_loop_spec
        by (constructor; [now apply Hd|constructor]).
      cbn [bind app]. destruct (flat_map _ _); eexists; reflexivity.
  - pose proof (json_loads_raises _ _ _ E) as [->|[->|(n & Hn & ->)]];
      [eexists; reflexivity|congruence|eexists; reflexivity].
Qed.

(** It returns a list whenever the decoder stays within the recursion
    limit and the text fields of the decoded elements are strings. *)
Lemma parse_coding_returns_on_str_fields (raw t d : str) (count : Z) :
  json_loads parser_depth (_extract_json raw) <> Raise RecursionError ->
  (forall parsed,
      json_loads parser_depth (_extract_json raw) = Ok (VList parsed) ->
      Forall well_typed_element parsed) ->
  (forall q, json_loads parser_depth (_extract_json raw) = Ok (VDict q) ->
             text_fields_are_str q) ->
  exists l, _parse_coding raw t d count = Ok l.
Proof.
  intros Hr Hl Hd. unfold _parse_coding.
  destruct (coding_body_well_typed t d (_extract_json raw) count Hr Hl Hd)
    as [r ->].
  destruct r; eexists; reflexivity.
Qed.

End Returning.

(** C2. The claim fails for [_parse_coding]: a text field that is a
    JSON number has no [strip] method, the [AttributeError] is not among
    the exceptions the [try] statement handles, and it reaches the
    caller. *)
Theorem parse_coding_raises_on_a_numeric_field :
  _parse_coding
    (jtext "[{'question': 'Add two numbers', 'input': 'two integers', 'output': 42}]")
    (py "Python") (py "easy") 1
  = Raise AttributeError.
Proof. vm_compute. reflexivity. Qed.

(* ================================================================== *)
(** * Lengths *)
(* ================================================================== *)

Lemma slice_to_length {A} (n : Z) (l : list A) :
  1 <= n -> l <> [] ->
  (1 <= length (slice_to n l) <= Z.to_nat n)%nat.
Proof.
  intros Hn Hl. unfold slice_to.
  destruct (Z.leb_spec 0 n); [|lia].
  rewrite length_firstn. destruct l; [congruence|]. simpl. lia.
Qed.

(** When [_parse_mcq] returns, it returns at least one record; the
    placeholders are exactly [count]; the kept elements are all
    returned. *)
Lemma parse_mcq_length `{Interpreter} (raw t d : str) (count : Z)
    (l : list dict) :
  1 <= count ->
  _parse_mcq raw t d count = Ok l -> (1 <= length l)%nat.
Proof.
  intros Hc E.
  destruct (parse_mcq_cases raw t d count l E)
    as [-> | [(parsed & _ & Hne & _) | (q & _ & C & ->)]].
  - rewrite fallback_mcq_length. lia.
  - destruct l; [congruence|simpl; lia].
  - simpl. lia.
Qed.

Lemma parse_fillup_length `{Interpreter} (raw t d : str) (count : Z)
    (l : list dict) :
  1 <= count ->
  _parse_fillup raw t d count = Ok l -> (1 <= length l)%nat.
Proof.
  intros Hc E.
  destruct (parse_fillup_cases raw t d count l E)
    as [-> | [(parsed & _ & Hne & _) | (q & _ & C & ->)]].
  - rewrite fallback_fillup_length. lia.
  - destruct l; [congruence|simpl; lia].
  - simpl. lia.
Qed.

(** When [_parse_coding] returns, it returns between one and [count]
    records. *)
Lemma parse_coding_length `{Interpreter} (raw t d : str) (count : Z)
    (l : list dict) :
  1 <= count ->
  _parse_coding raw t d count = Ok l ->
  (1 <= length l <= Z.to_nat count)%nat.
Proof.
  intros Hc E0.
  destruct (parse_coding_cases raw t d count)
    as [E | [[_ E] | [E | (parsed & valid & _ & _ & Hne & E)]]];
    rewrite E in E0; [discriminate|discriminate| |]; injection E0 as <-.
  - rewrite fallback_coding_length. lia.
  - now apply slice_to_length.
Qed.

(** C5. The claim fails for the coding kind on the texts of C2: on an
    element whose [input] is a JSON array, [_parse_coding] returns no
    list at all. *)
Theorem parse_coding_returns_no_list_on_an_array_field :
  _parse_coding
    (jtext "[{'question': 'Sum a list', 'input': ['1', '2'], 'output': '3'}]")
    (py "Python") (py "easy") 2
  = Raise AttributeError.
Proof. vm_compute. reflexivity. Qed.

(* ================================================================== *)
(** * The completion service *)
(* ================================================================== *)

Lemma call_ollama_failure `{Interpreter} (reply : post_outcome) (e : exn) :
  per_call_failure reply = Some e -> _call_ollama reply = Raise e.
Proof.
  destruct reply as [status text| |];
    unfold per_call_failure, _call_ollama, try_except.
  - destruct (status =? 200); [discriminate|].
    intros [= <-]. reflexivity.
  - intros [= <-]. reflexivity.
  - discriminate.
Qed.

(** On a successful reply whose body is an object with a string under
    [response], generation is the progress line and then the parser
    applied to that string. *)
Lemma generate_mcq_success `{Interpreter} (text : str) (body : dict)
    (s t d : str) (count : Z) :
  json_loads response_depth text = Ok (VDict body) ->
  dict_get body (py "response") (VStr []) = VStr s ->
  generate_mcq (Responded 200 text) t d count
  = (done <- print (progress_line t d) ;; _parse_mcq s t d count).
Proof.
  intros Hb Hs. unfold generate_mcq, _call_ollama.
  change (200 =? 200) with true. cbn [negb]. rewrite Hb. cbn [bind].
  rewrite Hs. reflexivity.
Qed.

(** C3, as amended.  When the completion service answers with a status
    other than 200, or times out, [_call_ollama] re-raises and each of
    [generate_mcq], [generate_fillup] and [generate_coding] propagates
    that exception to its caller: the recovery pipeline is not entered
    and no records are returned.  The one other way out is earlier
    still: the progress line is printed before the request, and when
    the console cannot encode the topic or the difficulty it is the
    [UnicodeEncodeError] of that [print] which reaches the caller. *)
Theorem service_failure_reaches_the_caller `{Interpreter}
    (reply : post_outcome) (e : exn) (topic difficulty : str) (count : Z) :
  per_call_failure reply = Some e ->
  let raised :=
    if printable topic && printable difficulty then e
    else UnicodeEncodeError in
  generate_mcq reply topic difficulty count = Raise raised
  /\ generate_fillup reply topic difficulty count = Raise raised
  /\ generate_coding reply topic difficulty count = Raise raised.
Proof.
  intros Hf. apply call_ollama_failure in Hf.
  unfold generate_mcq, generate_fillup, generate_coding, print.
  rewrite printable_progress_line, Hf.
  destruct (printable topic && printable difficulty); repeat split.
Qed.

Lemma service_failure_reaches_the_caller_witness :
  per_call_failure (Responded 503 (py "Service Unavailable"))
  = Some (Exception_ (py "Ollama returned 503"))
  /\ generate_coding (Responded 503 (py "Service Unavailable"))
       (py "SQL") (py "hard") 2
     = Raise (Exception_ (py "Ollama returned 503")).
Proof.
  split; [reflexivity|].
  exact (proj2 (proj2 (service_failure_reaches_the_caller
                         (Responded 503 (py "Service Unavailable"))
                         (Exception_ (py "Ollama returned 503"))
                         (py "SQL") (py "hard") 2 eq_refl))).
Defined.

(** C3 as stated fails: on status 500 [generate_mcq] returns no
    records. *)
Lemma generate_mcq_returns_no_records_on_status_500 :
  ~ exists records,
      generate_mcq (Responded 500 (py "Internal Server Error"))
        (py "SQL") (py "easy") 2
      = Ok records.
Proof. intros [records H]. vm_compute in H. discriminate. Qed.

(* ================================================================== *)
(** * The time limit of a coding record *)
(* ================================================================== *)

(** A record built from a parsed element takes the source's
    [time_limit_seconds], and 120 when the source has none, whatever the
    difficulty. *)
Lemma coding_validated_time_limit (t d : str) (q : dict) (i : Z) (r : dict) :
  coding_validated t d q i = Ok r ->
  dict_lookup (py "time_limit_seconds") r
  = Some (dict_get q (py "time_limit_seconds") (VInt 120)).
Proof.
  unfold coding_validated, bind.
  repeat match goal with
         | |- context [method_strip ?v] => destruct (method_strip v)
         end; try discriminate.
  intros [= <-]. reflexivity.
Qed.

(** C4. The claim fails on the parse path: an element kept from the
    model's output without [time_limit_seconds] gets 120 under
    difficulty [medium], for which the default is 180. *)
Theorem parsed_coding_time_limit_ignores_difficulty :
  exists r,
    _parse_coding
      (jtext "[{'question': 'Reverse a list', 'input': 'a list', 'output': 'the reversed list'}]")
      (py "Python") (py "medium") 1
    = Ok [r]
    /\ dict_lookup (py "time_limit_seconds") r = Some (VInt 120)
    /\ spec_time_limit (py "medium") = Some 180.
Proof. eexists. repeat split; vm_compute; reflexivity. Qed.

(* ================================================================== *)
(** * Stage A *)
(* ================================================================== *)

(** C6, as amended.  [_extract_json] removes every [```json] and then
    every [```], each with the whitespace after it.  In the remaining
    text it returns the span that starts at the leftmost opening
    bracket, square or curly, which has a closing bracket of its own
    kind somewhere after it, and that ends at the last closing bracket
    of that kind.  When no opening bracket has one, it returns the text
    trimmed of surrounding whitespace. *)
Theorem extract_json_leftmost_span (raw_output : str) :
  let text := re_sub_ws (py "```") (re_sub_ws (py "```json") raw_output) in
  (exists pre o mid c post,
      text = pre ++ (o :: mid ++ [c]) ++ post
      /\ bracket_pair o c
      /\ ~ In c post
      /\ no_span_starts_in pre ((o :: mid ++ [c]) ++ post)
      /\ _extract_json raw_output = o :: mid ++ [c])
  \/ (no_span_starts_in text []
      /\ _extract_json raw_output = strip text).
Proof.
  intros text. unfold _extract_json. fold text.
  destruct (re_search_bracketed text) as [m|] eqn:E.
  - left. destruct (re_search_bracketed_some _ _ E)
      as (pre & o & mid & c & post & Hs & -> & Hb & Hp & Hno).
    exists pre, o, mid, c, post. auto.
  - right. split; [now apply re_search_bracketed_none|reflexivity].
Qed.

(** C6 as stated fails: on an object that contains an array the code
    returns the object, not the array. *)
Lemma extract_json_does_not_prefer_arrays :
  _extract_json (jtext "{'id': 1, 'tags': [1, 2]}")
  <> spec_extract_json (jtext "{'id': 1, 'tags': [1, 2]}").
Proof. vm_compute. discriminate. Qed.

(* ================================================================== *)
(** * Stage C against its specification *)
(* ================================================================== *)

(** The [id] of a canonical record is the source's, and the position
    when the source has none. *)
Lemma validated_id (t d : str) (q : dict) (i : Z) :
  dict_lookup (py "id") (mcq_validated t d q i)
  = Some (dict_get q (py "id") (VInt i))
  /\ dict_lookup (py "id") (fillup_validated t d q i)
     = Some (dict_get q (py "id") (VInt i))
  /\ dict_lookup (py "id") (coding_canonical t d q i)
     = Some (dict_get q (py "id") (VInt i)).
Proof. repeat split. Qed.

(** On a decoded array the MCQ and fill-up loops compute the
    specification's Stage C; so does the coding loop when the text
    fields of the elements are strings. *)
Lemma stage_c_refines_spec (t d : str) (parsed : list value) :
  mcq_loop t d parsed 1 [] = Ok (spec_stage_c MCQ (mcq_validated t d) parsed)
  /\ fillup_loop t d parsed 1 []
     = Ok (spec_stage_c FILLUP (fillup_validated t d) parsed)
  /\ (Forall well_typed_element parsed ->
      coding_loop t d parsed 1 []
      = Ok (spec_stage_c CODING (coding_canonical t d) parsed)).
Proof.
  repeat split.
  - apply mcq_loop_spec.
  - apply fillup_loop_spec.
  - intros H. now apply coding_loop_spec.
Qed.

(** C7. The claim fails for the coding kind on the texts of C2: the
    second element has a null [question], so the specification's Stage C
    drops it and keeps the first; the code raises [AttributeError] on
    it instead of dropping it. *)
Theorem coding_stage_c_raises_instead_of_dropping :
  let raw :=
    jtext "[{'question': 'Q1', 'input': 'I1', 'output': 'O1'}, {'question': null, 'input': 'I2', 'output': 'O2'}]" in
  exists e1 e2,
    json_loads parser_depth (_extract_json raw)
    = Ok (VList [VDict e1; VDict e2])
    /\ spec_stage_c CODING (coding_canonical (py "Python") (py "easy"))
         [VDict e1; VDict e2]
       = [coding_canonical (py "Python") (py "easy") e1 1]
    /\ coding_loop (py "Python") (py "easy") [VDict e1; VDict e2] 1 []
       = Raise AttributeError
    /\ _parse_coding raw (py "Python") (py "easy") 5 = Raise AttributeError.
Proof.
  intros raw. do 2 eexists. split; [vm_compute; reflexivity|].
  repeat split; vm_compute; reflexivity.
Qed.

(* ================================================================== *)
(** * The answer of an MCQ record *)
(* ================================================================== *)

Lemma copies_answer_validated (t d : str) (q : dict) (i : Z) :
  copies_answer q (mcq_validated t d q i).
Proof. reflexivity. Qed.





(* ================================================================== *)
(** * The [type] field *)
(* ================================================================== *)

Lemma spec_stage_c_Forall (k : QuestionType) (canonical : dict -> Z -> dict)
    (P : dict -> Prop) (parsed : list value) :
  (forall q i, P (canonical q i)) ->
  Forall P (spec_stage_c k canonical parsed).
Proof.
  intros HP. unfold spec_stage_c. generalize 1.
  induction parsed as [|v parsed IH]; intros i; simpl; [constructor|].
  apply Forall_app. split; [|apply IH].
  unfold kept_of. destruct (snd (i, v)); try constructor.
  cbv zeta. destruct (conforms k _); repeat constructor. apply HP.
Qed.

Lemma coding_validated_type (t d : str) (q : dict) (i : Z) (r : dict) :
  coding_validated t d q i = Ok r -> has_type CODING r.
Proof.
  unfold coding_validated, bind.
  repeat match goal with
         | |- context [method_strip ?v] => destruct (method_strip v)
         end; try discriminate.
  intros [= <-]. reflexivity.
Qed.

Lemma fallback_has_type (t d : str) (count : Z) :
  Forall (has_type MCQ) (_generate_fallback_mcq t d count)
  /\ Forall (has_type FILLUP) (_generate_fallback_fillup t d count)
  /\ Forall (has_type CODING) (_generate_fallback_coding t d count).
Proof. repeat split; apply Forall_map_intro; intros i; reflexivity. Qed.

(** C9.  Every record of a list returned by [_parse_mcq],
    [_parse_fillup] or [_parse_coding], and every record of the three
    fallback generators, has [type] equal to ["mcq"], ["fillup"] or
    ["coding"] respectively, whatever the source element had under
    [type]. *)
Theorem type_is_the_kind_constant `{Interpreter}
    (raw topic difficulty : str) (count : Z) :
  (forall l, _parse_mcq raw topic difficulty count = Ok l ->
             Forall (has_type MCQ) l)
  /\ (forall l, _parse_fillup raw topic difficulty count = Ok l ->
                Forall (has_type FILLUP) l)
  /\ (forall l, _parse_coding raw topic difficulty count = Ok l ->
                Forall (has_type CODING) l)
  /\ Forall (has_type MCQ) (_generate_fallback_mcq topic difficulty count)
  /\ Forall (has_type FILLUP)
            (_generate_fallback_fillup topic difficulty count)
  /\ Forall (has_type CODING)
            (_generate_fallback_coding topic difficulty count).
Proof.
  destruct (fallback_has_type topic difficulty count) as (Fm & Ff & Fc).
  repeat split; trivial.
  - intros l E.
    destruct (parse_mcq_cases raw topic difficulty count l E)
      as [-> | [(parsed & _ & _ & ->) | (q & _ & _ & ->)]]; trivial.
    + apply spec_stage_c_Forall. reflexivity.
    + repeat constructor.
  - intros l E.
    destruct (parse_fillup_cases raw topic difficulty count l E)
      as [-> | [(parsed & _ & _ & ->) | (q & _ & _ & ->)]]; trivial.
    + apply spec_stage_c_Forall. reflexivity.
    + repeat constructor.
  - intros l E0.
    destruct (parse_coding_cases raw topic difficulty count)
      as [E | [[_ E] | [E | (parsed & valid & _ & Hv & _ & E)]]];
      rewrite E in E0; [discriminate|discriminate| |];
      injection E0 as <-; trivial.
    apply Forall_slice_to.
    destruct (coding_loop_cases topic difficulty (has_type CODING)
                (fun q i r Hr _ => coding_validated_type _ _ q i r Hr)
                parsed 1 [] (Forall_nil _))
      as [E'|(l & E' & Hl & _)]; congruence.
Qed.

Lemma type_is_the_kind_constant_witness :
  let raw :=
    jtext "[{'type': 'essay', 'question': ' Q ', 'options': ['x'], 'correct_word': 'w', 'input': 'i', 'output': 'o'}]" in
  (exists r, _parse_mcq raw (py "Go") (py "hard") 1 = Ok [r]
             /\ has_type MCQ r)
  /\ (exists r, _parse_fillup raw (py "Go") (py "hard") 1 = Ok [r]
                /\ has_type FILLUP r)
  /\ (exists r, _parse_coding raw (py "Go") (py "hard") 1 = Ok [r]
                /\ has_type CODING r).
Proof.
  intros raw.
  pose proof (type_is_the_kind_constant raw (py "Go") (py "hard") 1)
    as (Hm & Hf & Hc & _).
  repeat split.
  - eexists. split; [vm_compute; reflexivity|].
    refine (Forall_inv (Hm _ _)). vm_compute. reflexivity.
  - eexists. split; [vm_compute; reflexivity|].
    refine (Forall_inv (Hf _ _)). vm_compute. reflexivity.
  - eexists. split; [vm_compute; reflexivity|].
    refine (Forall_inv (Hc _ _)). vm_compute. reflexivity.
Defined.

(* ================================================================== *)
(** * Trimming *)
(* ================================================================== *)

Lemma lstrip_whitespace (s : str) : forallb isspace s = true -> lstrip s = [].
Proof.
  induction s as [|c s IH]; simpl; [reflexivity|].
  destruct (isspace c); simpl; [exact IH|discriminate].
Qed.

Lemma strip_whitespace_only (s : str) : whitespace_only s -> strip s = [].
Proof.
  intros [_ H]. unfold strip. now rewrite lstrip_whitespace.
Qed.

Lemma truthy_whitespace_only (s : str) :
  whitespace_only s -> truthy (VStr s) = true.
Proof. intros [H _]. destruct s; [congruence|reflexivity]. Qed.

Lemma dict_get_lookup (q : dict) (k : str) (v default : value) :
  dict_lookup k q = Some v -> dict_get q k default = v.
Proof. unfold dict_get. now intros ->. Qed.

(** A coding element one of whose three mandatory fields trims to the
    empty string is never kept. *)
Lemma coding_step_drops (t d : str) (q : dict) (i : Z) (acc : list dict) :
  method_strip (dict_get q (py "question") (VStr [])) = Ok (VStr [])
  \/ method_strip (dict_get q (py "input") (VStr [])) = Ok (VStr [])
  \/ method_strip (dict_get q (py "output") (VStr [])) = Ok (VStr []) ->
  coding_step t d (VDict q) i acc = Ok acc
  \/ coding_step t d (VDict q) i acc = Raise AttributeError.
Proof.
  intros H. unfold coding_step.
  destruct (coding_validated t d q i) as [r|e] eqn:E; cbn [bind].
  - left. rewrite (coding_check_validated _ _ _ _ _ E). cbn [bind].
    revert E. unfold coding_validated, bind.
    destruct (method_strip (dict_get q (py "question") (VStr [])))
      as [a|]; [|discriminate].
    destruct (method_strip (dict_get q (py "input") (VStr [])))
      as [b|]; [|discriminate].
    destruct (method_strip (dict_get q (py "output") (VStr [])))
      as [c|]; [|discriminate].
    repeat match goal with
           | |- context [method_strip ?v] => destruct (method_strip v)
           end; try discriminate.
    intros [= <-].
    assert (C : truthy a && (truthy b && (truthy c && true)) = false).
    { destruct H as [[= ->]|[[= ->]|[= ->]]]; cbn;
        rewrite ?andb_false_r; reflexivity. }
    unfold conforms, field_nonempty. cbn. cbn in C. rewrite C. reflexivity.
  - right. apply coding_validated_raises in E. now subst.
Qed.

Lemma conforms_mcq_validated (t d : str) (q : dict) (i : Z) :
  conforms MCQ (mcq_validated t d q i)
  = truthy (dict_get q (py "question") (VStr []))
    && truthy (dict_get q (py "options") (VDict [])).
Proof.
  unfold conforms, field_nonempty. cbn [mandatory_fields forallb].
  rewrite andb_true_r. reflexivity.
Qed.

Lemma conforms_fillup_validated (t d : str) (q : dict) (i : Z) :
  conforms FILLUP (fillup_validated t d q i)
  = truthy (dict_get q (py "question") (VStr []))
    && truthy (dict_get q (py "correct_word") (VStr [])).
Proof.
  unfold conforms, field_nonempty. cbn [mandatory_fields forallb].
  rewrite andb_true_r. reflexivity.
Qed.

(** What holds of the trimming, on the loop bodies.  A whitespace-only
    [question] (with non-empty [options]) does not stop an MCQ element
    from being kept, nor does a whitespace-only [question] or
    [correct_word] stop a fill-up element whose other mandatory field
    is non-empty.  A coding element whose [question], [input] or
    [output] is whitespace-only is never kept: the loop leaves
    [valid_questions] as it was when the element's text fields are
    strings, and otherwise raises. *)
Lemma only_the_coding_kind_trims
    (topic difficulty : str) (q : dict) (i : Z) (s : str)
    (valid_questions : list dict) :
  whitespace_only s ->
  (dict_lookup (py "question") q = Some (VStr s) ->
   truthy (dict_get q (py "options") (VDict [])) = true ->
   mcq_step topic difficulty (VDict q) i valid_questions
   = Ok (valid_questions ++ [mcq_validated topic difficulty q i]))
  /\ (dict_lookup (py "question") q = Some (VStr s) ->
      truthy (dict_get q (py "correct_word") (VStr [])) = true ->
      fillup_step topic difficulty (VDict q) i valid_questions
      = Ok (valid_questions ++ [fillup_validated topic difficulty q i]))
  /\ (dict_lookup (py "correct_word") q = Some (VStr s) ->
      truthy (dict_get q (py "question") (VStr [])) = true ->
      fillup_step topic difficulty (VDict q) i valid_questions
      = Ok (valid_questions ++ [fillup_validated topic difficulty q i]))
  /\ (dict_lookup (py "question") q = Some (VStr s)
      \/ dict_lookup (py "input") q = Some (VStr s)
      \/ dict_lookup (py "output") q = Some (VStr s) ->
      (coding_step topic difficulty (VDict q) i valid_questions
       = Ok valid_questions
       \/ coding_step topic difficulty (VDict q) i valid_questions
          = Raise AttributeError)
      /\ (text_fields_are_str q ->
          coding_step topic difficulty (VDict q) i valid_questions
          = Ok valid_questions)).
Proof.
  intros Hs. pose proof (truthy_whitespace_only s Hs) as Ht.
  pose proof (strip_whitespace_only s Hs) as Hstrip.
  repeat split.
  - intros Hq Ho. rewrite mcq_step_spec. unfold kept_of. cbn [fst snd].
    cbv zeta. rewrite conforms_mcq_validated.
    rewrite (dict_get_lookup _ _ _ _ Hq), Ht, Ho. reflexivity.
  - intros Hq Ho. rewrite fillup_step_spec. unfold kept_of. cbn [fst snd].
    cbv zeta. rewrite conforms_fillup_validated.
    rewrite (dict_get_lookup _ _ _ _ Hq), Ht, Ho. reflexivity.
  - intros Hq Ho. rewrite fillup_step_spec. unfold kept_of. cbn [fst snd].
    cbv zeta. rewrite conforms_fillup_validated.
    rewrite (dict_get_lookup _ _ _ _ Hq), Ht, Ho. reflexivity.
  - apply coding_step_drops.
    destruct H as [H|[H|H]]; [left|right; left|right; right];
      rewrite (dict_get_lookup _ _ _ _ H); cbn [method_strip];
      now rewrite Hstrip.
  - intros Hq.
    destruct (coding_step_drops topic difficulty q i valid_questions)
      as [E|E]; trivial.
    + destruct H as [H|[H|H]]; [left|right; left|right; right];
        rewrite (dict_get_lookup _ _ _ _ H); cbn [method_strip];
        now rewrite Hstrip.
    + rewrite coding_step_spec in E by exact Hq. discriminate.
Qed.

Example only_the_coding_kind_trims_on_a_blank_question :
  let blank : str := [32; 9; 160]%N in
  let q : dict :=
    [ (py "question", VStr blank);
      (py "options", VDict [(py "A", VStr (py "def"))]);
      (py "correct_word", VStr (py "def"));
      (py "input", VStr (py "a name"));
      (py "output", VStr (py "a greeting")) ] in
  whitespace_only blank
  /\ mcq_step (py "Python") (py "easy") (VDict q) 1 []
     = Ok [mcq_validated (py "Python") (py "easy") q 1]
  /\ fillup_step (py "Python") (py "easy") (VDict q) 1 []
     = Ok [fillup_validated (py "Python") (py "easy") q 1]
  /\ coding_step (py "Python") (py "easy") (VDict q) 1 [] = Ok [].
Proof.
  intros blank q.
  assert (Hb : whitespace_only blank) by (split; [discriminate|reflexivity]).
  pose proof (only_the_coding_kind_trims (py "Python") (py "easy") q 1
                blank [] Hb) as (Hm & Hf & _ & Hc).
  split; [exact Hb|].
  split; [apply Hm; reflexivity|].
  split; [apply Hf; reflexivity|].
  apply Hc; [left; reflexivity|].
  intros k v Hin Hk. cbn in Hin.
  repeat (destruct Hin as [<-|Hin];
          [vm_compute in Hk; first [discriminate | injection Hk as <-];
           eexists; reflexivity|]).
  destruct Hin.
Qed.

(** C10.  The claim fails for the coding kind: a coding element whose
    [question] is whitespace-only is not dropped when another of its
    text fields is no string.  Here the second element has a blank
    [question] and the number 5 under [constraints]: the
    specification's Stage C drops it and keeps the first element, the
    code raises [AttributeError] on it and returns nothing. *)
Theorem blank_coding_question_raises_instead_of_dropping :
  let raw :=
    jtext "[{'question': 'Q1', 'input': 'I1', 'output': 'O1'}, {'question': '  ', 'input': 'I2', 'output': 'O2', 'constraints': 5}]" in
  exists e1 e2,
    json_loads parser_depth (_extract_json raw)
    = Ok (VList [VDict e1; VDict e2])
    /\ dict_lookup (py "question") e2 = Some (VStr (py "  "))
    /\ whitespace_only (py "  ")
    /\ spec_stage_c CODING (coding_canonical (py "Python") (py "easy"))
         [VDict e1; VDict e2]
       = [coding_canonical (py "Python") (py "easy") e1 1]
    /\ coding_step (py "Python") (py "easy") (VDict e2) 2
         [coding_canonical (py "Python") (py "easy") e1 1]
       = Raise AttributeError
    /\ _parse_coding raw (py "Python") (py "easy") 5 = Raise AttributeError.
Proof.
  intros raw. do 2 eexists. split; [vm_compute; reflexivity|].
  split; [reflexivity|]. split; [split; [discriminate|reflexivity]|].
  repeat split; vm_compute; reflexivity.
Qed.

(** The same on whole texts: the blank question is returned by the MCQ
    parser and sends the coding parser to its placeholders. *)
Example blank_question_through_the_parsers :
  let raw :=
    jtext "[{'question': '  ', 'options': {'A': 'def'}, 'input': 'a name', 'output': 'a greeting'}]" in
  (exists r, _parse_mcq raw (py "Python") (py "easy") 1 = Ok [r]
             /\ dict_lookup (py "question") r = Some (VStr (py "  ")))
  /\ _parse_coding raw (py "Python") (py "easy") 1
     = Ok (_generate_fallback_coding (py "Python") (py "easy") 1).
Proof.
  intros raw. split; [eexists; split|]; vm_compute; reflexivity.
Qed.

(* ================================================================== *)
(** * Trimming, again *)
(* ================================================================== *)

Lemma lstrip_head (s : str) (c : char) (r : str) :
  lstrip s = c :: r -> isspace c = false.
Proof.
  induction s as [|x s IH]; simpl; [discriminate|].
  destruct (isspace x) eqn:E; [exact IH|].
  intros [= <- <-]. exact E.
Qed.

Lemma lstrip_suffix (s : str) : exists ws, s = ws ++ lstrip s.
Proof.
  induction s as [|x s [ws IH]]; simpl; [now exists []|].
  destruct (isspace x).
  - exists (x :: ws). simpl. now rewrite <- IH.
  - now exists [].
Qed.

Lemma lstrip_fixed (c : char) (s : str) :
  isspace c = false -> lstrip (c :: s) = c :: s.
Proof. intros H. simpl. now rewrite H. Qed.

Lemma last_app_singleton (l : str) (c d : char) : last (l ++ [c]) d = c.
Proof.
  induction l as [|x l IH]; [reflexivity|].
  simpl. destruct (l ++ [c]) eqn:E; [now destruct l|exact IH].
Qed.

(** [strip] returns a string without leading or trailing whitespace. *)
Lemma strip_trimmed (s : str) : trimmed (strip s).
Proof.
  unfold strip, rstrip.
  destruct (lstrip (rev (lstrip s))) as [|c u] eqn:E; [exact I|].
  pose proof (lstrip_head _ _ _ E) as Hc.
  destruct (lstrip_suffix (rev (lstrip s))) as [ws Hws]. rewrite E in Hws.
  assert (Hl : lstrip s = rev u ++ c :: rev ws).
  { rewrite <- (rev_involutive (lstrip s)), Hws.
    rewrite rev_app_distr. simpl. now rewrite <- app_assoc. }
  cbn [rev]. unfold trimmed.
  destruct (rev u ++ [c]) as [|x t] eqn:K; [exact I|].
  split.
  - destruct (rev u) as [|y v] eqn:R; simpl in K.
    + injection K as <- <-. exact Hc.
    + injection K as <- <-. simpl in Hl. now apply lstrip_head in Hl.
  - rewrite <- K. rewrite last_app_singleton. exact Hc.
Qed.

(** On such a string it does nothing. *)
Lemma strip_of_trimmed (s : str) : trimmed s -> strip s = s.
Proof.
  destruct s as [|c s]; [reflexivity|]. intros [Hc Hl].
  unfold strip, rstrip. rewrite (lstrip_fixed c s Hc).
  destruct (rev (c :: s)) as [|x t] eqn:E.
  - apply (f_equal (@length _)) in E. rewrite length_rev in E. discriminate.
  - assert (Hx : x = last (c :: s) c).
    { rewrite <- (rev_involutive (c :: s)), E. simpl.
      now rewrite last_app_singleton. }
    rewrite lstrip_fixed by (now rewrite Hx).
    now rewrite <- E, rev_involutive.
Qed.

Lemma strip_idempotent (s : str) : strip (strip s) = strip s.
Proof. apply strip_of_trimmed, strip_trimmed. Qed.

(* ================================================================== *)
(** * Further properties of the parsers *)
(* ================================================================== *)

Lemma coding_validated_fields (t d : str) (q : dict) (i : Z) (r : dict) :
  coding_validated t d q i = Ok r ->
  exists sq si so sc se,
    r = [ (py "id", dict_get q (py "id") (VInt i));
          (py "topic", dict_get q (py "topic") (VStr t));
          (py "difficulty", dict_get q (py "difficulty") (VStr d));
          (py "type", VStr (py "coding"));
          (py "question", VStr (strip sq));
          (py "input", VStr (strip si));
          (py "output", VStr (strip so));
          (py "constraints", VStr (strip sc));
          (py "expected_output_example", VStr (strip se));
          (py "time_limit_seconds",
            dict_get q (py "time_limit_seconds") (VInt 120)) ].
Proof.
  unfold coding_validated, bind.
  repeat match goal with
         | |- context [method_strip ?v] =>
             destruct v; cbn [method_strip]; try discriminate
         end.
  intros [= <-]. do 5 eexists. reflexivity.
Qed.

(** X1.  Every coding record that [_parse_coding] keeps from a parsed
    element has its five text fields present as strings without leading
    or trailing whitespace; the only other lists it returns are the
    placeholders. *)
Theorem kept_coding_records_are_trimmed `{Interpreter}
    (raw topic difficulty : str) (count : Z) (l : list dict) :
  _parse_coding raw topic difficulty count = Ok l ->
  l = _generate_fallback_coding topic difficulty count
  \/ Forall (fun r => forall k, In k coding_text_fields ->
                        exists s, dict_lookup k r = Some (VStr s)
                                  /\ trimmed s) l.
Proof.
  intros E0.
  destruct (parse_coding_cases raw topic difficulty count)
    as [E | [[_ E] | [E | (parsed & valid & _ & Hv & _ & E)]]];
    rewrite E in E0; [discriminate|discriminate| |];
    injection E0 as <-; [now left|].
  right. apply Forall_slice_to.
  destruct (coding_loop_cases topic difficulty
              (fun r => forall k, In k coding_text_fields ->
                          exists s, dict_lookup k r = Some (VStr s)
                                    /\ trimmed s))
    with (parsed := parsed) (i := 1) (acc := @nil dict)
    as [E'|(l & E' & Hl & _)]; try congruence; [|constructor].
  intros q i r Hr _ k Hk.
  destruct (coding_validated_fields _ _ _ _ _ Hr)
    as (sq & si & so & sc & se & ->).
  cbn in Hk.
  repeat (destruct Hk as [<-|Hk];
          [eexists; split; [reflexivity|apply strip_trimmed]|]).
  destruct Hk.
Qed.

Lemma kept_coding_records_are_trimmed_witness :
  exists r,
    _parse_coding
      (jtext "[{'question': '  Reverse a list ', 'input': ' a list', 'output': 'the reversed list  '}]")
      (py "Python") (py "easy") 1
    = Ok [r]
    /\ dict_lookup (py "question") r = Some (VStr (py "Reverse a list"))
    /\ forall k, In k coding_text_fields ->
         exists s, dict_lookup k r = Some (VStr s) /\ trimmed s.
Proof.
  assert (E : exists r,
             _parse_coding
               (jtext "[{'question': '  Reverse a list ', 'input': ' a list', 'output': 'the reversed list  '}]")
               (py "Python") (py "easy") 1
             = Ok [r]
             /\ dict_lookup (py "question") r
                = Some (VStr (py "Reverse a list")))
    by (eexists; split; vm_compute; reflexivity).
  destruct E as (r & E & Q). exists r. split; [exact E|]. split; [exact Q|].
  destruct (kept_coding_records_are_trimmed _ _ _ _ _ E) as [F|F].
  - rewrite F in E. vm_compute in E. discriminate.
  - exact (Forall_inv F).
Defined.

Lemma mcq_validated_idempotent (t d t' d' : str) (q : dict) (i j : Z) :
  mcq_validated t' d' (mcq_validated t d q i) j = mcq_validated t d q i.
Proof. reflexivity. Qed.

Lemma fillup_validated_idempotent (t d t' d' : str) (q : dict) (i j : Z) :
  fillup_validated t' d' (fillup_validated t d q i) j
  = fillup_validated t d q i.
Proof. reflexivity. Qed.

Lemma coding_validated_idempotent (t d t' d' : str) (q : dict) (i j : Z)
    (r : dict) :
  coding_validated t d q i = Ok r -> coding_validated t' d' r j = Ok r.
Proof.
  intros H. destruct (coding_validated_fields _ _ _ _ _ H)
    as (sq & si & so & sc & se & ->).
  unfold coding_validated.
  change (dict_get _ (py "question") (VStr [])) with (VStr (strip sq)).
  change (dict_get _ (py "input") (VStr [])) with (VStr (strip si)).
  change (dict_get _ (py "output") (VStr [])) with (VStr (strip so)).
  change (dict_get _ (py "constraints") (VStr [])) with (VStr (strip sc)).
  change (dict_get _ (py "expected_output_example") (VStr []))
    with (VStr (strip se)).
  cbn [method_strip bind]. rewrite !strip_idempotent. reflexivity.
Qed.

(** Stage C returns its own output unchanged. *)
Lemma mcq_loop_on_kept (t' d' : str) (l : list dict) :
  Forall (fun r => conforms MCQ r = true
                   /\ forall j, mcq_validated t' d' r j = r) l ->
  forall i acc, mcq_loop t' d' (List.map VDict l) i acc = Ok (acc ++ l).
Proof.
  induction 1 as [|r l [C V] _ IH]; intros i acc;
    cbn [List.map mcq_loop].
  - now rewrite app_nil_r.
  - rewrite mcq_step_spec. unfold kept_of. cbn [fst snd bind]. cbv zeta.
    rewrite V, C. rewrite IH. now rewrite <- app_assoc.
Qed.

Lemma fillup_loop_on_kept (t' d' : str) (l : list dict) :
  Forall (fun r => conforms FILLUP r = true
                   /\ forall j, fillup_validated t' d' r j = r) l ->
  forall i acc, fillup_loop t' d' (List.map VDict l) i acc = Ok (acc ++ l).
Proof.
  induction 1 as [|r l [C V] _ IH]; intros i acc;
    cbn [List.map fillup_loop].
  - now rewrite app_nil_r.
  - rewrite fillup_step_spec. unfold kept_of. cbn [fst snd bind]. cbv zeta.
    rewrite V, C. rewrite IH. now rewrite <- app_assoc.
Qed.

Lemma coding_loop_on_kept (t' d' : str) (l : list dict) :
  Forall (fun r => conforms CODING r = true
                   /\ forall j, coding_validated t' d' r j = Ok r) l ->
  forall i acc, coding_loop t' d' (List.map VDict l) i acc = Ok (acc ++ l).
Proof.
  induction 1 as [|r l [C V] _ IH]; intros i acc;
    cbn [List.map coding_loop].
  - now rewrite app_nil_r.
  - unfold coding_step. rewrite V. cbn [bind].
    rewrite (coding_check_validated _ _ _ _ _ (V i)). cbn [bind].
    rewrite C. rewrite IH. now rewrite <- app_assoc.
Qed.

Lemma spec_stage_c_kept (k : QuestionType) (canonical : dict -> Z -> dict)
    (P : dict -> Prop) (parsed : list value) :
  (forall q i, conforms k (canonical q i) = true -> P (canonical q i)) ->
  Forall P (spec_stage_c k canonical parsed).
Proof.
  intros HP. unfold spec_stage_c. generalize 1.
  induction parsed as [|v parsed IH]; intros i; simpl; [constructor|].
  apply Forall_app. split; [|apply IH].
  unfold kept_of. destruct (snd (i, v)); try constructor.
  cbv zeta. destruct (conforms k _) eqn:C; repeat constructor.
  now apply HP.
Qed.

(** X2.  Stage C is idempotent.  A list returned by [_parse_mcq] or
    [_parse_fillup] (placeholders included), given back to the loop as a
    decoded array under any topic, difficulty and start position, comes
    out unchanged; so does the list the loop of [_parse_coding] kept. *)
Theorem stage_c_is_idempotent `{Interpreter}
    (raw topic difficulty topic' difficulty' : str) (count i : Z) :
  (forall l, _parse_mcq raw topic difficulty count = Ok l ->
             mcq_loop topic' difficulty' (List.map VDict l) i [] = Ok l)
  /\ (forall l, _parse_fillup raw topic difficulty count = Ok l ->
                fillup_loop topic' difficulty' (List.map VDict l) i []
                = Ok l)
  /\ (forall parsed valid,
         coding_loop topic difficulty parsed 1 [] = Ok valid ->
         coding_loop topic' difficulty' (List.map VDict valid) i []
         = Ok valid).
Proof.
  repeat split.
  - intros l E.
    apply (mcq_loop_on_kept topic' difficulty' _) with (acc := @nil dict).
    destruct (parse_mcq_cases raw topic difficulty count l E)
      as [-> | [(parsed & _ & _ & ->) | (q & _ & C & ->)]].
    + apply Forall_map_intro. intros n. split; reflexivity.
    + apply spec_stage_c_kept. intros q n C. split; [exact C|reflexivity].
    + repeat constructor. exact C.
  - intros l E.
    apply (fillup_loop_on_kept topic' difficulty' _)
      with (acc := @nil dict).
    destruct (parse_fillup_cases raw topic difficulty count l E)
      as [-> | [(parsed & _ & _ & ->) | (q & _ & C & ->)]].
    + apply Forall_map_intro. intros n. split; reflexivity.
    + apply spec_stage_c_kept. intros q n C. split; [exact C|reflexivity].
    + repeat constructor. exact C.
  - intros parsed valid E.
    apply (coding_loop_on_kept topic' difficulty' _) with (acc := @nil dict).
    destruct (coding_loop_cases topic difficulty
                (fun r => conforms CODING r = true
                          /\ forall j,
                               coding_validated topic' difficulty' r j
                               = Ok r))
      with (parsed := parsed) (i := 1) (acc := @nil dict)
      as [E'|(l & E' & Hl & _)]; try congruence; [|constructor].
    intros q n r Hr C. split; [exact C|].
    intros j.
    exact (coding_validated_idempotent topic difficulty topic' difficulty'
             q n j r Hr).
Qed.

Lemma stage_c_is_idempotent_witness :
  exists r1 r2,
    coding_loop (py "Python") (py "easy")
      [VDict [(py "question", VStr (py " Q1 ")); (py "input", VStr (py "I"));
              (py "output", VStr (py "O"))];
       VStr (py "noise");
       VDict [(py "question", VStr (py "Q2")); (py "input", VStr (py "I"));
              (py "output", VStr (py "O")); (py "id", VInt 9)]] 1 []
    = Ok [r1; r2]
    /\ coding_loop (py "Go") (py "hard") [VDict r1; VDict r2] 5 []
       = Ok [r1; r2].
Proof.
  do 2 eexists.
  assert (H : coding_loop (py "Python") (py "easy")
      [VDict [(py "question", VStr (py " Q1 ")); (py "input", VStr (py "I"));
              (py "output", VStr (py "O"))];
       VStr (py "noise");
       VDict [(py "question", VStr (py "Q2")); (py "input", VStr (py "I"));
              (py "output", VStr (py "O")); (py "id", VInt 9)]] 1 []
      = Ok _) by (vm_compute; reflexivity).
  split; [exact H|].
  exact (proj2 (proj2 (stage_c_is_idempotent [] (py "Python") (py "easy")
                         (py "Go") (py "hard") 1 5)) _ _ H).
Defined.

(** X3.  A text that decodes to a single object is parsed like the
    text that decodes to the array of that one object, by each of the
    three parsers. *)
Theorem single_object_is_an_array_of_one `{Interpreter}
    (raw1 raw2 topic difficulty : str) (count : Z) (q : dict) :
  json_loads parser_depth (_extract_json raw1) = Ok (VDict q) ->
  json_loads parser_depth (_extract_json raw2) = Ok (VList [VDict q]) ->
  _parse_mcq raw1 topic difficulty count
  = _parse_mcq raw2 topic difficulty count
  /\ _parse_fillup raw1 topic difficulty count
     = _parse_fillup raw2 topic difficulty count
  /\ _parse_coding raw1 topic difficulty count
     = _parse_coding raw2 topic difficulty count.
Proof.
  intros H1 H2.
  unfold _parse_mcq, _parse_fillup, _parse_coding,
    mcq_body, fillup_body, coding_body.
  rewrite H1, H2. cbn [bind mcq_loop fillup_loop].
  rewrite mcq_step_spec, fillup_step_spec. unfold kept_of.
  cbn [fst snd bind app]. cbv zeta.
  rewrite mcq_check_validated, fillup_check_validated. cbn [bind].
  repeat split.
  - destruct (conforms MCQ _); reflexivity.
  - destruct (conforms FILLUP _); reflexivity.
Qed.

Lemma single_object_is_an_array_of_one_witness :
  _parse_mcq (jtext "Sure: {'question': 'Q', 'options': {'A': 'x'}}")
    (py "Go") (py "easy") 3
  = _parse_mcq (jtext "[{'question': 'Q', 'options': {'A': 'x'}}]")
      (py "Go") (py "easy") 3.
Proof.
  refine (proj1 (single_object_is_an_array_of_one _ _ _ _ _ _ _ _));
    vm_compute; reflexivity.
Defined.

(* ================================================================== *)
(** * Further properties of the entry points *)
(* ================================================================== *)

Lemma parse_empty_text `{Interpreter} (t d : str) (count : Z) :
  _parse_mcq [] t d count = Ok (_generate_fallback_mcq t d count)
  /\ _parse_fillup [] t d count = Ok (_generate_fallback_fillup t d count)
  /\ _parse_coding [] t d count = Ok (_generate_fallback_coding t d count).
Proof. repeat split. Qed.


(** X5.  A reply with status 200 whose body is an object without a
    [response] key, or with an empty one, gives exactly the [count]
    placeholders of the kind, once the progress line is printed. *)
Theorem empty_response_gives_the_placeholders `{Interpreter}
    (text : str) (body : dict) (topic difficulty : str) (count : Z) :
  json_loads response_depth text = Ok (VDict body) ->
  dict_get body (py "response") (VStr []) = VStr [] ->
  generate_mcq (Responded 200 text) topic difficulty count
  = (done <- print (progress_line topic difficulty) ;;
     Ok (_generate_fallback_mcq topic difficulty count))
  /\ generate_fillup (Responded 200 text) topic difficulty count
     = (done <- print (progress_line topic difficulty) ;;
        Ok (_generate_fallback_fillup topic difficulty count))
  /\ generate_coding (Responded 200 text) topic difficulty count
     = (done <- print (progress_line topic difficulty) ;;
        Ok (_generate_fallback_coding topic difficulty count)).
Proof.
  intros Hb Hr.
  unfold generate_mcq, generate_fillup, generate_coding, _call_ollama.
  change (200 =? 200) with true. cbn [negb]. rewrite Hb.
  cbn [bind try_except]. rewrite Hr. cbn [as_text bind].
  destruct (parse_empty_text topic difficulty count) as (-> & -> & ->).
  repeat split.
Qed.

Lemma empty_response_gives_the_placeholders_witness :
  generate_fillup (Responded 200 (jtext "{'model': 'gemma3:4b', 'done': true}"))
    (py "SQL") (py "medium") 2
  = Ok (_generate_fallback_fillup (py "SQL") (py "medium") 2).
Proof.
  refine (proj1 (proj2 (empty_response_gives_the_placeholders
                          (jtext "{'model': 'gemma3:4b', 'done': true}")
                          _ (py "SQL") (py "medium") 2 _ _)));
    vm_compute; reflexivity.
Defined.

Lemma init_on_a_response (url : str) (status : Z) (text : str) :
  exists gen, __init__ url (Responded status text) = Ok gen
              /\ ollama_url gen = url
              /\ model gen = py "gemma3:4b".
Proof.
  unfold __init__, test_connection, try_except.
  destruct (status =? 200); cbn [bind]; eexists; repeat split.
Qed.

(** X6.  [test_connection] returns [True] on status 200 and [None],
    never [False], on any other status; it raises what the request
    raises.  [__init__] does not look at the value, so it returns the
    generator, with the model ["gemma3:4b"], whenever the server
    answered, whatever the status. *)
Theorem the_probe_accepts_any_response (url : str) :
  (forall text, test_connection (Responded 200 text) = Ok (VBool true))
  /\ (forall status text,
         status <> 200 ->
         test_connection (Responded status text) = Ok VNone)
  /\ test_connection TimedOut = Raise Timeout
  /\ test_connection Unreachable = Raise ConnectionError
  /\ (forall status text,
         __init__ url (Responded status text)
         = Ok {| ollama_url := url;
                 model := py "gemma3:4b";
                 temperature := FDec 3 (-1) |})
  /\ __init__ url TimedOut = Raise Timeout
  /\ __init__ url Unreachable = Raise ConnectionError.
Proof.
  repeat split.
  - intros status text Hne. unfold test_connection, try_except.
    apply Z.eqb_neq in Hne. now rewrite Hne.
  - intros status text. unfold __init__, test_connection, try_except.
    destruct (status =? 200); reflexivity.
Qed.

Lemma the_probe_accepts_any_response_witness :
  test_connection (Responded 500 (py "Internal Server Error")) = Ok VNone
  /\ exists gen,
       __init__ default_ollama_url
         (Responded 500 (py "Internal Server Error"))
       = Ok gen
       /\ ollama_url gen = default_ollama_url
       /\ model gen = py "gemma3:4b".
Proof.
  destruct (the_probe_accepts_any_response default_ollama_url)
    as (_ & Hn & _ & _ & Hi & _).
  split.
  - apply Hn. discriminate.
  - eexists. split; [apply Hi|]. split; reflexivity.
Defined.

(* ================================================================== *)
(** * The test script *)
(* ================================================================== *)

Lemma generation_test_errors
    (generate : post_outcome -> result (list dict))
    (body : value -> result unit) (kind : str)
    (probe reply : post_outcome) (elapsed : value) :
  (forall l, body (VList l) = Raise TypeError) ->
  generation_test generate body kind probe reply elapsed <> Passed
  /\ forall gen generated,
       __init__ default_ollama_url probe = Ok gen ->
       generate reply = Ok generated ->
       generation_test generate body kind probe reply elapsed
       = Errored TypeError.
Proof.
  intros Hb. unfold generation_test, test_bind.
  destruct (__init__ default_ollama_url probe) as [gen|e];
    [|split; [discriminate|intros; discriminate]].
  destruct (generate reply) as [generated|e];
    [|split; [discriminate|intros; discriminate]].
  cbn [for_each bind]. rewrite Hb. cbn [bind].
  split; [discriminate|reflexivity].
Qed.

(** X7.  The three generation tests cannot pass: each binds the pair
    returned by [generate_*] to [questions] and subscripts its first
    component, a list, with a string.  Whenever the generator is built
    and the generation returns, the test ends in [TypeError]. *)
Theorem generation_tests_cannot_pass `{Interpreter}
    (probe reply : post_outcome) (elapsed : value) :
  test_mcq_generation probe reply elapsed <> Passed
  /\ test_fillup_generation probe reply elapsed <> Passed
  /\ test_coding_generation probe reply elapsed <> Passed
  /\ ((exists status text, probe = Responded status text) ->
      (exists l, generate_mcq reply (py "Python Basics") (py "easy") 3
                 = Ok l) ->
      test_mcq_generation probe reply elapsed = Errored TypeError).
Proof.
  repeat split;
    try (apply generation_test_errors; intros l; reflexivity).
  intros (status & text & ->) [l Hl].
  destruct (init_on_a_response default_ollama_url status text)
    as (gen & Hg & _).
  unfold test_mcq_generation.
  eapply (proj2 (generation_test_errors _ _ _ (Responded status text)
                   reply elapsed (fun l => eq_refl))); eassumption.
Qed.

Lemma generation_tests_cannot_pass_witness :
  test_mcq_generation (Responded 200 [])
    (Responded 200
       (jtext "{'response': '[{\'question\': \'Q\', \'options\': {\'A\': \'x\'}}]'}"))
    (VFloat (FDec 125 (-2)))
  = Errored TypeError.
Proof.
  apply (proj2 (proj2 (proj2 (generation_tests_cannot_pass
                                (Responded 200 []) _ _)))).
  - do 2 eexists. reflexivity.
  - eexists. vm_compute. reflexivity.
Defined.

(* ================================================================== *)
(** * Further properties of the fallback generators *)
(* ================================================================== *)

Lemma py_injective (a b : string) : py a = py b -> a = b.
Proof.
  unfold py. intros H.
  rewrite <- (string_of_list_ascii_of_string a),
          <- (string_of_list_ascii_of_string b).
  f_equal. revert H.
  generalize (list_ascii_of_string a) (list_ascii_of_string b).
  intros la. induction la as [|x la IH]; intros [|y lb]; simpl;
    try discriminate; trivial.
  intros [= Hxy Hl]. f_equal; [|now apply IH].
  rewrite <- (ascii_N_embedding x), <- (ascii_N_embedding y).
  now rewrite Hxy.
Qed.

(** [str] of an integer determines the integer. *)
Lemma str_of_int_injective (a b : Z) : str_of_int a = str_of_int b -> a = b.
Proof.
  unfold str_of_int. intros H. apply py_injective in H.
  assert (K : forall z, NilZero.int_of_string
                          (NilZero.string_of_int (Z.to_int z))
                        = Some (Z.to_int z)).
  { intros z. apply NilZero.isi; intros E;
      pose proof (DecimalZ.of_to z) as O; rewrite E in O; cbn in O;
      subst z; discriminate. }
  apply (f_equal NilZero.int_of_string) in H. rewrite !K in H.
  injection H as H. now apply DecimalZ.to_int_inj.
Qed.

Lemma range_nth (n : Z) (k : nat) (i : Z) :
  nth_error (range n) k = Some i -> i = Z.of_nat k.
Proof.
  unfold range. rewrite nth_error_map.
  destruct (nth_error (seq 0 (Z.to_nat n)) k) as [m|] eqn:E;
    [|discriminate].
  intros [= <-].
  assert (L : (k < Z.to_nat n)%nat).
  { assert (L' : (k < length (seq 0 (Z.to_nat n)))%nat)
      by (apply nth_error_Some; congruence).
    now rewrite length_seq in L'. }
  apply nth_error_nth with (d := 0%nat) in E.
  rewrite seq_nth in E by trivial. lia.
Qed.

Lemma numbered_text_injective (a t b c : str) (i j : Z) :
  a ++ t ++ b ++ str_of_int (i + 1) ++ c
  = a ++ t ++ b ++ str_of_int (j + 1) ++ c -> i = j.
Proof.
  intros H. do 3 apply app_inv_head in H. apply app_inv_tail in H.
  apply str_of_int_injective in H. lia.
Qed.

Lemma numbered_question_injective (f : Z -> dict) (a t b c : str) :
  (forall i, record_question (f i)
             = Some (VStr (a ++ t ++ b ++ str_of_int (i + 1) ++ c))) ->
  forall i j, record_question (f i) = record_question (f j) -> i = j.
Proof.
  intros Hf i j H. rewrite !Hf in H.
  apply (numbered_text_injective a t b c). congruence.
Qed.

Lemma fallback_batch (f : Z -> dict) (count : Z) :
  (forall i, record_id (f i) = Some (VInt (i + 1))) ->
  (forall i j, record_question (f i) = record_question (f j) -> i = j) ->
  numbered_from_one (List.map f (range count))
  /\ distinct_questions (List.map f (range count)).
Proof.
  intros Hid Hq. split.
  - intros k r. rewrite nth_error_map.
    destruct (nth_error (range count) k) as [i|] eqn:E; [|discriminate].
    intros [= <-]. apply range_nth in E. subst i. apply Hid.
  - intros k1 k2 r1 r2. rewrite !nth_error_map.
    destruct (nth_error (range count) k1) as [i|] eqn:E1; [|discriminate].
    destruct (nth_error (range count) k2) as [j|] eqn:E2; [|discriminate].
    intros [= <-] [= <-] H. apply Hq in H.
    apply range_nth in E1, E2. lia.
Qed.

(** X8.  The placeholders of a batch are numbered 1, 2, ..., [count]
    in order, there are [max(count, 0)] of them, and no two of them have
    the same question text, for each of the three kinds. *)
Theorem placeholders_are_numbered_and_distinct
    (topic difficulty : str) (count : Z) :
  (length (_generate_fallback_mcq topic difficulty count) = Z.to_nat count
   /\ numbered_from_one (_generate_fallback_mcq topic difficulty count)
   /\ distinct_questions (_generate_fallback_mcq topic difficulty count))
  /\ (length (_generate_fallback_fillup topic difficulty count)
      = Z.to_nat count
      /\ numbered_from_one (_generate_fallback_fillup topic difficulty count)
      /\ distinct_questions
           (_generate_fallback_fillup topic difficulty count))
  /\ (length (_generate_fallback_coding topic difficulty count)
      = Z.to_nat count
      /\ numbered_from_one (_generate_fallback_coding topic difficulty count)
      /\ distinct_questions
           (_generate_fallback_coding topic difficulty count)).
Proof.
  split; [|split]; (split; [|apply fallback_batch]).
  - apply fallback_mcq_length.
  - reflexivity.
  - apply (numbered_question_injective _
             (py "What is an important concept in ") topic
             (py "? (Question ") (py ")")).
    intros i. reflexivity.
  - apply fallback_fillup_length.
  - reflexivity.
  - apply (numbered_question_injective _
             (py "In ") topic
             (py ", ___ is an important concept (Question ") (py ")")).
    intros i. reflexivity.
  - apply fallback_coding_length.
  - reflexivity.
  - apply (numbered_question_injective _
             (py "Write a function for ") topic
             (py " (Question ") (py ")")).
    intros i. reflexivity.
Qed.

(* ================================================================== *)
(** * The parsers as functions of the decoded array *)
(* ================================================================== *)

(** X9.  On a text that decodes to an array, [_parse_mcq] and
    [_parse_fillup] return exactly the elements the specification's
    Stage C keeps, in order, and the placeholders when it keeps none.
    When the text fields of the elements are strings and [count] is not
    negative, [_parse_coding] returns the first [count] of the elements
    Stage C keeps, and the placeholders when it keeps none. *)
Theorem parsers_on_a_decoded_array `{Interpreter}
    (raw topic difficulty : str) (count : Z) (parsed : list value) :
  json_loads parser_depth (_extract_json raw) = Ok (VList parsed) ->
  _parse_mcq raw topic difficulty count
  = Ok (match spec_stage_c MCQ (mcq_validated topic difficulty) parsed with
        | [] => _generate_fallback_mcq topic difficulty count
        | kept => kept
        end)
  /\ _parse_fillup raw topic difficulty count
     = Ok (match spec_stage_c FILLUP (fillup_validated topic difficulty)
                  parsed with
           | [] => _generate_fallback_fillup topic difficulty count
           | kept => kept
           end)
  /\ (Forall well_typed_element parsed -> 0 <= count ->
      _parse_coding raw topic difficulty count
      = Ok (match spec_stage_c CODING (coding_canonical topic difficulty)
                   parsed with
            | [] => _generate_fallback_coding topic difficulty count
            | kept => firstn (Z.to_nat count) kept
            end)).
Proof.
  intros E.
  rewrite parse_mcq_eq, parse_fillup_eq, E.
  repeat split.
  intros Hw Hc. unfold _parse_coding, coding_body. rewrite E. cbn [bind].
  rewrite coding_loop_spec by trivial. cbn [bind app].
  fold (spec_stage_c CODING (coding_canonical topic difficulty) parsed).
  destruct (spec_stage_c CODING _ parsed); [reflexivity|].
  cbn [bind try_except]. unfold slice_to.
  destruct (Z.leb_spec 0 count); [reflexivity|lia].
Qed.

Lemma parsers_on_a_decoded_array_witness :
  let raw :=
    jtext "Here you go: [{'question': 'Q1', 'input': 'I1', 'output': 'O1'}, {'question': 'Q2', 'input': '', 'output': 'O2'}, 7, {'question': 'Q3', 'input': 'I3', 'output': 'O3'}, {'question': 'Q4', 'input': 'I4', 'output': 'O4'}]" in
  exists r1 r3,
    _parse_coding raw (py "Python") (py "easy") 2 = Ok [r1; r3]
    /\ record_question r1 = Some (VStr (py "Q1"))
    /\ record_id r1 = Some (VInt 1)
    /\ record_question r3 = Some (VStr (py "Q3"))
    /\ record_id r3 = Some (VInt 4).
Proof.
  intros raw.
  assert (D : exists parsed,
             json_loads parser_depth (_extract_json raw) = Ok (VList parsed)
             /\ Forall well_typed_element parsed).
  { eexists. split; [vm_compute; reflexivity|].
    repeat constructor; intros k v Hin Hk; cbn in Hin;
      repeat (destruct Hin as [<-|Hin];
              [vm_compute in Hk; first [discriminate | injection Hk as <-];
               eexists; reflexivity|]);
      destruct Hin. }
  destruct D as (parsed & Hd & Hw).
  pose proof (proj2 (proj2 (parsers_on_a_decoded_array raw (py "Python")
                              (py "easy") 2 parsed Hd)) Hw ltac:(lia))
    as E.
  assert (Hp : json_loads parser_depth (_extract_json raw) = Ok _)
    by (vm_compute; reflexivity).
  rewrite Hp in Hd. injection Hd as <-.
  do 2 eexists. split; [rewrite E; vm_compute; reflexivity|].
  repeat split.
Defined.

(** X10.  With [count] 0 or negative the placeholders are the empty
    list, so a parser that falls back returns no record: on a malformed
    text [_parse_fillup] and [_parse_coding] return the empty list, and
    so does [_parse_mcq] once its handler has printed the raw output.
    With [count] 0 [_parse_coding] returns no record at all, also when
    elements were kept. *)
Theorem no_positive_count_no_guarantee `{Interpreter}
    (raw topic difficulty : str) (count : Z) :
  count <= 0 ->
  _generate_fallback_mcq topic difficulty count = []
  /\ _generate_fallback_fillup topic difficulty count = []
  /\ _generate_fallback_coding topic difficulty count = []
  /\ (forall l, _parse_coding raw topic difficulty 0 = Ok l -> l = [])
  /\ (json_loads parser_depth (_extract_json raw) = Raise JSONDecodeError ->
      _parse_mcq raw topic difficulty count
      = (done <- print (raw_output_line raw) ;; Ok [])
      /\ _parse_fillup raw topic difficulty count = Ok []
      /\ _parse_coding raw topic difficulty count = Ok []).
Proof.
  intros Hc.
  assert (R : range count = []).
  { unfold range. destruct count; try reflexivity. lia. }
  assert (Fm : _generate_fallback_mcq topic difficulty count = [])
    by (unfold _generate_fallback_mcq; now rewrite R).
  assert (Ff : _generate_fallback_fillup topic difficulty count = [])
    by (unfold _generate_fallback_fillup; now rewrite R).
  assert (Fc : _generate_fallback_coding topic difficulty count = [])
    by (unfold _generate_fallback_coding; now rewrite R).
  repeat split; trivial.
  - intros l E0.
    destruct (parse_coding_cases raw topic difficulty 0)
      as [E | [[_ E] | [E | (parsed & valid & _ & _ & _ & E)]]];
      rewrite E in E0; [discriminate|discriminate| |];
      injection E0 as <-; reflexivity.
  - rewrite parse_mcq_eq, H0, Fm. reflexivity.
  - rewrite parse_fillup_eq, H0, Ff. reflexivity.
  - unfold _parse_coding, coding_body. rewrite H0. cbn. now rewrite Fc.
Qed.

Lemma no_positive_count_no_guarantee_witness :
  _parse_coding
    (jtext "[{'question': 'Q1', 'input': 'I1', 'output': 'O1'}]")
    (py "Python") (py "easy") 0
  = Ok []
  /\ _parse_mcq (py "no JSON here") (py "Python") (py "easy") 0 = Ok [].
Proof.
  split.
  - destruct (no_positive_count_no_guarantee
                (jtext "[{'question': 'Q1', 'input': 'I1', 'output': 'O1'}]")
                (py "Python") (py "easy") 0 ltac:(lia))
      as (_ & _ & _ & Hz & _).
    destruct (_parse_coding _ _ _ 0) as [l|e] eqn:E.
    + f_equal. exact (Hz l eq_refl).
    + vm_compute in E. discriminate.
  - destruct (no_positive_count_no_guarantee
                (py "no JSON here") (py "Python") (py "easy") 0 ltac:(lia))
      as (_ & _ & _ & _ & He).
    destruct He as (Hm & _); [vm_compute; reflexivity|].
    rewrite Hm. reflexivity.
Defined.

(* ================================================================== *)
(** * The quality scores *)
(* ================================================================== *)

Lemma percentage_bounds (n : Z) (q : dict) (qs : list dict) :
  0 <= n <= Z.of_nat (length (q :: qs)) ->
  (0 <= percentage n (q :: qs) /\ percentage n (q :: qs) <= 100)%Q.
Proof.
  unfold percentage. cbn [length]. generalize (length qs). intros m.
  change (Z.of_nat (S m)) with (Z.pos (Pos.of_succ_nat m)).
  generalize (Pos.of_succ_nat m). intros p [H0 H1].
  unfold Qle, Qdiv, Qmult, Qinv, inject_Z. cbn. split; nia.
Qed.

Lemma percentage_none (qs : list dict) : (percentage 0 qs == 0)%Q.
Proof. unfold percentage, Qdiv. now rewrite !Qmult_0_l. Qed.

Lemma percentage_all (q : dict) (qs : list dict) :
  (percentage (Z.of_nat (length (q :: qs))) (q :: qs) == 100)%Q.
Proof.
  unfold percentage, Qdiv. rewrite Qmult_inv_r.
  - apply Qmult_1_l.
  - unfold Qeq, inject_Z. cbn [length Qnum Qden]. lia.
Qed.

Lemma fold_step_bounds (step : dict -> Z -> Z) (qs : list dict) :
  (forall q n, n <= step q n <= n + 1) ->
  forall n, n <= fold_left (fun n q => step q n) qs n
            <= n + Z.of_nat (length qs).
Proof.
  intros Hs. induction qs as [|q qs IH]; intros n; cbn [fold_left length].
  - lia.
  - specialize (IH (step q n)). specialize (Hs q n). lia.
Qed.

Lemma fold_step_all (step : dict -> Z -> Z) (qs : list dict) :
  Forall (fun q => forall n, step q n = n + 1) qs ->
  forall n, fold_left (fun n q => step q n) qs n = n + Z.of_nat (length qs).
Proof.
  induction 1 as [|q qs Hq _ IH]; intros n; cbn [fold_left length].
  - lia.
  - rewrite Hq, IH. lia.
Qed.

Lemma fold_step_none (step : dict -> Z -> Z) (qs : list dict) :
  Forall (fun q => forall n, step q n = n) qs ->
  forall n, fold_left (fun n q => step q n) qs n = n.
Proof.
  induction 1 as [|q qs Hq _ IH]; intros n; cbn [fold_left].
  - reflexivity.
  - now rewrite Hq, IH.
Qed.

Lemma mcq_quality_loop_all (qs : list dict) :
  Forall (fun q => forall n, mcq_quality_step q n = Ok (n + 1)) qs ->
  forall n, mcq_quality_loop qs n = Ok (n + Z.of_nat (length qs)).
Proof.
  induction 1 as [|q qs Hq _ IH]; intros n; cbn [mcq_quality_loop length].
  - f_equal. lia.
  - rewrite Hq. cbn [bind]. rewrite IH. f_equal. lia.
Qed.

Lemma mcq_quality_step_cases (q : dict) (n : Z) :
  (exists d, dict_get q (py "options") (VDict []) = VDict d
             /\ exists m, mcq_quality_step q n = Ok m /\ n <= m <= n + 1)
  \/ ((forall d, dict_get q (py "options") (VDict []) <> VDict d)
      /\ mcq_quality_step q n = Raise AttributeError).
Proof.
  unfold mcq_quality_step.
  destruct (dict_get q (py "options") (VDict [])) eqn:E;
    try (right; split; [discriminate|reflexivity]).
  left. exists d. split; trivial. cbn [method_values bind].
  eexists. split; [reflexivity|].
  destruct (_ && _); lia.
Qed.

Lemma mcq_quality_loop_cases (qs : list dict) :
  forall n,
    (Forall (fun q => exists d,
               dict_get q (py "options") (VDict []) = VDict d) qs
     /\ exists m, mcq_quality_loop qs n = Ok m
                  /\ n <= m <= n + Z.of_nat (length qs))
    \/ (Exists (fun q => forall d,
                  dict_get q (py "options") (VDict []) <> VDict d) qs
        /\ mcq_quality_loop qs n = Raise AttributeError).
Proof.
  induction qs as [|q qs IH]; intros n; cbn [mcq_quality_loop length].
  - left. split; [constructor|]. exists n. split; [reflexivity|lia].
  - destruct (mcq_quality_step_cases q n)
      as [(d & Hd & m & -> & Hm)|[Hd ->]]; cbn [bind].
    + destruct (IH m) as [(F & m' & -> & Hm')|[Ex ->]].
      * left. split; [constructor; eauto|].
        exists m'. split; [reflexivity|lia].
      * right. split; [now apply Exists_cons_tl|reflexivity].
    + right. split; [now apply Exists_cons_hd|reflexivity].
Qed.

(** X11.  The three quality scores lie between 0 and 100, and are 0 on
    the empty list.  [_score_fillup_quality] and [_score_coding_quality]
    always return; [_score_mcq_quality] returns unless a record holds
    something other than a mapping under [options], in which case it
    raises [AttributeError]. *)
Theorem quality_scores_are_percentages (questions : list dict) :
  ((exists s, _score_mcq_quality questions = Ok s /\ (0 <= s <= 100)%Q
              /\ Forall (fun q => exists d,
                           dict_get q (py "options") (VDict []) = VDict d)
                        questions)
   \/ (_score_mcq_quality questions = Raise AttributeError
       /\ Exists (fun q => forall d,
                    dict_get q (py "options") (VDict []) <> VDict d)
                 questions))
  /\ (0 <= _score_fillup_quality questions <= 100)%Q
  /\ (0 <= _score_coding_quality questions <= 100)%Q
  /\ (_score_mcq_quality [] = Ok 0%Q
      /\ _score_fillup_quality [] = 0%Q
      /\ _score_coding_quality [] = 0%Q).
Proof.
  destruct questions as [|q qs].
  - repeat split; try discriminate.
    left. exists 0%Q. repeat split; try discriminate. constructor.
  - split; [|split; [|split; [|repeat split]]].
    + unfold _score_mcq_quality.
      destruct (mcq_quality_loop_cases (q :: qs) 0)
        as [(F & m & -> & Hm)|[Ex ->]]; cbn [bind].
      * left. eexists. split; [reflexivity|]. split; trivial.
        apply percentage_bounds. lia.
      * right. now split.
    + unfold _score_fillup_quality. apply percentage_bounds.
      pose proof (fold_step_bounds fillup_quality_step (q :: qs)) as B.
      specialize (B (fun q n => ltac:(unfold fillup_quality_step;
                                     destruct (_ && _); lia)) 0).
      lia.
    + unfold _score_coding_quality. apply percentage_bounds.
      pose proof (fold_step_bounds coding_quality_step (q :: qs)) as B.
      specialize (B (fun q n => ltac:(unfold coding_quality_step;
                                     destruct (_ && _); lia)) 0).
      lia.
Qed.

(** An MCQ element whose [options] is a JSON array is kept by
    [_parse_mcq], and the score of the returned list raises. *)
Example score_of_a_kept_mcq_record_raises :
  exists l,
    _parse_mcq
      (jtext "[{'question': 'Pick one', 'options': ['def', 'fun'], 'correct_answer': 'A'}]")
      (py "Python") (py "easy") 1
    = Ok l
    /\ _score_mcq_quality l = Raise AttributeError.
Proof. eexists. split; vm_compute; reflexivity. Qed.

(** X12.  A batch of placeholders, of at least one record, scores 100
    for the MCQ and the fill-up kind and 0 for the coding kind, whose
    placeholders have neither [input] nor [output]. *)
Theorem placeholder_scores (topic difficulty : str) (count : Z) :
  1 <= count ->
  (exists s, _score_mcq_quality (_generate_fallback_mcq topic difficulty count)
             = Ok s /\ (s == 100)%Q)
  /\ (_score_fillup_quality
        (_generate_fallback_fillup topic difficulty count) == 100)%Q
  /\ (_score_coding_quality
        (_generate_fallback_coding topic difficulty count) == 0)%Q.
Proof.
  intros Hc.
  assert (R : exists i rest, range count = i :: rest).
  { unfold range. destruct (Z.to_nat count) eqn:E; [lia|].
    cbn. eauto. }
  destruct R as (i & rest & R).
  repeat split.
  - unfold _score_mcq_quality, _generate_fallback_mcq. rewrite R.
    cbn [List.map]. rewrite mcq_quality_loop_all.
    + cbn [bind]. eexists. split; [reflexivity|]. apply percentage_all.
    + constructor; [intros n; reflexivity|].
      apply Forall_map_intro. intros k n. reflexivity.
  - unfold _score_fillup_quality, _generate_fallback_fillup. rewrite R.
    cbn [List.map]. rewrite fold_step_all.
    + apply percentage_all.
    + constructor; [intros n; reflexivity|].
      apply Forall_map_intro. intros k n. reflexivity.
  - unfold _score_coding_quality, _generate_fallback_coding. rewrite R.
    cbn [List.map]. rewrite fold_step_none.
    + apply percentage_none.
    + constructor; [intros n; reflexivity|].
      apply Forall_map_intro. intros k n. reflexivity.
Qed.

Lemma placeholder_scores_witness :
  (_score_coding_quality
     (_generate_fallback_coding (py "Spring Boot Services") (py "hard") 2)
   == 0)%Q.
Proof.
  apply (placeholder_scores (py "Spring Boot Services") (py "hard") 2).
  lia.
Defined.

(* ================================================================== *)
(** * The benchmark loops *)
(* ================================================================== *)

Section BenchmarkLoops.

Context `{Interpreter} {T : Type}.
Variables (topic difficulty : str) (count : Z).

Lemma fillup_loop_from (calls : list (post_outcome * T)) :
  forall st : loop_state T,
    let g := fun reply => generate_fillup reply topic difficulty count in
    let st' :=
      fold_left
        (fun st call =>
           benchmark_fillup_iteration topic difficulty count call st)
        calls st in
    times st' = times st ++ List.map snd (filter (call_returned g) calls)
    /\ length (quality_scores st')
       = (length (quality_scores st)
          + length (filter (call_returned g) calls))%nat
    /\ collected st' = collected st ++ flat_map (call_added g) calls.
Proof.
  induction calls as [|call calls IH]; intros st; cbn [fold_left].
  - cbn. now rewrite !app_nil_r, Nat.add_0_r.
  - destruct (IH (benchmark_fillup_iteration topic difficulty count call st))
      as (Ht & Hq & Hc).
    cbv zeta. rewrite Ht, Hq, Hc.
    unfold benchmark_fillup_iteration, call_returned, call_added.
    cbn [filter flat_map].
    destruct (generate_fillup (fst call) topic difficulty count) as [qs|e];
      cbn [times quality_scores collected List.map length].
    + rewrite <- !app_assoc, length_app. cbn [length app].
      repeat split. lia.
    + repeat split.
Qed.

Lemma coding_loop_from (calls : list (post_outcome * T)) :
  forall st : loop_state T,
    let g := fun reply => generate_coding reply topic difficulty count in
    let st' :=
      fold_left
        (fun st call =>
           benchmark_coding_iteration topic difficulty count call st)
        calls st in
    times st' = times st ++ List.map snd (filter (call_returned g) calls)
    /\ length (quality_scores st')
       = (length (quality_scores st)
          + length (filter (call_returned g) calls))%nat
    /\ collected st' = collected st ++ flat_map (call_added g) calls.
Proof.
  induction calls as [|call calls IH]; intros st; cbn [fold_left].
  - cbn. now rewrite !app_nil_r, Nat.add_0_r.
  - destruct (IH (benchmark_coding_iteration topic difficulty count call st))
      as (Ht & Hq & Hc).
    cbv zeta. rewrite Ht, Hq, Hc.
    unfold benchmark_coding_iteration, call_returned, call_added.
    cbn [filter flat_map].
    destruct (generate_coding (fst call) topic difficulty count) as [qs|e];
      cbn [times quality_scores collected List.map length].
    + rewrite <- !app_assoc, length_app. cbn [length app].
      repeat split. lia.
    + repeat split.
Qed.

Lemma mcq_loop_from (calls : list (post_outcome * T)) :
  forall st : loop_state T,
    let g := fun reply => generate_mcq reply topic difficulty count in
    let st' :=
      fold_left
        (fun st call =>
           benchmark_mcq_iteration topic difficulty count call st)
        calls st in
    times st' = times st ++ List.map snd (filter (call_returned g) calls)
    /\ (length (quality_scores st')
        <= length (quality_scores st)
           + length (filter (call_returned g) calls))%nat
    /\ collected st'
       = collected st ++ flat_map (fun call => scored (call_added g call)) calls.
Proof.
  induction calls as [|call calls IH]; intros st; cbn [fold_left].
  - cbn. now rewrite !app_nil_r, Nat.add_0_r.
  - destruct (IH (benchmark_mcq_iteration topic difficulty count call st))
      as (Ht & Hq & Hc).
    cbv zeta. rewrite Ht, Hc. split; [|split].
    + unfold benchmark_mcq_iteration, call_returned. cbn [filter].
      destruct (generate_mcq (fst call) topic difficulty count) as [qs|e];
        [|reflexivity].
      destruct (_score_mcq_quality qs); cbn [times List.map];
        now rewrite <- app_assoc.
    + etransitivity; [exact Hq|].
      unfold benchmark_mcq_iteration, call_returned. cbn [filter].
      destruct (generate_mcq (fst call) topic difficulty count) as [qs|e];
        [|cbn; lia].
      destruct (_score_mcq_quality qs); cbn [quality_scores length];
        rewrite ?length_app; cbn [length]; lia.
    + unfold benchmark_mcq_iteration, call_added, scored. cbn [flat_map].
      destruct (generate_mcq (fst call) topic difficulty count) as [qs|e].
      * destruct (_score_mcq_quality qs); cbn [collected app];
          now rewrite <- ?app_assoc.
      * cbn. reflexivity.
Qed.

End BenchmarkLoops.

(** X13.  What the loops of [benchmark_fillup] and [benchmark_coding]
    build: [times] holds the elapsed times of exactly the iterations
    whose generation call returned, in order; [quality_scores] has one
    score for each of them; [self.results] is extended by the questions
    those calls returned, in order, and by nothing for an iteration that
    raised. *)
Theorem benchmark_loops_account_for_every_call `{Interpreter}
    {T : Type} (topic difficulty : str) (count : Z)
    (calls : list (post_outcome * T)) (results : list dict) :
  let gf := fun reply => generate_fillup reply topic difficulty count in
  let gc := fun reply => generate_coding reply topic difficulty count in
  let sf := benchmark_fillup_loop topic difficulty count calls results in
  let sc := benchmark_coding_loop topic difficulty count calls results in
  (times sf = List.map snd (filter (call_returned gf) calls)
   /\ length (quality_scores sf) = length (times sf)
   /\ collected sf = results ++ flat_map (call_added gf) calls)
  /\ (times sc = List.map snd (filter (call_returned gc) calls)
      /\ length (quality_scores sc) = length (times sc)
      /\ collected sc = results ++ flat_map (call_added gc) calls).
Proof.
  cbv zeta. split.
  - destruct (fillup_loop_from topic difficulty count calls
                {| times := []; quality_scores := []; collected := results |})
      as (Ht & Hq & Hc).
    unfold benchmark_fillup_loop, benchmark_loop.
    rewrite Ht, Hq, Hc. cbn [times quality_scores collected app length].
    now rewrite length_map.
  - destruct (coding_loop_from topic difficulty count calls
                {| times := []; quality_scores := []; collected := results |})
      as (Ht & Hq & Hc).
    unfold benchmark_coding_loop, benchmark_loop.
    rewrite Ht, Hq, Hc. cbn [times quality_scores collected app length].
    now rewrite length_map.
Qed.

(** X14.  The loop of [benchmark_mcq] records the elapsed time of every
    iteration whose generation call returned, but a score and the
    questions only when [_score_mcq_quality] returned on them: there are
    never more scores than times, and there can be fewer. *)
Theorem benchmark_mcq_loop_may_lose_scores `{Interpreter}
    {T : Type} (topic difficulty : str) (count : Z)
    (calls : list (post_outcome * T)) (results : list dict) :
  let g := fun reply => generate_mcq reply topic difficulty count in
  let st := benchmark_mcq_loop topic difficulty count calls results in
  times st = List.map snd (filter (call_returned g) calls)
  /\ (length (quality_scores st) <= length (times st))%nat
  /\ collected st
     = results ++ flat_map (fun call => scored (call_added g call)) calls.
Proof.
  cbv zeta.
  destruct (mcq_loop_from topic difficulty count calls
              {| times := []; quality_scores := []; collected := results |})
    as (Ht & Hq & Hc).
  unfold benchmark_mcq_loop, benchmark_loop.
  rewrite Ht, Hc. cbn [times quality_scores collected app length] in *.
  repeat split. rewrite length_map. exact Hq.
Qed.

(** One MCQ iteration in which the time is recorded and the score is
    not. *)
Example benchmark_mcq_loop_loses_a_score :
  let reply :=
    Responded 200
      (jtext "{'response': '[{\'question\': \'Pick one\', \'options\': [\'def\', \'fun\']}]'}") in
  let st := benchmark_mcq_loop (py "AWS VPC") (py "hard") 1 [(reply, 7%Z)] []
  in times st = [7%Z] /\ quality_scores st = [] /\ collected st = [].
Proof. vm_compute. repeat split. Qed.

(** X15.  An iteration whose generation call meets a per-call failure
    of the service leaves the three lists as they were; when every call
    of a benchmark fails so, the loops end with [times] empty, for which
    the [benchmark_*] methods return the empty summary, and with
    [self.results] unchanged. *)
Theorem failed_calls_leave_the_benchmark_empty `{Interpreter}
    {T : Type} (topic difficulty : str) (count : Z)
    (calls : list (post_outcome * T)) (results : list dict) :
  Forall (fun call => exists e, per_call_failure (fst call) = Some e) calls ->
  let nothing : loop_state T :=
    {| times := []; quality_scores := []; collected := results |} in
  benchmark_mcq_loop topic difficulty count calls results = nothing
  /\ benchmark_fillup_loop topic difficulty count calls results = nothing
  /\ benchmark_coding_loop topic difficulty count calls results = nothing.
Proof.
  intros Hf nothing.
  unfold benchmark_mcq_loop, benchmark_fillup_loop, benchmark_coding_loop,
    benchmark_loop. fold nothing. generalize nothing. clear nothing.
  induction Hf as [|call calls [e He] _ IH]; intros st; cbn [fold_left].
  - repeat split.
  - apply call_ollama_failure in He.
    unfold benchmark_mcq_iteration at 2,
      benchmark_fillup_iteration at 2,
      benchmark_coding_iteration at 2.
    unfold generate_mcq, generate_fillup, generate_coding.
    rewrite He. destruct (print _); cbn [bind]; apply IH.
Qed.

Lemma failed_calls_leave_the_benchmark_empty_witness :
  benchmark_coding_loop (py "Spring Boot Services") (py "hard") 2
    [(Responded 500 [], 3%Z); (TimedOut, 120%Z); (Responded 404 [], 1%Z)] []
  = {| times := []; quality_scores := []; collected := [] |}.
Proof.
  apply (failed_calls_leave_the_benchmark_empty
           (py "Spring Boot Services") (py "hard") 2
           [(Responded 500 [], 3%Z); (TimedOut, 120%Z);
            (Responded 404 [], 1%Z)] []).
  repeat constructor; eexists; reflexivity.
Defined.

(* ================================================================== *)
(** * Further properties of Stage A *)
(* ================================================================== *)

Lemma starts_with_app (p s : str) :
  starts_with p s = true <-> exists r, s = p ++ r.
Proof.
  revert s. induction p as [|x p IH]; intros s; simpl.
  - split; [intros _; now exists s|reflexivity].
  - destruct s as [|y s].
    + split; [discriminate|]. intros [r H]. discriminate.
    + rewrite andb_true_iff, N.eqb_eq, IH. split.
      * intros [-> [r ->]]. now exists r.
      * intros [r [= -> ->]]. split; [reflexivity|now exists r].
Qed.

Lemma occurs_in_cons (sub : str) (c : char) (s : str) :
  occurs_in sub s -> occurs_in sub (c :: s).
Proof. intros (p & q & ->). now exists (c :: p), q. Qed.

Lemma occurs_in_app (sub a s b : str) :
  occurs_in sub s -> occurs_in sub (a ++ s ++ b).
Proof.
  intros (p & q & ->). exists (a ++ p), (q ++ b).
  now rewrite <- !app_assoc.
Qed.

(** Where the literal does not occur, [re.sub] changes nothing. *)
Lemma re_sub_ws_no_occurrence (lit s : str) :
  ~ occurs_in lit s -> re_sub_ws lit s = s.
Proof.
  induction s as [|c s IH]; intros H; [reflexivity|].
  rewrite re_sub_ws_cons_miss.
  - f_equal. apply IH. intros O. now apply H, occurs_in_cons.
  - destruct (starts_with lit (c :: s)) eqn:E; [|reflexivity].
    exfalso. apply H. apply starts_with_app in E as [r ->].
    now exists [], r.
Qed.

(** A prefix without the first character of the literal is kept. *)
Lemma re_sub_ws_keep (h : char) (lit pre s : str) :
  ~ In h pre ->
  re_sub_ws (h :: lit) (pre ++ s) = pre ++ re_sub_ws (h :: lit) s.
Proof.
  induction pre as [|c pre IH]; intros H; [reflexivity|].
  cbn [app]. rewrite re_sub_ws_cons_miss.
  - f_equal. apply IH. intros I. apply H. now right.
  - cbn [starts_with]. destruct (N.eqb_spec h c) as [->|Hne];
      [|reflexivity].
    exfalso. apply H. now left.
Qed.

Lemma re_sub_ws_head_differs (h : char) (lit : str) (c : char) (s : str) :
  c <> h -> re_sub_ws (h :: lit) (c :: s) = c :: re_sub_ws (h :: lit) s.
Proof.
  intros H. apply re_sub_ws_cons_miss. cbn [starts_with].
  destruct (N.eqb_spec h c); [congruence|reflexivity].
Qed.

(** No fence is left by the second substitution. *)
Lemma re_sub_ws_leaves_no_fence (n : nat) :
  forall s, (length s <= n)%nat ->
            ~ occurs_in (py "```") (re_sub_ws (py "```") s).
Proof.
  change (py "```") with [96; 96; 96]%N.
  induction n as [|n IH]; intros s Hn (p & q & H).
  - destruct s; [|simpl in Hn; lia]. destruct p; discriminate.
  - destruct s as [|c s]; [destruct p; discriminate|]. simpl in Hn.
    destruct (starts_with [96; 96; 96]%N (c :: s)) eqn:E.
    + rewrite re_sub_ws_cons_hit in H by (trivial; discriminate).
      apply (IH (lstrip (skipn 3 (c :: s)))).
      * pose proof (lstrip_skipn_length 2 c s). lia.
      * now exists p, q.
    + rewrite re_sub_ws_cons_miss in H by trivial.
      destruct p as [|x p]; cbn [app] in H.
      * injection H as Hc H'. subst c.
        destruct s as [|d s]; [discriminate|].
        destruct (N.eqb_spec d 96) as [->|Hd].
        -- destruct s as [|e s].
           ++ rewrite re_sub_ws_cons_miss in H' by reflexivity.
              discriminate.
           ++ destruct (N.eqb_spec e 96) as [->|He].
              ** discriminate.
              ** assert (M : starts_with [96; 96; 96]%N (96%N :: e :: s)
                             = false).
                 { cbn [starts_with].
                   destruct (N.eqb_spec 96 e) as [K|K]; [congruence|].
                   reflexivity. }
                 rewrite (re_sub_ws_cons_miss _ _ _ M) in H'.
                 rewrite re_sub_ws_head_differs in H' by trivial.
                 injection H' as K _. congruence.
        -- rewrite re_sub_ws_head_differs in H' by trivial.
           injection H' as K _. congruence.
      * injection H as _ H'.
        apply (IH s); [lia|]. now exists p, q.
Qed.

Lemma strip_is_a_substring (s : str) : exists a b, s = a ++ strip s ++ b.
Proof.
  destruct (lstrip_suffix s) as [a Ha].
  destruct (lstrip_suffix (rev (lstrip s))) as [b Hb].
  exists a, (rev b). unfold strip, rstrip.
  apply (f_equal (@rev char)) in Hb.
  rewrite rev_involutive, rev_app_distr in Hb.
  rewrite Ha at 1. now rewrite <- Hb.
Qed.

(** The result of [_extract_json] is a piece of the text left by the
    two substitutions. *)
Lemma extract_json_is_a_substring (raw : str) :
  exists a b,
    re_sub_ws (py "```") (re_sub_ws (py "```json") raw)
    = a ++ _extract_json raw ++ b.
Proof.
  unfold _extract_json.
  destruct (re_search_bracketed _) as [m|] eqn:E.
  - destruct (re_search_bracketed_some _ _ E)
      as (pre & o & mid & c & post & Hs & _).
    now exists pre, post.
  - apply strip_is_a_substring.
Qed.

Lemma extract_json_no_fence (raw : str) :
  ~ occurs_in (py "```") (_extract_json raw).
Proof.
  intros O. destruct (extract_json_is_a_substring raw) as (a & b & H).
  apply (re_sub_ws_leaves_no_fence _ (re_sub_ws (py "```json") raw)
           (le_n _)).
  rewrite H. now apply occurs_in_app.
Qed.

(** X16.  The text [_extract_json] returns never contains a code
    fence: no three backquotes in a row are left in it. *)
Theorem extract_json_leaves_no_fence (raw_output : str) :
  ~ occurs_in (py "```") (_extract_json raw_output).
Proof. apply extract_json_no_fence. Qed.

Lemma upto_last_snoc (c : char) (l rest : str) :
  ~ In c rest -> upto_last c (l ++ c :: rest) = Some (l ++ [c]).
Proof.
  intros H. induction l as [|x l IH]; cbn [app upto_last].
  - apply upto_last_none in H. rewrite H. now rewrite N.eqb_refl.
  - now rewrite IH.
Qed.

Lemma match_bracketed_here_span (o c : char) (mid rest : str) :
  bracket_pair o c -> ~ In c rest ->
  match_bracketed_here (o :: mid ++ c :: rest) = Some (o :: mid ++ [c]).
Proof.
  intros [[-> ->]|[-> ->]] H; cbn [match_bracketed_here].
  - change (N.eqb (ch "[") (ch "[")) with true. cbv iota.
    now rewrite upto_last_snoc.
  - change (N.eqb (ch "{") (ch "[")) with false.
    change (N.eqb (ch "{") (ch "{")) with true. cbv iota.
    now rewrite upto_last_snoc.
Qed.

Lemma re_search_bracketed_suffix (a s : str) :
  re_search_bracketed (a ++ s) = None -> re_search_bracketed s = None.
Proof.
  induction a as [|x a IH]; [trivial|].
  cbn [app re_search_bracketed].
  destruct (match_bracketed_here (x :: a ++ s)); [discriminate|exact IH].
Qed.

Lemma upto_last_prefix (c : char) (s b : str) :
  upto_last c (s ++ b) = None -> upto_last c s = None.
Proof.
  rewrite !upto_last_none. intros H I. apply H, in_or_app. now left.
Qed.

Lemma re_search_bracketed_prefix (s b : str) :
  re_search_bracketed (s ++ b) = None -> re_search_bracketed s = None.
Proof.
  induction s as [|x s IH]; [reflexivity|].
  cbn [app re_search_bracketed].
  destruct (match_bracketed_here (x :: s ++ b)) eqn:E; [discriminate|].
  intros H. rewrite (IH H).
  replace (match_bracketed_here (x :: s)) with (@None str); [reflexivity|].
  symmetry. revert E. cbn [match_bracketed_here].
  destruct (N.eqb x (ch "[")).
  - destruct (upto_last (ch "]") (s ++ b)) eqn:U; [discriminate|].
    now rewrite (upto_last_prefix _ _ _ U).
  - destruct (N.eqb x (ch "{")); [|reflexivity].
    destruct (upto_last (ch "}") (s ++ b)) eqn:U; [discriminate|].
    now rewrite (upto_last_prefix _ _ _ U).
Qed.

Lemma fence_in_json_fence (s : str) :
  occurs_in (py "```json") s -> occurs_in (py "```") s.
Proof.
  intros (p & q & ->). exists p, (py "json" ++ q). reflexivity.
Qed.

(** X17.  [_extract_json] is idempotent: applied to its own result it
    returns that result. *)
Theorem extract_json_is_idempotent (raw_output : str) :
  _extract_json (_extract_json raw_output) = _extract_json raw_output.
Proof.
  pose proof (extract_json_no_fence raw_output) as NF.
  unfold _extract_json at 1.
  rewrite (re_sub_ws_no_occurrence (py "```json"))
    by (intros O; now apply NF, fence_in_json_fence).
  rewrite (re_sub_ws_no_occurrence (py "```")) by exact NF.
  clear NF. unfold _extract_json.
  set (text := re_sub_ws (py "```") (re_sub_ws (py "```json") raw_output)).
  destruct (re_search_bracketed text) as [m|] eqn:E.
  - destruct (re_search_bracketed_some _ _ E)
      as (pre & o & mid & c & post & _ & -> & Hb & _).
    cbn [re_search_bracketed].
    now rewrite (match_bracketed_here_span o c mid [] Hb (fun F => F)).
  - destruct (strip_is_a_substring text) as (a & b & H).
    rewrite H in E. apply re_search_bracketed_suffix in E.
    apply re_search_bracketed_prefix in E. rewrite E.
    apply strip_idempotent.
Qed.

Lemma re_sub_ws_char_free (h : char) (lit s : str) :
  ~ In h s -> re_sub_ws (h :: lit) s = s.
Proof.
  intros H. rewrite <- (app_nil_r s) at 1.
  rewrite re_sub_ws_keep by trivial. now rewrite re_sub_ws_nil, app_nil_r.
Qed.

Lemma lstrip_whitespace_prefix (ws s : str) :
  forallb isspace ws = true -> lstrip (ws ++ s) = lstrip s.
Proof.
  induction ws as [|x ws IH]; [reflexivity|]. cbn [forallb app lstrip].
  intros H. apply andb_true_iff in H as [-> H]. now apply IH.
Qed.

Lemma lstrip_In (x : char) (s : str) : In x (lstrip s) -> In x s.
Proof.
  destruct (lstrip_suffix s) as [ws H]. intros I. rewrite H.
  apply in_or_app. now right.
Qed.

Lemma whitespace_has_no (x : char) (ws : str) :
  isspace x = false -> forallb isspace ws = true -> ~ In x ws.
Proof.
  intros Hx H I. apply (proj1 (forallb_forall _ _) H) in I. congruence.
Qed.

(** The first substitution steps over a fence that no [json] follows. *)
Lemma re_sub_json_over_fence (rest : str) :
  starts_with (py "json") rest = false ->
  (forall t, rest <> 96%N :: t) ->
  re_sub_ws (py "```json") (py "```" ++ rest)
  = py "```" ++ re_sub_ws (py "```json") rest.
Proof.
  intros Hj Hh.
  assert (K : starts_with (96%N :: py "`json") rest = false).
  { destruct rest as [|d rest]; [reflexivity|]. cbn [starts_with].
    destruct (N.eqb_spec 96 d) as [<-|]; [|reflexivity].
    now destruct (Hh rest). }
  change (py "```" ++ rest) with (96%N :: 96%N :: 96%N :: rest).
  rewrite re_sub_ws_cons_miss by exact Hj.
  rewrite re_sub_ws_cons_miss.
  2:{ change (py "```json") with (96%N :: 96%N :: 96%N :: py "json").
      cbn [starts_with]. rewrite !N.eqb_refl. cbn [andb].
      destruct rest as [|d rest]; [reflexivity|]. cbn [starts_with].
      destruct (N.eqb_spec 96 d) as [<-|]; [|reflexivity].
      now destruct (Hh rest). }
  rewrite re_sub_ws_cons_miss.
  2:{ change (py "```json") with (96%N :: 96%N :: 96%N :: py "json").
      cbn [starts_with]. rewrite !N.eqb_refl. cbn [andb].
      destruct rest as [|d rest]; [reflexivity|]. cbn [starts_with].
      destruct (N.eqb_spec 96 d) as [<-|]; [|reflexivity].
      now destruct (Hh rest). }
  reflexivity.
Qed.

Lemma re_search_bracketed_skip (prose s : str) :
  ~ In (ch "[") prose -> ~ In (ch "{") prose ->
  re_search_bracketed (prose ++ s) = re_search_bracketed s.
Proof.
  induction prose as [|x prose IH]; intros H1 H2; [reflexivity|].
  cbn [app re_search_bracketed match_bracketed_here].
  destruct (N.eqb_spec x (ch "[")) as [->|_]; [destruct H1; now left|].
  destruct (N.eqb_spec x (ch "{")) as [->|_]; [destruct H2; now left|].
  apply IH; intros I; [apply H1|apply H2]; now right.
Qed.

Lemma re_search_bracketed_span (prose mid rest : str) (o c : char) :
  bracket_pair o c ->
  ~ In (ch "[") prose -> ~ In (ch "{") prose -> ~ In c rest ->
  re_search_bracketed (prose ++ o :: mid ++ c :: rest)
  = Some (o :: mid ++ [c]).
Proof.
  intros Hb H1 H2 Hc. rewrite re_search_bracketed_skip by trivial.
  cbn [re_search_bracketed].
  now rewrite (match_bracketed_here_span o c mid rest Hb Hc).
Qed.

Lemma re_sub_json_tail (body after : str) :
  ~ In 96%N body -> ~ In 96%N after ->
  starts_with (py "json") after = false ->
  re_sub_ws (py "```json") (body ++ py "```" ++ after)
  = body ++ py "```" ++ after.
Proof.
  intros Hb Ha Hj.
  change (py "```json") with (96%N :: py "``json").
  rewrite re_sub_ws_keep by trivial. f_equal.
  change (96%N :: py "``json") with (py "```json").
  rewrite re_sub_json_over_fence; trivial.
  - f_equal. change (py "```json") with (96%N :: py "``json").
    now apply re_sub_ws_char_free.
  - intros t ->. apply Ha. now left.
Qed.

Lemma re_sub_fence_tail (body after : str) :
  ~ In 96%N body -> ~ In 96%N after ->
  re_sub_ws (py "```") (body ++ py "```" ++ after) = body ++ lstrip after.
Proof.
  intros Hb Ha.
  change (py "```") with (96%N :: py "``").
  rewrite re_sub_ws_keep by trivial. f_equal.
  change ((96%N :: py "``") ++ after) with (96%N :: py "``" ++ after).
  rewrite re_sub_ws_cons_hit by (reflexivity || discriminate).
  change (skipn (length (96%N :: py "``")) (96%N :: py "``" ++ after))
    with after.
  apply re_sub_ws_char_free. intros I. now apply Ha, lstrip_In.
Qed.

Lemma span_app (o c : char) (mid rest : str) :
  (o :: mid ++ [c]) ++ rest = o :: mid ++ c :: rest.
Proof. cbn [app]. now rewrite <- app_assoc. Qed.

Lemma bracket_pair_facts (o c : char) :
  bracket_pair o c ->
  o <> 96%N /\ c <> 96%N /\ isspace o = false /\ o <> 106%N.
Proof.
  intros [[-> ->]|[-> ->]]; repeat split; discriminate.
Qed.

(** X18.  Stage A unwraps a bracketed span from prose and fences.
    Let a span start with an opening bracket and end with the closing
    bracket of its kind; let the text before it hold no opening bracket,
    the text after it no closing bracket of that kind, and neither they
    nor the span a backquote.  Then [_extract_json] returns exactly the
    span, whether the span stands in the prose directly, in a fence
    opened by [```json] or in a bare fence. *)
Theorem fenced_json_is_unwrapped
    (prose ws1 mid ws2 after : str) (o c : char) :
  bracket_pair o c ->
  ~ In 96%N (prose ++ mid ++ ws2 ++ after) ->
  ~ In (ch "[") prose -> ~ In (ch "{") prose ->
  ~ In c (ws2 ++ after) ->
  forallb isspace ws1 = true ->
  starts_with (py "json") after = false ->
  let span := o :: mid ++ [c] in
  _extract_json (prose ++ span ++ ws2 ++ after) = span
  /\ _extract_json
       (prose ++ py "```json" ++ ws1 ++ span ++ ws2 ++ py "```" ++ after)
     = span
  /\ _extract_json
       (prose ++ py "```" ++ ws1 ++ span ++ ws2 ++ py "```" ++ after)
     = span.
Proof.
  intros Hb Hq H1 H2 Hc Hw Hj span.
  destruct (bracket_pair_facts o c Hb) as (Ho & Hc' & Hso & Hoj).
  assert (Qp : ~ In 96%N prose) by (intros I; apply Hq; apply in_or_app; auto).
  assert (Qa : ~ In 96%N after).
  { intros I. apply Hq. do 3 (apply in_or_app; right). exact I. }
  assert (Qw : ~ In 96%N ws1) by (now apply whitespace_has_no).
  assert (Qb : ~ In 96%N (span ++ ws2)).
  { unfold span. rewrite span_app. intros [I|I]; [congruence|].
    apply in_app_or in I as [I|[I|I]].
    - apply Hq. apply in_or_app. right. apply in_or_app. now left.
    - congruence.
    - apply Hq. do 2 (apply in_or_app; right). apply in_or_app. now left. }
  assert (Hs : forall rest, lstrip (ws1 ++ (span ++ ws2) ++ rest)
                            = (span ++ ws2) ++ rest).
  { intros rest. rewrite lstrip_whitespace_prefix by trivial.
    unfold span. cbn [app]. now apply lstrip_fixed. }
  assert (Found : forall rest, ~ In c rest ->
             (match re_search_bracketed (prose ++ (span ++ ws2) ++ rest) with
              | Some json_match => json_match
              | None => strip (prose ++ (span ++ ws2) ++ rest)
              end) = span).
  { intros rest Hr. unfold span. rewrite <- app_assoc, span_app.
    rewrite (re_search_bracketed_span prose mid (ws2 ++ rest) o c);
      trivial.
    intros I. apply in_app_or in I as [I|I]; [|now apply Hr].
    apply Hc. apply in_or_app. now left. }
  assert (Ca : ~ In c after)
    by (intros I; apply Hc; apply in_or_app; now right).
  assert (Cl : ~ In c (lstrip after)) by (intros I; now apply Ca, lstrip_In).
  assert (S2 : re_sub_ws (py "```")
                 (prose ++ (span ++ ws2) ++ py "```" ++ after)
               = prose ++ (span ++ ws2) ++ lstrip after).
  { change (py "```") with (96%N :: py "``") at 1.
    rewrite re_sub_ws_keep by trivial. f_equal.
    change (96%N :: py "``") with (py "```").
    now apply re_sub_fence_tail. }
  split; [|split]; unfold _extract_json.
  - rewrite (app_assoc span ws2 after).
    change (py "```json") with (96%N :: py "``json").
    rewrite re_sub_ws_char_free.
    + change (py "```") with (96%N :: py "``").
      rewrite re_sub_ws_char_free.
      * now apply Found.
      * intros I. apply in_app_or in I as [I|I]; [now apply Qp|].
        apply in_app_or in I as [I|I]; [now apply Qb|now apply Qa].
    + intros I. apply in_app_or in I as [I|I]; [now apply Qp|].
      apply in_app_or in I as [I|I]; [now apply Qb|now apply Qa].
  - rewrite (app_assoc span ws2 (py "```" ++ after)).
    assert (S1 : re_sub_ws (py "```json")
                   (prose ++ py "```json" ++ ws1 ++ (span ++ ws2)
                    ++ py "```" ++ after)
                 = prose ++ (span ++ ws2) ++ py "```" ++ after).
    { change (py "```json") with (96%N :: py "``json") at 1.
      rewrite re_sub_ws_keep by trivial. f_equal.
      change (py "```json" ++ ws1 ++ (span ++ ws2) ++ py "```" ++ after)
        with (96%N :: py "``json" ++ ws1 ++ (span ++ ws2)
              ++ py "```" ++ after).
      rewrite re_sub_ws_cons_hit by (reflexivity || discriminate).
      change (skipn (length (96%N :: py "``json")) _)
        with (ws1 ++ (span ++ ws2) ++ py "```" ++ after).
      rewrite Hs.
      change (96%N :: py "``json") with (py "```json").
      now apply re_sub_json_tail. }
    rewrite S1, S2. now apply Found.
  - rewrite (app_assoc span ws2 (py "```" ++ after)).
    assert (S1 : re_sub_ws (py "```json")
                   (prose ++ py "```" ++ ws1 ++ (span ++ ws2)
                    ++ py "```" ++ after)
                 = prose ++ py "```" ++ ws1 ++ (span ++ ws2)
                   ++ py "```" ++ after).
    { change (py "```json") with (96%N :: py "``json") at 1.
      rewrite re_sub_ws_keep by trivial. f_equal.
      change (96%N :: py "``json") with (py "```json").
      rewrite re_sub_json_over_fence.
      - f_equal.
        change (py "```json") with (96%N :: py "``json") at 1.
        rewrite re_sub_ws_keep by trivial. f_equal.
        change (96%N :: py "``json") with (py "```json").
        now apply re_sub_json_tail.
      - destruct ws1 as [|w ws1].
        + unfold span. cbn [app starts_with py List.map list_ascii_of_string].
          change (N_of_ascii "j") with 106%N.
          destruct (N.eqb_spec 106 o); [congruence|reflexivity].
        + cbn [forallb] in Hw. apply andb_true_iff in Hw as [Hw _].
          cbn [app starts_with py List.map list_ascii_of_string].
          change (N_of_ascii "j") with 106%N.
          destruct (N.eqb_spec 106 w) as [<-|]; [discriminate|reflexivity].
      - intros t E. destruct ws1 as [|w ws1].
        + unfold span in E. cbn [app] in E. congruence.
        + cbn [app] in E. injection E as -> _. apply Qw. now left. }
    assert (S3 : re_sub_ws (py "```")
                   (prose ++ py "```" ++ ws1 ++ (span ++ ws2)
                    ++ py "```" ++ after)
                 = prose ++ (span ++ ws2) ++ lstrip after).
    { change (py "```") with (96%N :: py "``") at 1.
      rewrite re_sub_ws_keep by trivial. f_equal.
      change (py "```" ++ ws1 ++ (span ++ ws2) ++ py "```" ++ after)
        with (96%N :: py "``" ++ ws1 ++ (span ++ ws2) ++ py "```" ++ after).
      rewrite re_sub_ws_cons_hit by (reflexivity || discriminate).
      change (skipn (length (96%N :: py "``")) _)
        with (ws1 ++ (span ++ ws2) ++ py "```" ++ after).
      rewrite Hs.
      change (96%N :: py "``") with (py "```").
      now apply re_sub_fence_tail. }
    rewrite S1, S3. now apply Found.
Qed.

Lemma fenced_json_is_unwrapped_witness :
  _extract_json
    (jtext "Here is the result:
```json
[{'question':'What is 2+2?','options':{'A':'3','B':'4'},'correct_answer':'B'}]
```")
  = jtext "[{'question':'What is 2+2?','options':{'A':'3','B':'4'},'correct_answer':'B'}]".
Proof.
  refine (proj1 (proj2 (fenced_json_is_unwrapped
    (jtext "Here is the result:
") [10%N]
    (jtext "{'question':'What is 2+2?','options':{'A':'3','B':'4'},'correct_answer':'B'}")
    [10%N] [] (ch "[") (ch "]") _ _ _ _ _ _ _)));
    try reflexivity; try (vm_compute; intuition discriminate).
Defined.

(* ================================================================== *)
(** * The time limit of a placeholder, and the score of a parsed batch *)
(* ================================================================== *)

(** X19.  A coding placeholder has [time_limit_seconds] 120, 180 or 300
    for the difficulty ["easy"], ["medium"] or ["hard"], and 120 for
    every other difficulty string. *)
Theorem placeholder_time_limits (topic : str) (count : Z) :
  (forall level : Difficulty,
      Forall (fun r => dict_lookup (py "time_limit_seconds") r
                       = Some (VInt match level with
                                    | EASY => 120
                                    | MEDIUM => 180
                                    | HARD => 300
                                    end))
             (_generate_fallback_coding topic (Difficulty_value level) count))
  /\ (forall difficulty,
         (forall level, difficulty <> Difficulty_value level) ->
         Forall (fun r => dict_lookup (py "time_limit_seconds") r
                          = Some (VInt 120))
                (_generate_fallback_coding topic difficulty count)).
Proof.
  split.
  - intros level. apply Forall_map_intro. intros i.
    destruct level; reflexivity.
  - intros d Hd.
    pose proof (fallback_coding_time_limit topic d count) as F.
    replace (spec_time_limit d) with (@None Z) in F; [exact F|].
    unfold spec_time_limit.
    destruct (str_eqb d (py "easy")) eqn:E1;
      [apply str_eqb_eq in E1; now destruct (Hd EASY)|].
    destruct (str_eqb d (py "medium")) eqn:E2;
      [apply str_eqb_eq in E2; now destruct (Hd MEDIUM)|].
    destruct (str_eqb d (py "hard")) eqn:E3;
      [apply str_eqb_eq in E3; now destruct (Hd HARD)|].
    reflexivity.
Qed.

Lemma placeholder_time_limits_witness :
  Forall (fun r => dict_lookup (py "time_limit_seconds") r = Some (VInt 120))
         (_generate_fallback_coding (py "Python") (py "Hard") 2).
Proof.
  apply (proj2 (placeholder_time_limits (py "Python") 2) (py "Hard")).
  intros level. destruct level; discriminate.
Defined.

Lemma truthy_get_None (r : dict) (k : str) :
  truthy (dict_get r k VNone) = field_nonempty r k.
Proof.
  unfold dict_get, field_nonempty. now destruct (dict_lookup k r).
Qed.

Lemma fillup_quality_of_conforming (r : dict) (n : Z) :
  conforms FILLUP r = true ->
  fillup_quality_step r n
  = if field_nonempty r (py "hint") then n + 1 else n.
Proof.
  unfold conforms, fillup_quality_step. cbn [mandatory_fields forallb].
  rewrite !truthy_get_None. intros H.
  apply andb_true_iff in H as [-> H]. apply andb_true_iff in H as [-> _].
  reflexivity.
Qed.

Lemma coding_quality_of_conforming (r : dict) (n : Z) :
  conforms CODING r = true ->
  coding_quality_step r n
  = if field_nonempty r (py "constraints")
       && field_nonempty r (py "expected_output_example")
    then n + 1 else n.
Proof.
  unfold conforms, coding_quality_step. cbn [mandatory_fields forallb].
  rewrite !truthy_get_None. intros H.
  apply andb_true_iff in H as [-> H]. apply andb_true_iff in H as [-> H].
  apply andb_true_iff in H as [-> _]. reflexivity.
Qed.

(** X20.  On the batches the parsers return, the quality scores look
    at the optional fields only.  A record returned by [_parse_fillup]
    is counted by [_score_fillup_quality] exactly when its [hint] is
    non-empty.  A coding record kept by [_parse_coding] is counted by
    [_score_coding_quality] exactly when its [constraints] and
    [expected_output_example] are non-empty, and a coding placeholder is
    never counted. *)
Theorem parsed_batches_score_on_optional_fields `{Interpreter}
    (raw topic difficulty : str) (count : Z) :
  (forall l,
      _parse_fillup raw topic difficulty count = Ok l ->
      Forall (fun r => forall n,
                fillup_quality_step r n
                = if field_nonempty r (py "hint") then n + 1 else n) l)
  /\ (forall l,
         _parse_coding raw topic difficulty count = Ok l ->
         (l = _generate_fallback_coding topic difficulty count
          /\ Forall (fun r => forall n, coding_quality_step r n = n) l)
         \/ Forall (fun r => forall n,
                      coding_quality_step r n
                      = if field_nonempty r (py "constraints")
                           && field_nonempty r
                                (py "expected_output_example")
                        then n + 1 else n) l).
Proof.
  split.
  - intros l E.
    pose proof (parse_fillup_conforms raw topic difficulty count l E) as F.
    apply Forall_forall. intros r Hr n.
    apply fillup_quality_of_conforming.
    exact (proj1 (Forall_forall _ _) F r Hr).
  - intros l E0.
    destruct (parse_coding_cases raw topic difficulty count)
      as [E | [[_ E] | [E | (parsed & valid & _ & Hv & _ & E)]]];
      rewrite E in E0; [discriminate|discriminate| |]; injection E0 as <-.
    + left. split; trivial. apply Forall_map_intro. intros i n.
      reflexivity.
    + right. apply Forall_slice_to.
      pose proof (coding_loop_conforms _ _ _ _ _ Hv) as F.
      apply Forall_forall. intros r Hr n.
      apply coding_quality_of_conforming.
      exact (proj1 (Forall_forall _ _) F r Hr).
Qed.

Lemma parsed_batches_score_on_optional_fields_witness :
  exists r,
    _parse_coding
      (jtext "[{'question': 'Q', 'input': 'I', 'output': 'O', 'constraints': 'n < 10'}]")
      (py "Python") (py "easy") 1
    = Ok [r]
    /\ coding_quality_step r 0 = 0
    /\ field_nonempty r (py "expected_output_example") = false.
Proof.
  destruct (_parse_coding
      (jtext "[{'question': 'Q', 'input': 'I', 'output': 'O', 'constraints': 'n < 10'}]")
      (py "Python") (py "easy") 1) as [l|e] eqn:E;
    [|vm_compute in E; discriminate].
  destruct (proj2 (parsed_batches_score_on_optional_fields _ _ _ _) l E)
    as [[Hf _]|F].
  - vm_compute in E. injection E as <-. vm_compute in Hf. discriminate.
  - vm_compute in E. injection E as <-. eexists. split; [reflexivity|].
    split; [|reflexivity].
    rewrite (Forall_inv F 0). reflexivity.
Defined.

(* ================================================================== *)
(** * The ways out of the parsers *)
(* ================================================================== *)

(** X21.  Each parser returns a list or raises one of a few exceptions,
    under every interpreter.  [_parse_mcq] raises only what its
    [except json.JSONDecodeError] does not name, the [RecursionError]
    and the [ValueError] of the decoder, and the [UnicodeEncodeError]
    of the [print] in its handler; [_parse_fillup] only the first two;
    [_parse_coding], whose clause names [ValueError], only
    [RecursionError] and the [AttributeError] of [.strip()]. *)
Theorem parser_outcomes `{Interpreter}
    (raw topic difficulty : str) (count : Z) :
  ((exists l, _parse_mcq raw topic difficulty count = Ok l)
   \/ exists e,
        _parse_mcq raw topic difficulty count = Raise e
        /\ (e = RecursionError
            \/ e = UnicodeEncodeError
            \/ exists digits,
                 (max_str_digits < digits)%nat
                 /\ e = ValueError (int_limit_message digits)))
  /\ ((exists l, _parse_fillup raw topic difficulty count = Ok l)
      \/ exists e,
           _parse_fillup raw topic difficulty count = Raise e
           /\ (e = RecursionError
               \/ exists digits,
                    (max_str_digits < digits)%nat
                    /\ e = ValueError (int_limit_message digits)))
  /\ ((exists l, _parse_coding raw topic difficulty count = Ok l)
      \/ _parse_coding raw topic difficulty count = Raise AttributeError
      \/ _parse_coding raw topic difficulty count = Raise RecursionError).
Proof.
  split; [apply parse_mcq_returns_or_raises|].
  split; [apply parse_fillup_returns_or_raises|].
  apply parse_coding_returns_or_raises.
Qed.

(** Each of them is met.  An integer of 4301 digits stops [_parse_mcq]
    and [_parse_fillup] and sends [_parse_coding] to its placeholders;
    994 nested arrays stop the three parsers; a lone surrogate in the
    raw output stops [_parse_mcq] alone, and not when it is one that
    the console lets through or when it comes after the first 200
    characters. *)
Example interpreter_limits_reach_the_caller :
  let digits := List.repeat (ch "1") 4301 in
  let nested := List.repeat (ch "[") 994 ++ List.repeat (ch "]") 994 in
  (_parse_mcq digits (py "SQL") (py "easy") 1
   = Raise (ValueError (int_limit_message 4301))
   /\ _parse_fillup digits (py "SQL") (py "easy") 1
      = Raise (ValueError (int_limit_message 4301))
   /\ _parse_coding digits (py "SQL") (py "easy") 1
      = Ok (_generate_fallback_coding (py "SQL") (py "easy") 1))
  /\ (_parse_mcq nested (py "SQL") (py "easy") 1 = Raise RecursionError
      /\ _parse_fillup nested (py "SQL") (py "easy") 1
         = Raise RecursionError
      /\ _parse_coding nested (py "SQL") (py "easy") 1
         = Raise RecursionError)
  /\ (_parse_mcq [55357%N] (py "SQL") (py "easy") 1
      = Raise UnicodeEncodeError
      /\ _parse_fillup [55357%N] (py "SQL") (py "easy") 1
         = Ok (_generate_fallback_fillup (py "SQL") (py "easy") 1)
      /\ _parse_mcq [56448%N] (py "SQL") (py "easy") 1
         = Ok (_generate_fallback_mcq (py "SQL") (py "easy") 1)
      /\ _parse_mcq (List.repeat (ch "x") 200 ++ [55357%N])
           (py "SQL") (py "easy") 1
         = Ok (_generate_fallback_mcq (py "SQL") (py "easy") 1)).
Proof. intros digits nested. repeat split; vm_compute; reflexivity. Qed.
